(** * deepkit client engine: a shallow embedding of [deepkit/client.py]

    The client is a single-threaded cooperative event loop (asyncio) that
    owns a message counter, two correlation tables, an outbound queue and a
    patch buffer.  Every coroutine of the source is embedded as a function
    that runs one *turn*: the code between two suspension points ([await]).
    A turn is atomic, which is what the event loop guarantees; calls made by
    the application thread ([patch]) are placed between turns.  A schedule
    (a list of events) fixes which coroutine is resumed next and what the
    transport answered, so an interleaving of the source at its [await]
    points is a schedule of the model.

    What the embedding leaves out: floating-point numbers (decoded JSON and
    Python values are the type [json], with integers only, so that every
    value is equal to itself: the float NaN is not); characters above code
    point 255 in strings; diagnostic [print] calls; the part of the
    user-mode bootstrap that follows the [authenticate] call, which reads
    the account configuration of [deepkit.home]; [Controller.stop]. *)

From stdpp Require Import gmap strings list fin_maps pretty sorting.

Set Warnings "-register-all".
Open Scope string_scope.
Open Scope list_scope.
Open Scope Z_scope.

(** ** Python values *)

Inductive json : Type :=
  | JNull
  | JBool (b : bool)
  | JInt (n : Z)
  | JStr (s : string)
  | JList (l : list json)
  | JObj (fields : list (string * json)).

(** A [dict] with string keys, in insertion order. *)
Abbreviation pydict := (list (string * json)).

Fixpoint dict_get (k : string) (d : pydict) : option json :=
  match d with
  | [] => None
  | (k', v) :: d' => if String.eqb k k' then Some v else dict_get k d'
  end.

(** [d[k] = v]: an existing key keeps its position, a new one goes last. *)
Fixpoint dict_set (k : string) (v : json) (d : pydict) : pydict :=
  match d with
  | [] => [(k, v)]
  | (k', v') :: d' =>
      if String.eqb k k' then (k, v) :: d' else (k', v') :: dict_set k v d'
  end.

(** Python's [==] on these values: [True == 1], lists compare pointwise and
    dicts compare as maps, whatever the order of their keys. *)
Fixpoint py_eq (a b : json) {struct a} : bool :=
  match a, b with
  | JNull, JNull => true
  | JBool x, JBool y => Bool.eqb x y
  | JInt x, JInt y => x =? y
  | JBool x, JInt y => (if x then 1 else 0) =? y
  | JInt x, JBool y => x =? (if y then 1 else 0)
  | JStr x, JStr y => String.eqb x y
  | JList xs, JList ys =>
      (fix go (xs ys : list json) {struct xs} : bool :=
         match xs, ys with
         | [], [] => true
         | x :: xs', y :: ys' => py_eq x y && go xs' ys'
         | _, _ => false
         end) xs ys
  | JObj xs, JObj ys =>
      Nat.eqb (length xs) (length ys) &&
      (fix go (xs : pydict) {struct xs} : bool :=
         match xs with
         | [] => true
         | (k, x) :: xs' =>
             match dict_get k ys with
             | Some y => py_eq x y && go xs'
             | None => false
             end
         end) xs
  | _, _ => false
  end.

(** Truth value of an object, as [if res] and [not x] take it. *)
Definition truthy (v : json) : bool :=
  match v with
  | JNull => false
  | JBool b => b
  | JInt n => negb (n =? 0)
  | JStr s => negb (String.eqb s "")
  | JList l => match l with [] => false | _ => true end
  | JObj d => match d with [] => false | _ => true end
  end.

(** ** Exceptions *)

Inductive exn_class : Type :=
  | KeyError
  | TypeError
  | AttributeError
  | ValueError
  | InvalidStateError
  | ConnectionClosed
  | ApiError
  | PyException
  | SystemExit
  | KeyboardInterrupt
  | GeneratorExit.

(** The classes that derive from [Exception], which [except Exception]
    catches; [SystemExit], [KeyboardInterrupt] and [GeneratorExit] derive
    from [BaseException] only. *)
Definition is_exception (cls : exn_class) : bool :=
  match cls with
  | SystemExit | KeyboardInterrupt | GeneratorExit => false
  | _ => true
  end.

(** An exception instance: its class and [str(e)]. *)
Record exn : Type := Exn { exn_cls : exn_class; exn_str : string }.

Definition key_error (k : string) : exn := Exn KeyError ("'" +:+ k +:+ "'").

(** [type(v).__name__] *)
Definition type_name (v : json) : string :=
  match v with
  | JNull => "NoneType"
  | JBool _ => "bool"
  | JInt _ => "int"
  | JStr _ => "str"
  | JList _ => "list"
  | JObj _ => "dict"
  end.

(** [v[k]] with a string key; the texts of the [TypeError]s are those of
    CPython 3.11. *)
Definition subscript (v : json) (k : string) : exn + json :=
  match v with
  | JObj d =>
      match dict_get k d with
      | Some x => inr x
      | None => inl (key_error k)
      end
  | JStr _ => inl (Exn TypeError "string indices must be integers, not 'str'")
  | JList _ => inl (Exn TypeError "list indices must be integers or slices, not str")
  | _ => inl (Exn TypeError ("'" +:+ type_name v +:+ "' object is not subscriptable"))
  end.

(** ** Controller objects

    What the registry needs of a registered object: the name of its class
    (for the text of [AttributeError]), and for each attribute name that
    [hasattr] accepts the object behind it, given by what the code does
    with it: [inspect.getfullargspec] reports its argument names or raises
    (a [TypeError] for a data attribute, or for a callable whose signature
    cannot be read), and a call returns or raises (a [TypeError] for an
    object that is not callable). *)

Record pymethod : Type := PyMethod {
  m_args : exn + list string;
  m_call : list json → exn + json
}.

Record pyobject : Type := PyObject {
  class_name : string;
  attribute : string → option pymethod
}.

Definition hasattr (o : pyobject) (a : string) : bool :=
  match attribute o a with Some _ => true | None => false end.

Definition getattr (o : pyobject) (a : string) : exn + pymethod :=
  match attribute o a with
  | Some m => inr m
  | None =>
      inl (Exn AttributeError
             ("'" +:+ class_name o +:+ "' object has no attribute '" +:+ a +:+ "'"))
  end.

(** The closure stored in [Client.subscriber] by [_subscribe]:
    [on_incoming_message], which holds the [subscriber] of
    [register_controller] (over [name] and [controller]) and [on_done]
    (over [message_id]). *)
Record handler : Type := Handler {
  h_name : string;
  h_controller : pyobject;
  h_id : Z
}.

(** ** The client object *)

Record Client : Type := mkClient {
  connected : bool;               (* value of the BehaviorSubject *)
  token : option string;
  job_id : option string;
  message_id : Z;
  callbacks : gmap Z ();          (* id -> pending future *)
  subscriber : gmap Z handler;
  stopping : bool;
  queue : list json;
  controllers : gmap string pyobject;
  patches : gmap string json;
  offline : bool;
  connections : Z;
  connecting : option bool;       (* the [connecting] future; None while pending *)
  connection : option bool;       (* None: attribute not set; Some b: [connection.closed] is b *)
  loop_running : bool
}.

(** [Client.__init__], with the environment's token and job id. *)
Definition init (tok jid : option string) : Client :=
  {| connected := false; token := tok; job_id := jid; message_id := 0;
     callbacks := ∅; subscriber := ∅; stopping := false; queue := [];
     controllers := ∅; patches := ∅; offline := false; connections := 0;
     connecting := None; connection := None; loop_running := true |}.

Definition set_message_id (n : Z) (c : Client) : Client :=
  {| connected := connected c; token := token c; job_id := job_id c; message_id := n;
     callbacks := callbacks c; subscriber := subscriber c; stopping := stopping c;
     queue := queue c; controllers := controllers c; patches := patches c;
     offline := offline c; connections := connections c; connecting := connecting c;
     connection := connection c; loop_running := loop_running c |}.

Definition set_callbacks (m : gmap Z ()) (c : Client) : Client :=
  {| connected := connected c; token := token c; job_id := job_id c;
     message_id := message_id c;
     callbacks := m; subscriber := subscriber c; stopping := stopping c;
     queue := queue c; controllers := controllers c; patches := patches c;
     offline := offline c; connections := connections c; connecting := connecting c;
     connection := connection c; loop_running := loop_running c |}.

Definition set_subscriber (m : gmap Z handler) (c : Client) : Client :=
  {| connected := connected c; token := token c; job_id := job_id c;
     message_id := message_id c;
     callbacks := callbacks c; subscriber := m; stopping := stopping c;
     queue := queue c; controllers := controllers c; patches := patches c;
     offline := offline c; connections := connections c; connecting := connecting c;
     connection := connection c; loop_running := loop_running c |}.

Definition set_stopping (b : bool) (c : Client) : Client :=
  {| connected := connected c; token := token c; job_id := job_id c;
     message_id := message_id c;
     callbacks := callbacks c; subscriber := subscriber c; stopping := b;
     queue := queue c; controllers := controllers c; patches := patches c;
     offline := offline c; connections := connections c; connecting := connecting c;
     connection := connection c; loop_running := loop_running c |}.

Definition set_queue (q : list json) (c : Client) : Client :=
  {| connected := connected c; token := token c; job_id := job_id c;
     message_id := message_id c;
     callbacks := callbacks c; subscriber := subscriber c; stopping := stopping c;
     queue := q; controllers := controllers c; patches := patches c;
     offline := offline c; connections := connections c; connecting := connecting c;
     connection := connection c; loop_running := loop_running c |}.

Definition set_controllers (m : gmap string pyobject) (c : Client) : Client :=
  {| connected := connected c; token := token c; job_id := job_id c;
     message_id := message_id c;
     callbacks := callbacks c; subscriber := subscriber c; stopping := stopping c;
     queue := queue c; controllers := m; patches := patches c;
     offline := offline c; connections := connections c; connecting := connecting c;
     connection := connection c; loop_running := loop_running c |}.

Definition set_patches (m : gmap string json) (c : Client) : Client :=
  {| connected := connected c; token := token c; job_id := job_id c;
     message_id := message_id c;
     callbacks := callbacks c; subscriber := subscriber c; stopping := stopping c;
     queue := queue c; controllers := controllers c; patches := m;
     offline := offline c; connections := connections c; connecting := connecting c;
     connection := connection c; loop_running := loop_running c |}.

Definition set_offline (b : bool) (c : Client) : Client :=
  {| connected := connected c; token := token c; job_id := job_id c;
     message_id := message_id c;
     callbacks := callbacks c; subscriber := subscriber c; stopping := stopping c;
     queue := queue c; controllers := controllers c; patches := patches c;
     offline := b; connections := connections c; connecting := connecting c;
     connection := connection c; loop_running := loop_running c |}.

Definition set_connecting (f : option bool) (c : Client) : Client :=
  {| connected := connected c; token := token c; job_id := job_id c;
     message_id := message_id c;
     callbacks := callbacks c; subscriber := subscriber c; stopping := stopping c;
     queue := queue c; controllers := controllers c; patches := patches c;
     offline := offline c; connections := connections c; connecting := f;
     connection := connection c; loop_running := loop_running c |}.

Definition set_connection (k : option bool) (c : Client) : Client :=
  {| connected := connected c; token := token c; job_id := job_id c;
     message_id := message_id c;
     callbacks := callbacks c; subscriber := subscriber c; stopping := stopping c;
     queue := queue c; controllers := controllers c; patches := patches c;
     offline := offline c; connections := connections c; connecting := connecting c;
     connection := k; loop_running := loop_running c |}.

Definition set_connected (b : bool) (c : Client) : Client :=
  {| connected := b; token := token c; job_id := job_id c;
     message_id := message_id c;
     callbacks := callbacks c; subscriber := subscriber c; stopping := stopping c;
     queue := queue c; controllers := controllers c; patches := patches c;
     offline := offline c; connections := connections c; connecting := connecting c;
     connection := connection c; loop_running := loop_running c |}.

Definition set_connections (n : Z) (c : Client) : Client :=
  {| connected := connected c; token := token c; job_id := job_id c;
     message_id := message_id c;
     callbacks := callbacks c; subscriber := subscriber c; stopping := stopping c;
     queue := queue c; controllers := controllers c; patches := patches c;
     offline := offline c; connections := n; connecting := connecting c;
     connection := connection c; loop_running := loop_running c |}.

Definition set_loop_running (b : bool) (c : Client) : Client :=
  {| connected := connected c; token := token c; job_id := job_id c;
     message_id := message_id c;
     callbacks := callbacks c; subscriber := subscriber c; stopping := stopping c;
     queue := queue c; controllers := controllers c; patches := patches c;
     offline := offline c; connections := connections c; connecting := connecting c;
     connection := connection c; loop_running := b |}.

(** ** One turn of a coroutine

    A turn starts in a client state and ends in one of four ways: the
    coroutine returns, raises, or parks at one of the two futures the
    source awaits ([self.connecting], [self.callbacks[id]]).  State changes
    made before a [raise] or an [await] stay, as in Python.  The labels
    record what the turn did that is visible from outside the client
    object. *)

Inductive label : Type :=
  | LAssign (id : Z)                 (* [message['id'] = self.message_id] *)
  | LResolve (id : Z) (res : json)   (* [self.callbacks[id].set_result(res)] *)
  | LSend (frame : json)             (* [connection.send(json.dumps(frame))] returned *)
  | LConnect                         (* [websockets.connect] was called *)
  | LClose                           (* [connection.close()] was called *)
  | LSleep (ms : Z).                 (* [asyncio.sleep] was called *)

Inductive completion (A : Type) : Type :=
  | Return (a : A)
  | Raise (e : exn)
  | AwaitConnecting
  | AwaitFuture (id : Z).

Arguments Return {A} a.
Arguments Raise {A} e.
Arguments AwaitConnecting {A}.
Arguments AwaitFuture {A} id.

Definition M (A : Type) : Type := Client → completion A * Client * list label.

Definition ret {A} (a : A) : M A := λ c, (Return a, c, []).

Definition raise {A} (e : exn) : M A := λ c, (Raise e, c, []).

Definition bind {A B} (m : M A) (f : A → M B) : M B :=
  λ c,
    match m c with
    | (Return a, c1, l1) =>
        match f a c1 with (r, c2, l2) => (r, c2, l1 ++ l2) end
    | (Raise e, c1, l1) => (Raise e, c1, l1)
    | (AwaitConnecting, c1, l1) => (AwaitConnecting, c1, l1)
    | (AwaitFuture i, c1, l1) => (AwaitFuture i, c1, l1)
    end.

Notation "x <~ m ;; k" := (bind m (λ x, k))
  (at level 100, m at next level, k at level 200, right associativity).
Notation "m ;;; k" := (bind m (λ _, k))
  (at level 100, k at level 200, right associativity).

Definition get {A} (f : Client → A) : M A := λ c, (Return (f c), c, []).

Definition modify (f : Client → Client) : M () := λ c, (Return (), f c, []).

Definition tell (l : label) : M () := λ c, (Return (), c, [l]).

Definition lift {A} (r : exn + A) : M A :=
  match r with
  | inl e => raise e
  | inr a => ret a
  end.

Definition outcome {A} (r : completion A * Client * list label) : completion A := r.1.1.
Definition after {A} (r : completion A * Client * list label) : Client := r.1.2.
Definition labels {A} (r : completion A * Client * list label) : list label := r.2.

(** [await self.connecting]: passes once the future has a result. *)
Definition await_connecting : M () :=
  λ c,
    match connecting c with
    | Some _ => (Return (), c, [])
    | None => (AwaitConnecting, c, [])
    end.

(** [self.message_id += 1; message['id'] = self.message_id], the two lines
    that [_subscribe] and [_message] share. *)
Definition next_id : M Z :=
  λ c,
    let id := message_id c + 1 in
    (Return id, set_message_id id c, [LAssign id]).

(** ** Client.patch (lines 256-260) *)

Definition patch (path : string) (value : json) (c : Client) : Client :=
  if offline c then c
  else if stopping c then c
  else set_patches (<[path := value]> (patches c)) c.

(** ** Client._message (lines 241-254)

    The turn ends at [await self.callbacks[self.message_id]] unless
    [no_response] is set; the awaited id is the one just assigned, as no
    suspension point lies between the assignment and the [await]. *)

Definition _message (message : pydict) (lock no_response : bool) : M json :=
  (if lock then await_connecting else ret ()) ;;;
  id <~ next_id ;;
  (if no_response then ret ()
   else modify (λ c, set_callbacks (<[id := ()]> (callbacks c)) c)) ;;;
  modify (λ c, set_queue (queue c ++ [JObj (dict_set "id" (JInt id) message)]) c) ;;;
  if no_response then ret JNull
  else λ c, (AwaitFuture id, c, []).

(** ** Client._subscribe (lines 224-239) *)

Definition _subscribe (message : pydict) (name : string) (controller : pyobject) : M () :=
  await_connecting ;;;
  id <~ next_id ;;
  modify (λ c, set_subscriber (<[id := Handler name controller id]> (subscriber c)) c) ;;;
  modify (λ c, set_queue (queue c ++ [JObj (dict_set "id" (JInt id) message)]) c).

(** [on_done] of [_subscribe]: [del self.subscriber[message_id]]. *)
Definition on_done (id : Z) : M () :=
  s <~ get subscriber ;;
  match s !! id with
  | Some _ => modify (set_subscriber (delete id s))
  | None => raise (Exn KeyError (pretty id))
  end.

(** ** Text of values

    [str(v)] as an f-string and [str()] produce it, and [repr] for what is
    nested in a list or dict.  A [string] stands for a Python [str] whose
    characters are the code points below 256, one per character. *)

Definition backslash : Ascii.ascii := Ascii.ascii_of_nat 92.
Definition single_quote : Ascii.ascii := Ascii.ascii_of_nat 39.
Definition double_quote : Ascii.ascii := Ascii.ascii_of_nat 34.

Definition hex_digit (n : N) : Ascii.ascii :=
  Ascii.ascii_of_N (if (n <? 10)%N then 48 + n else 87 + n)%N.

(** [str.isprintable] on these code points: the controls (0-31, 127-159),
    the no-break space (160) and the soft hyphen (173) are not. *)
Definition printable (a : Ascii.ascii) : bool :=
  let n := Ascii.N_of_ascii a in
  ((32 <=? n) && (n <? 127) || (161 <=? n) && negb (n =? 173))%N.

(** One character of [repr(s)], within the quote [quote]. *)
Definition escape_char (quote a : Ascii.ascii) : string :=
  let n := Ascii.N_of_ascii a in
  if Ascii.eqb a quote || Ascii.eqb a backslash then String backslash (String a "")
  else if (n =? 9)%N then String backslash "t"
  else if (n =? 10)%N then String backslash "n"
  else if (n =? 13)%N then String backslash "r"
  else if printable a then String a ""
  else String backslash
         (String (Ascii.ascii_of_nat 120) (String (hex_digit (n / 16)) (String (hex_digit (n mod 16)) ""))).

Fixpoint escape (quote : Ascii.ascii) (s : string) : string :=
  match s with
  | EmptyString => ""
  | String a s' => escape_char quote a +:+ escape quote s'
  end.

Fixpoint has_char (a : Ascii.ascii) (s : string) : bool :=
  match s with
  | EmptyString => false
  | String b s' => Ascii.eqb a b || has_char a s'
  end.

(** [repr(s)] of a [str]: between single quotes, or between double quotes
    when the text holds a single quote and no double quote. *)
Definition str_repr (s : string) : string :=
  let quote :=
    if has_char single_quote s && negb (has_char double_quote s)
    then double_quote else single_quote in
  String quote (escape quote s +:+ String quote "").

Fixpoint py_repr (v : json) : string :=
  match v with
  | JNull => "None"
  | JBool b => if b then "True" else "False"
  | JInt n => pretty n
  | JStr s => str_repr s
  | JList l =>
      "[" +:+
      (fix go (l : list json) : string :=
         match l with
         | [] => ""
         | [x] => py_repr x
         | x :: l' => py_repr x +:+ ", " +:+ go l'
         end) l +:+ "]"
  | JObj d =>
      "{" +:+
      (fix go (d : pydict) : string :=
         match d with
         | [] => ""
         | [(k, x)] => str_repr k +:+ ": " +:+ py_repr x
         | (k, x) :: d' => str_repr k +:+ ": " +:+ py_repr x +:+ ", " +:+ go d'
         end) d +:+ "}"
  end.

Definition py_str (v : json) : string :=
  match v with
  | JStr s => s
  | _ => py_repr v
  end.

(** ['literal' + v] *)
Definition str_add (s : string) (v : json) : exn + string :=
  match v with
  | JStr t => inr (s +:+ t)
  | _ => inl (Exn TypeError
                ("can only concatenate str (not " +:+ String double_quote (type_name v)
                 +:+ String double_quote ") to str"))
  end.

(** The attribute name that [hasattr] and [getattr] accept. *)
Definition attr_name (v : json) : exn + string :=
  match v with
  | JStr a => inr a
  | _ => inl (Exn TypeError
                ("attribute name must be string, not '" +:+ type_name v +:+ "'"))
  end.

(** [*v] in a call: the elements of a list, the characters of a string, the
    keys of a dict.  CPython puts the name of the callee in front of the
    text of the [TypeError]. *)
Definition star_args (v : json) : exn + list json :=
  match v with
  | JList l => inr l
  | JStr s => inr ((λ a, JStr (String a "")) <$> String.list_ascii_of_string s)
  | JObj d => inr ((λ kv, JStr kv.1) <$> d)
  | _ => inl (Exn TypeError
                ("argument after * must be an iterable, not " +:+ type_name v))
  end.

(** [try: m except Exception as e: h e].  An exception whose class does
    not derive from [Exception] is not caught. *)
Definition try_except {A} (m : M A) (h : exn → M A) : M A :=
  λ c,
    match m c with
    | (Raise e, c1, l1) =>
        if is_exception (exn_cls e)
        then match h e c1 with (r, c2, l2) => (r, c2, l1 ++ l2) end
        else (Raise e, c1, l1)
    | r => r
    end.

(** ** Client.register_controller (lines 106-194) *)

(** The response dict that every branch of [subscriber] builds; Python
    evaluates [message['clientId']] when it builds the dict, before it
    evaluates the ['data'] entry. *)
Definition peer_message (name : string) (message : json) (data : M pydict) : M pydict :=
  client_id <~ lift (subscript message "clientId") ;;
  d <~ data ;;
  ret [("name", JStr "peerController/message");
       ("controllerName", JStr name);
       ("clientId", client_id);
       ("data", JObj d)].

Definition error_data (data : json) (error : string) : M pydict :=
  id <~ lift (subscript data "id") ;;
  ret [("type", JStr "error"); ("id", id); ("stack", JNull);
       ("entityName", JStr "@error:default"); ("error", JStr error)].

(** Lines 111-113: the registration was refused. *)
Definition on_register_error (name : string) (id : Z) (message : json) : M () :=
  on_done id ;;;
  cs <~ get controllers ;;
  match cs !! name with
  | Some _ => modify (set_controllers (delete name cs))
  | None => raise (key_error name)
  end ;;;
  err <~ lift (subscript message "error") ;;
  text <~ lift (str_add "Register controller error: " err) ;;
  raise (Exn PyException text).

(** Lines 119-177: a peer asks for the signature of an action or calls
    it. *)
Definition on_peer_message (name : string) (controller : pyobject) (message : json) : M () :=
  data <~ lift (subscript message "data") ;;
  action <~ lift (subscript data "action") ;;
  a <~ lift (attr_name action) ;;
  (if negb (hasattr controller a) then
     requested <~ lift (subscript message "action") ;;
     let error := "Requested action " +:+ py_str requested +:+
                  " not available in " +:+ name in
     m <~ peer_message name message (error_data data error) ;;
     _message m true true ;;; ret ()
   else ret ()) ;;;
  kind <~ lift (subscript data "name") ;;
  (if py_eq kind (JStr "actionTypes") then
     action <~ lift (subscript data "action") ;;
     a <~ lift (attr_name action) ;;
     method <~ lift (getattr controller a) ;;
     args <~ lift (m_args method) ;;
     let parameters :=
       imap (λ i _, JObj [("type", JStr "any"); ("name", JStr ("#" +:+ pretty i))])
            args in
     m <~ peer_message name message
            (id <~ lift (subscript data "id") ;;
             ret [("type", JStr "actionTypes/result"); ("id", id);
                  ("parameters", JList parameters);
                  ("returnType", JObj [("type", JStr "any"); ("name", JStr "result")])]) ;;
     _message m true true ;;; ret ()
   else ret ()) ;;;
  kind <~ lift (subscript data "name") ;;
  if py_eq kind (JStr "action") then
    try_except
      (action <~ lift (subscript data "action") ;;
       a <~ lift (attr_name action) ;;
       method <~ lift (getattr controller a) ;;
       args <~ lift (subscript data "args") ;;
       args <~ lift (star_args args) ;;
       res <~ lift (m_call method args) ;;
       m <~ peer_message name message
              (id <~ lift (subscript data "id") ;;
               ret [("type", JStr "next/json"); ("id", id);
                    ("encoding", JObj [("name", JStr "r"); ("type", JStr "any")]);
                    ("next", res)]) ;;
       _message m true true ;;; ret ())
      (λ e,
         m <~ peer_message name message (error_data data (exn_str e)) ;;
         _message m true true ;;; ret ())
  else ret ().

(** [subscriber(message, done)], the closure of [register_controller] over
    [name] and [controller]; [done] is [on_done] over [id]. *)
Definition subscriber_body (name : string) (controller : pyobject) (id : Z)
    (message : json) : M () :=
  ty <~ lift (subscript message "type") ;;
  (if py_eq ty (JStr "error") then on_register_error name id message else ret ()) ;;;
  (* 'ack': pass *)
  if py_eq ty (JStr "peerController/message")
  then on_peer_message name controller message
  else ret ().

(** The handle that [register_controller] returns. *)
Record Controller : Type := mkController { controller_name : string }.

Definition register_controller (name : string) (controller : pyobject) : M Controller :=
  modify (λ c, set_controllers (<[name := controller]> (controllers c)) c) ;;;
  _subscribe [("name", JStr "peerController/register"); ("controllerName", JStr name)]
             name controller ;;;
  ret (mkController name).

(** ** Client._action (lines 196-219)

    [_action] runs up to the [await] of [_message]; [_action_resume] is the
    rest of the coroutine, run with the response that resolved the future. *)

Definition _action (controller action : string) (args : list json)
    (lock allow_in_shutdown : bool) : M json :=
  (if lock then await_connecting else ret ()) ;;;
  off <~ get offline ;;
  if off then ret JNull
  else
    stop <~ get stopping ;;
    if stop && negb allow_in_shutdown
    then raise (Exn PyException "In shutdown: actions disallowed")
    else if String.eqb controller "" then raise (Exn PyException "No controller given")
    else if String.eqb action "" then raise (Exn PyException "No action given")
    else
      _message [("name", JStr "action"); ("controller", JStr controller);
                ("action", JStr action); ("args", JList args); ("timeout", JInt 60)]
               lock false.

Definition _action_resume (res : json) : exn + json :=
  match subscript res "type" with
  | inl e => inl e
  | inr ty =>
      if py_eq ty (JStr "next/json") then
        match subscript res "next" with
        | inr v => inr v
        | inl _ => inr JNull
        end
      else if py_eq ty (JStr "error") then
        match subscript res "error" with
        | inl e => inl e
        | inr err => inl (Exn ApiError ("API Error: " +:+ py_str err))
        end
      else inl (Exn ApiError ("Invalid action type '" +:+ py_str ty +:+ "'. Not implemented"))
  end.

(** ** Client.handle_messages (lines 302-325)

    [handle_message] is the body of the loop for one decoded frame [res]. *)

(** ['id' in res] *)
Definition contains_id (res : json) : exn + bool :=
  match res with
  | JObj d => inr (match dict_get "id" d with Some _ => true | None => false end)
  | JList l => inr (existsb (py_eq (JStr "id")) l)
  | JStr s => inr (match String.index 0 "id" s with Some _ => true | None => false end)
  | _ => inl (Exn TypeError ("argument of type '" +:+ type_name res +:+ "' is not iterable"))
  end.

(** The key that [v in table] looks up in a table with integer keys:
    [True] and [False] hash and compare as 1 and 0, other hashable values
    match no key, lists and dicts cannot be hashed. *)
Definition int_key (v : json) : exn + option Z :=
  match v with
  | JInt n => inr (Some n)
  | JBool b => inr (Some (if b then 1 else 0))
  | JNull | JStr _ => inr None
  | JList _ | JObj _ => inl (Exn TypeError ("unhashable type: '" +:+ type_name v +:+ "'"))
  end.

(** Lines 317-319, for a key [i]: the pending call is resolved and
    removed. *)
Definition resolve (i : Z) (res : json) : M () :=
  cbs <~ get callbacks ;;
  match cbs !! i with
  | Some _ =>
      tell (LResolve i res) ;;;
      modify (λ c, set_callbacks (delete i (callbacks c)) c)
  | None => ret ()
  end.

Definition handle_message (res : json) : M () :=
  if truthy res then
    has_id <~ lift (contains_id res) ;;
    if has_id then
      id <~ lift (subscript res "id") ;;
      key <~ lift (int_key id) ;;
      subs <~ get subscriber ;;
      match key ≫= (subs !!.) with
      | Some h => subscriber_body (h_name h) (h_controller h) (h_id h) res
      | None => ret ()
      end ;;;
      id <~ lift (subscript res "id") ;;
      key <~ lift (int_key id) ;;
      match key with
      | Some i => resolve i res
      | None => ret ()
      end
    else ret ()
  else ret ().

(** The code after the loop (lines 321-325); it tells whether a [_connect]
    task was created. *)
Definition connection_lost (c : Client) : Client * bool :=
  if stopping c then (c, false)
  else (set_connected false (set_connecting None c), true).

(** ** Client.send_messages (lines 262-300)

    Where the coroutine is parked. *)

Inductive sender : Type :=
  | SNotSpawned
  | SStart                                     (* task created, not yet run *)
  | SAwaitSend (m : json) (rest : list json)   (* [await connection.send(json.dumps(m))]; [rest] of [q] to go *)
  | SAwaitPatch (send : gmap string json)      (* [await connection.send(...)] of the patch call *)
  | SAwaitSleep                                (* [await asyncio.sleep(0.2)] *)
  | SReturned
  | SRaised (e : exn).

(** What the pending [await connection.send] does when the turn starts. *)
Inductive send_outcome : Type :=
  | SendOk
  | SendRaise (e : exn).

Definition send_messages_interval_ms : Z := 200.

(** [queue.remove(m)]: drops the first element equal to [m]. *)
Fixpoint list_remove (m : json) (q : list json) : option (list json) :=
  match q with
  | [] => None
  | x :: q' => if py_eq x m then Some q' else (x ::.) <$> list_remove m q'
  end.

(** The call that carries a snapshot of the patches (lines 281-289).  The
    entries of the snapshot appear in the order of the map, not in the
    order of insertion; a JSON object does not depend on it. *)
Definition patch_call (send : gmap string json) : json :=
  JObj [("name", JStr "action"); ("controller", JStr "job");
        ("action", JStr "patchJob"); ("args", JList [JObj (map_to_list send)]);
        ("timeout", JInt 60)].

(** Lines 291-293, over the items of [send]; a failed [self.patches[i]]
    leaves the loop with the deletions made so far (the order of the items
    shows in that case only). *)
Fixpoint remove_sent (send : list (string * json)) (p : gmap string json)
    : option exn * gmap string json :=
  match send with
  | [] => (None, p)
  | (i, v) :: send' =>
      match p !! i with
      | None => (Some (key_error i), p)
      | Some w => remove_sent send' (if py_eq w v then delete i p else p)
      end
  end.

Definition connection_closed (c : Client) : bool :=
  match connection c with
  | Some closed => closed
  | None => true
  end.

(** After the [for] loop: line 273 onwards, up to the next [await]. *)
Definition after_drain (c : Client) : sender * Client * list label :=
  if (0 <? size (patches c))%nat
  then (SAwaitPatch (patches c), c, [])
  else (SAwaitSleep, c, [LSleep send_messages_interval_ms]).

(** The [for m in q] loop, up to the next [await]. *)
Definition drain (q : list json) (c : Client) : sender * Client * list label :=
  match q with
  | [] => after_drain c
  | m :: rest => (SAwaitSend m rest, c, [])
  end.

(** One turn of [send_messages]: from where it is parked to the next
    [await], [return] or [raise]. *)
Definition send_messages (o : send_outcome) (s : sender) (c : Client)
    : sender * Client * list label :=
  match s with
  | SNotSpawned | SReturned | SRaised _ => (s, c, [])
  | SStart | SAwaitSleep =>
      if connection_closed c then (SReturned, c, []) else drain (queue c) c
  | SAwaitSend m rest =>
      match o with
      | SendRaise e => (SRaised e, c, [])
      | SendOk =>
          match list_remove m (queue c) with
          | None => (SRaised (Exn ValueError "list.remove(x): x not in list"), c, [LSend m])
          | Some q' =>
              match drain rest (set_queue q' c) with
              | (s', c', l) => (s', c', LSend m :: l)
              end
          end
      end
  | SAwaitPatch send =>
      match o with
      | SendOk =>
          match remove_sent (map_to_list send) (patches c) with
          | (None, p') =>
              (SAwaitSleep, set_patches p' c,
               [LSend (patch_call send); LSleep send_messages_interval_ms])
          | (Some e, p') => (SRaised e, set_patches p' c, [LSend (patch_call send)])
          end
      | SendRaise e =>
          match exn_cls e with
          | ConnectionClosed | ApiError => (SReturned, c, [])
          | _ => (SRaised e, c, [])
          end
      end
  end.

(** ** Client.stop_and_sync (lines 67-104) and Client.shutdown (lines 59-65) *)

(** [sys.last_value] as [stop_and_sync] inspects it. *)
Inductive last_value : Type :=
  | NoLastValue
  | LastKeyboardInterrupt
  | LastOther.

Inductive syncer : Type :=
  | YNotStarted
  | YSleeping                 (* [await asyncio.sleep(0.15)] *)
  | YClosing                  (* [await self.connection.close()] *)
  | YDone
  | YRaised (e : exn).

Definition stop_and_sync_interval_ms : Z := 150.

(** Lines 68-99; the three [datetime.utcnow().isoformat()] are inputs. *)
Definition stop_and_sync_begin (now1 now2 now3 : string) (lv : last_value)
    (c : Client) : Client :=
  let c := set_stopping true c in
  let p := patches c in
  let p := <["status" := JInt 150]> p in
  let p := <["ended" := JStr now1]> p in
  let p := <["tasks.main.ended" := JStr now2]> p in
  let p := <["tasks.main.status" := JInt 500]> p in
  let p := <["tasks.main.instances.0.ended" := JStr now3]> p in
  let p := <["tasks.main.instances.0.status" := JInt 500]> p in
  let p :=
    match lv with
    | NoLastValue => p
    | LastKeyboardInterrupt =>
        <["tasks.main.instances.0.status" := JInt 550]>
          (<["tasks.main.status" := JInt 550]> (<["status" := JInt 200]> p))
    | LastOther =>
        <["tasks.main.instances.0.status" := JInt 650]>
          (<["tasks.main.status" := JInt 650]> (<["status" := JInt 300]> p))
    end in
  set_patches p c.

(** The [while] test of line 101 and what follows it, up to the next
    [await]. *)
Definition stop_and_sync_poll (c : Client) : syncer * list label :=
  if (0 <? size (patches c))%nat || (0 <? length (queue c))%nat
  then (YSleeping, [LSleep stop_and_sync_interval_ms])
  else
    match connection c with
    | Some _ => (YClosing, [LClose])
    | None => (YRaised (Exn AttributeError "'Client' object has no attribute 'connection'"), [])
    end.

(** Lines 63-65, once [promise.result()] has returned. *)
Definition shutdown_finish (c : Client) : (exn + ()) * Client :=
  match connection c with
  | None => (inl (Exn AttributeError "'Client' object has no attribute 'connection'"), c)
  | Some false => (inl (Exn PyException "Connection still active"), c)
  | Some true => (inr (), set_loop_running false c)
  end.

(** ** Client._connect (lines 358-423) and Client._connect_job (lines 327-356)

    Where the coroutine is parked.  In user mode the embedding follows
    [_connect] up to the [authenticate] call: the account configuration that
    the rest of the bootstrap reads ([deepkit.home]) is not part of the
    sources, and the host, port and scheme it yields only select the
    address that [websockets.connect] is given. *)

Inductive connector : Type :=
  | CIdle                                                 (* no [_connect] task *)
  | CScheduled                                            (* task created, not yet run *)
  | CAwaitConnect (job_mode : bool) (queue_copy : list json)  (* [await websockets.connect(...)] *)
  | CRetrySleep (queue_copy : list json)                  (* [await asyncio.sleep(1)] *)
  | CAwaitAuth (job_mode : bool) (id : Z) (queue_copy : list json)
  | CRaised (e : exn).

Definition token_set (c : Client) : bool :=
  match token c with
  | Some t => negb (String.eqb t "")
  | None => false
  end.

Definition opt_str (o : option string) : json :=
  match o with
  | Some s => JStr s
  | None => JNull
  end.

(** Lines 360-364 and 379: up to the [await] of [websockets.connect]. *)
Definition _connect (c : Client) : connector * Client * list label :=
  let queue_copy := queue c in
  let c := set_queue [] c in
  (CAwaitConnect (token_set c) queue_copy, c, [LConnect]).

(** [self.connecting.set_result(b)] *)
Definition set_result_connecting (b : bool) : M () :=
  f <~ get connecting ;;
  match f with
  | None => modify (set_connecting (Some b))
  | Some _ => raise (Exn InvalidStateError "invalid state")
  end.

(** The turn after [websockets.connect] has answered: [ok] tells whether a
    connection came back.  The second component tells whether the
    [handle_messages] and [send_messages] tasks were created. *)
Definition _connect_answer (ok job_mode : bool) (queue_copy : list json) (user_token : string)
    (c : Client) : connector * bool * Client * list label :=
  if job_mode then
    if ok then
      let c := set_connection (Some false) c in
      match _message [("name", JStr "authenticate");
                      ("token", JObj [("id", JStr "job"); ("token", opt_str (token c));
                                      ("job", opt_str (job_id c))])]
                     false false c with
      | (AwaitFuture id, c', l) => (CAwaitAuth true id queue_copy, true, c', l)
      | (_, c', l) => (CIdle, true, c', l)
      end
    else (CRetrySleep queue_copy, false, c, [LSleep 1000])
  else
    if ok then
      let c := set_connection (Some false) c in
      match _message [("name", JStr "authenticate");
                      ("token", JObj [("id", JStr "user"); ("token", JStr user_token)])]
                     false false c with
      | (AwaitFuture id, c', l) => (CAwaitAuth false id queue_copy, true, c', l)
      | (_, c', l) => (CIdle, true, c', l)
      end
    else
      match (modify (set_offline true) ;;; set_result_connecting false) c with
      | (Return _, c', l) => (CIdle, false, c', l)
      | (Raise e, c', l) => (CRaised e, false, c', l)
      | (_, c', l) => (CIdle, false, c', l)
      end.

(** Lines 332-334 and 423 after the retry sleep of [_connect_job]: a new
    [_connect] task is created and the queue is put back. *)
Definition _connect_retry (queue_copy : list json) (c : Client) : connector * Client :=
  (CScheduled, set_queue (queue_copy ++ queue c) c).

(** Lines 348-356 and 423, with the response [res] to [authenticate]. *)
Definition _connect_job_resume (res : json) (queue_copy : list json) : M () :=
  result <~ lift (subscript res "result") ;;
  match result with
  | JBool true =>
      set_result_connecting true ;;;
      modify (set_connected true) ;;;
      modify (λ c, set_connections (connections c + 1) c) ;;;
      modify (λ c, set_queue (queue_copy ++ queue c) c)
  | _ => raise (Exn PyException "Job token invalid")
  end.

(** ** The event loop

    The tasks of the loop, one of each kind: a task that the source
    replaces (a new connection creates new [handle_messages] and
    [send_messages] tasks) replaces the one tracked here. *)

Inductive receiver : Type :=
  | RNotSpawned
  | RRunning                  (* [await connection.recv()] *)
  | RParked                   (* a handler waits on [self.connecting] *)
  | RFinished
  | RCrashed (e : exn).

Record System : Type := mkSystem {
  client : Client;
  send_task : sender;
  recv_task : receiver;
  connect_task : connector;
  sync_task : syncer;
  shutdown_result : option (exn + ());   (* what [shutdown()] returned or raised *)
  futures : gmap Z json                  (* results given to the futures of [callbacks] *)
}.

(** [Client.__init__] and [Client.run]: the [connecting] future and the
    first [_connect] task are created. *)
Definition boot (tok jid : option string) : System :=
  {| client := init tok jid; send_task := SNotSpawned; recv_task := RNotSpawned;
     connect_task := CScheduled; sync_task := YNotStarted; shutdown_result := None;
     futures := ∅ |}.

Definition with_client (c : Client) (s : System) : System :=
  {| client := c; send_task := send_task s; recv_task := recv_task s;
     connect_task := connect_task s; sync_task := sync_task s;
     shutdown_result := shutdown_result s; futures := futures s |}.

Definition with_send_task (t : sender) (s : System) : System :=
  {| client := client s; send_task := t; recv_task := recv_task s;
     connect_task := connect_task s; sync_task := sync_task s;
     shutdown_result := shutdown_result s; futures := futures s |}.

Definition with_recv_task (t : receiver) (s : System) : System :=
  {| client := client s; send_task := send_task s; recv_task := t;
     connect_task := connect_task s; sync_task := sync_task s;
     shutdown_result := shutdown_result s; futures := futures s |}.

Definition with_connect_task (t : connector) (s : System) : System :=
  {| client := client s; send_task := send_task s; recv_task := recv_task s;
     connect_task := t; sync_task := sync_task s;
     shutdown_result := shutdown_result s; futures := futures s |}.

Definition with_sync_task (t : syncer) (s : System) : System :=
  {| client := client s; send_task := send_task s; recv_task := recv_task s;
     connect_task := connect_task s; sync_task := t;
     shutdown_result := shutdown_result s; futures := futures s |}.

Definition with_shutdown_result (r : option (exn + ())) (s : System) : System :=
  {| client := client s; send_task := send_task s; recv_task := recv_task s;
     connect_task := connect_task s; sync_task := sync_task s;
     shutdown_result := r; futures := futures s |}.

Definition with_futures (f : gmap Z json) (s : System) : System :=
  {| client := client s; send_task := send_task s; recv_task := recv_task s;
     connect_task := connect_task s; sync_task := sync_task s;
     shutdown_result := shutdown_result s; futures := f |}.

Definition record_results (l : list label) (f : gmap Z json) : gmap Z json :=
  foldl (λ f x, match x with LResolve i res => <[i := res]> f | _ => f end) f l.

(** What can happen next: a call from the application or from another part
    of the SDK, or the loop resuming one of its tasks. *)
Inductive event : Type :=
  | EPatch (path : string) (value : json)
  | EMessage (message : pydict) (lock no_response : bool)
  | ERegister (name : string) (controller : pyobject)
  | EAction (controller action : string) (args : list json) (lock allow_in_shutdown : bool)
  | ESend (o : send_outcome)            (* [send_messages] resumes *)
  | ERecv (res : json)                  (* [connection.recv()] returns a frame *)
  | ERecvClosed (ok : bool)             (* it raises ConnectionClosedOK / ConnectionClosedError *)
  | ETransportClosed                    (* [connection.closed] becomes true *)
  | EConnect                            (* the [_connect] task starts *)
  | EConnectDone (ok : bool) (user_token : string)   (* [websockets.connect] answers *)
  | EConnectResume                      (* the retry sleep is over, or [authenticate] was answered *)
  | EShutdown (now1 now2 now3 : string) (lv : last_value)
  | EPoll                               (* [stop_and_sync] wakes up *)
  | ECloseDone (closed : bool).         (* [connection.close()] returns *)

(** The receive loop leaves its [while]: lines 321-325. *)
Definition leave_receive_loop (c : Client) (s : System) : System :=
  match connection_lost c with
  | (c', true) => with_connect_task CScheduled (with_recv_task RFinished (with_client c' s))
  | (c', false) => with_recv_task RFinished (with_client c' s)
  end.

(** [Client.shutdown] up to [promise.result()]: it returns at once when the
    client is offline, and otherwise runs the first turn of
    [stop_and_sync]. *)
Definition shutdown (now1 now2 now3 : string) (lv : last_value) (s : System)
    : System * list label :=
  if offline (client s) then (with_shutdown_result (Some (inr ())) s, [])
  else
    match sync_task s with
    | YNotStarted =>
        let c := stop_and_sync_begin now1 now2 now3 lv (client s) in
        match stop_and_sync_poll c with
        | (YRaised e, l) =>
            (with_shutdown_result (Some (inl e))
               (with_sync_task (YRaised e) (with_client c s)), l)
        | (t, l) => (with_sync_task t (with_client c s), l)
        end
    | _ => (s, [])
    end.

(** [stop_and_sync] wakes from its sleep. *)
Definition stop_and_sync_wake (s : System) : System * list label :=
  match sync_task s with
  | YSleeping =>
      match stop_and_sync_poll (client s) with
      | (YRaised e, l) =>
          (with_shutdown_result (Some (inl e)) (with_sync_task (YRaised e) s), l)
      | (t, l) => (with_sync_task t s, l)
      end
  | _ => (s, [])
  end.

(** [connection.close()] returns and leaves [connection.closed] as
    [closed]; [stop_and_sync] is over and [shutdown] goes on. *)
Definition stop_and_sync_closed (closed : bool) (s : System) : System * list label :=
  match sync_task s with
  | YClosing =>
      match shutdown_finish (set_connection (Some closed) (client s)) with
      | (r, c) => (with_shutdown_result (Some r) (with_sync_task YDone (with_client c s)), [])
      end
  | _ => (s, [])
  end.

Definition step (e : event) (s : System) : System * list label :=
  match e with
  | EPatch path value => (with_client (patch path value (client s)) s, [])
  | EMessage message lock no_response =>
      match _message message lock no_response (client s) with
      | (_, c, l) => (with_client c s, l)
      end
  | ERegister name controller =>
      match register_controller name controller (client s) with
      | (_, c, l) => (with_client c s, l)
      end
  | EAction controller action args lock allow_in_shutdown =>
      match _action controller action args lock allow_in_shutdown (client s) with
      | (_, c, l) => (with_client c s, l)
      end
  | ESend o =>
      match send_messages o (send_task s) (client s) with
      | (t, c, l) => (with_send_task t (with_client c s), l)
      end
  | ERecv res =>
      match recv_task s with
      | RRunning =>
          match handle_message res (client s) with
          | (Return _, c, l) =>
              let s := with_futures (record_results l (futures s)) s in
              (if connection_closed c then leave_receive_loop c s else with_client c s, l)
          | (Raise e, c, l) =>
              (with_recv_task (RCrashed e)
                 (with_client c (with_futures (record_results l (futures s)) s)), l)
          | (_, c, l) =>
              (with_recv_task RParked
                 (with_client c (with_futures (record_results l (futures s)) s)), l)
          end
      | _ => (s, [])
      end
  | ERecvClosed ok =>
      match recv_task s with
      | RRunning =>
          if ok then (with_recv_task RFinished s, [])
          else (leave_receive_loop (client s) s, [])
      | _ => (s, [])
      end
  | ETransportClosed =>
      match connection (client s) with
      | Some _ => (with_client (set_connection (Some true) (client s)) s, [])
      | None => (s, [])
      end
  | EConnect =>
      match connect_task s with
      | CScheduled =>
          match _connect (client s) with
          | (t, c, l) => (with_connect_task t (with_client c s), l)
          end
      | _ => (s, [])
      end
  | EConnectDone ok user_token =>
      match connect_task s with
      | CAwaitConnect job_mode queue_copy =>
          match _connect_answer ok job_mode queue_copy user_token (client s) with
          | (t, true, c, l) =>
              (with_connect_task t
                 (with_recv_task RRunning (with_send_task SStart (with_client c s))), l)
          | (t, false, c, l) => (with_connect_task t (with_client c s), l)
          end
      | _ => (s, [])
      end
  | EConnectResume =>
      match connect_task s with
      | CRetrySleep queue_copy =>
          match _connect_retry queue_copy (client s) with
          | (t, c) => (with_connect_task t (with_client c s), [])
          end
      | CAwaitAuth true id queue_copy =>
          match futures s !! id with
          | Some res =>
              match _connect_job_resume res queue_copy (client s) with
              | (Raise e, c, l) => (with_connect_task (CRaised e) (with_client c s), l)
              | (_, c, l) => (with_connect_task CIdle (with_client c s), l)
              end
          | None => (s, [])
          end
      | _ => (s, [])
      end
  | EShutdown now1 now2 now3 lv => shutdown now1 now2 now3 lv s
  | EPoll => stop_and_sync_wake s
  | ECloseDone closed => stop_and_sync_closed closed s
  end.

Fixpoint run (es : list event) (s : System) : System * list label :=
  match es with
  | [] => (s, [])
  | e :: es' =>
      match step e s with
      | (s1, l1) =>
          match run es' s1 with
          | (s2, l2) => (s2, l1 ++ l2)
          end
      end
  end.

(** ** Client.job_action (lines 221-222)

    The coroutine that [job_action] hands to the loop: [_action] on the
    job controller with the default [lock] and [allow_in_shutdown]. *)

Definition job_action (action : string) (args : list json) : M json :=
  _action "job" action args true false.

(** ** is_in_directory (lines 18-19)

    [os.path.realpath] reads the file system (symbolic links, the working
    directory): it is a parameter.  [str.startswith] is the prefix test on
    strings. *)

Definition is_in_directory (realpath : string → string) (filepath directory : string)
    : bool :=
  String.prefix (realpath directory) (realpath filepath).

(** * Vocabulary of the properties *)

(** A coroutine respects a relation between the state before a turn, the
    labels of the turn and the state after it. *)
Definition respects (R : Client → list label → Client → Prop) {A} (m : M A) : Prop :=
  ∀ c, R c (labels (m c)) (after (m c)).

(** The identifiers assigned and the frames sent, in order. *)
Definition assigned (l : list label) : list Z :=
  omap (λ x, match x with LAssign i => Some i | _ => None end) l.

Definition sent (l : list label) : list json :=
  omap (λ x, match x with LSend m => Some m | _ => None end) l.

(** The ids of the pending calls that were resolved, in order. *)
Definition resolved (l : list label) : list Z :=
  omap (λ x, match x with LResolve i _ => Some i | _ => None end) l.

(** Labels of the transport: a frame sent, a connection opened or closed. *)
Definition network (x : label) : bool :=
  match x with
  | LSend _ | LConnect | LClose => true
  | _ => false
  end.

Definition is_close (x : label) : bool :=
  match x with
  | LClose => true
  | _ => false
  end.

(** The two correlation tables hold ids that the counter has passed, and
    no id is in both. *)
Definition tables_ok (c : Client) : Prop :=
  (∀ i, is_Some (callbacks c !! i) → i ≤ message_id c) ∧
  (∀ i, is_Some (subscriber c !! i) → i ≤ message_id c) ∧
  (∀ i, is_Some (callbacks c !! i) → subscriber c !! i = None).

(** The footprint of a turn of [_message], [_subscribe],
    [register_controller], [_action] and [handle_message]: the counter moves
    forward over exactly the ids that are assigned, the tables stay in
    order, the transport is not used, and the fields below are not
    written. *)
Record turn_ok (c : Client) (l : list label) (c' : Client) : Prop := TurnOk {
  turn_message_id : message_id c ≤ message_id c';
  turn_assigned : assigned l = seqZ (message_id c + 1) (message_id c' - message_id c);
  turn_tables : tables_ok c → tables_ok c';
  turn_offline : offline c' = offline c;
  turn_stopping : stopping c' = stopping c;
  turn_patches : patches c' = patches c;
  turn_connection : connection c' = connection c;
  turn_connecting : connecting c' = connecting c;
  turn_quiet : Forall (λ x, network x = false) l
}.

(** A step moves the counter only forward, assigns exactly the ids it
    moves over, and keeps the tables in order. *)
Definition counts (c : Client) (l : list label) (c' : Client) : Prop :=
  message_id c ≤ message_id c' ∧
  assigned l = seqZ (message_id c + 1) (message_id c' - message_id c) ∧
  (tables_ok c → tables_ok c').

(** What a step does to the pending calls when the tables are in order:
    no call is resolved twice; a call that is resolved was pending before
    the step or got its id during the step, and is no longer pending
    after it; a call that is pending after the step was pending before it
    or got its id during the step. *)
Definition pending_ok (c : Client) (l : list label) (c' : Client) : Prop :=
  tables_ok c →
  tables_ok c' ∧
  message_id c ≤ message_id c' ∧
  NoDup (resolved l) ∧
  (∀ i, i ∈ resolved l →
     (is_Some (callbacks c !! i) ∨ message_id c < i) ∧
     i ≤ message_id c' ∧ callbacks c' !! i = None) ∧
  (∀ j, is_Some (callbacks c' !! j) → is_Some (callbacks c !! j) ∨ message_id c < j).

(** The message is not the refusal of a registration, the one message on
    which the registry's handler disposes of its own subscription. *)
Definition is_error (d : pydict) : bool :=
  match dict_get "type" d with
  | Some ty => py_eq ty (JStr "error")
  | None => false
  end.

(** The inbound dispatch rule for a message [d] with identifier [i] in
    state [c].  A pending call: no subscription has the id, the call is
    resolved with the message and removed, and a later message with that id
    is discarded.  Else a subscription: the receive loop runs the handler
    and nothing else, and the subscription is still there afterwards
    unless the message is a refusal.  Else: nothing happens. *)
Definition dispatch_rule (c : Client) (d : pydict) (i : Z) : Prop :=
  match callbacks c !! i, subscriber c !! i with
  | Some _, sub =>
      sub = None ∧
      handle_message (JObj d) c =
        (Return (), set_callbacks (delete i (callbacks c)) c, [LResolve i (JObj d)]) ∧
      ∀ d', dict_get "id" d' = Some (JInt i) →
        handle_message (JObj d') (set_callbacks (delete i (callbacks c)) c) =
        (Return (), set_callbacks (delete i (callbacks c)) c, [])
  | None, Some h =>
      handle_message (JObj d) c =
        subscriber_body (h_name h) (h_controller h) (h_id h) (JObj d) c ∧
      (is_error d = false →
       subscriber (after (handle_message (JObj d) c)) !! i = Some h)
  | None, None => handle_message (JObj d) c = (Return (), c, [])
  end.

(** The events of one session: no new connection is established. *)
Definition same_session (e : event) : bool :=
  match e with
  | EConnectDone _ _ => false
  | _ => true
  end.

(** The state of the tasks once the first connection attempt has failed in
    user mode: the client is offline, the [connecting] future has its
    result, and no task is left that could send, receive or connect. *)
Definition offline_mode (s : System) : Prop :=
  offline (client s) = true ∧ is_Some (connecting (client s)) ∧
  send_task s = SNotSpawned ∧ recv_task s = RNotSpawned ∧
  connect_task s = CIdle ∧ sync_task s = YNotStarted.

(** ** Scenarios *)

(** A controller with one action, [stop]. *)
Definition demo_controller : pyobject :=
  PyObject "Trainer"
    (λ a, if String.eqb a "stop"
          then Some (PyMethod (inr ["self"]) (λ _, inr (JStr "stopped")))
          else None).

(** A client in job mode (scenario A of the specification). *)
Definition demo_boot : System := boot (Some "T") (Some "J1").

(** The handshake: the client connects, the dispatcher sends
    [authenticate] (id 1) and goes to sleep, the service answers [true]. *)
Definition demo_session : list event :=
  [EConnect; EConnectDone true ""; ESend SendOk; ESend SendOk;
   ERecv (JObj [("id", JInt 1); ("result", JBool true)]); EConnectResume].

Definition demo_ready : System := (run demo_session demo_boot).1.

(** After the handshake: a call (id 2), a registration (id 3) and a
    message without response (id 4). *)
Definition demo_calls : list event :=
  demo_session ++
  [EAction "job" "log" [JStr "x"] true false;
   ERegister "trainer" demo_controller;
   EMessage [("name", JStr "ping")] true true].

Definition demo_response : pydict := [("id", JInt 2); ("type", JStr "next/json")].

(** After the handshake, the controller is registered (id 2). *)
Definition demo_registered : System :=
  (step (ERegister "trainer" demo_controller) demo_ready).1.

(** The service refuses the registration. *)
Definition demo_refusal : pydict :=
  [("id", JInt 2); ("type", JStr "error"); ("error", JStr "name taken")].

(** A peer calls an action that the controller does not have, in the shape
    of inbound peer messages: id, type, clientId and data. *)
Definition demo_unknown_action : json :=
  JObj [("id", JInt 2); ("type", JStr "peerController/message"); ("clientId", JStr "c1");
        ("data", JObj [("name", JStr "action"); ("action", JStr "resume");
                       ("id", JInt 7); ("args", JList [])])].

(** The same with an ['action'] entry in the message itself; [kind] is
    ["action"] or ["actionTypes"]. *)
Definition demo_unknown_action_named (kind : string) : json :=
  JObj [("id", JInt 2); ("type", JStr "peerController/message"); ("clientId", JStr "c1");
        ("action", JStr "resume");
        ("data", JObj [("name", JStr kind); ("action", JStr "resume");
                       ("id", JInt 7); ("args", JList [])])].

(** The error texts of the peer responses in a queue. *)
Definition error_texts (q : list json) : list json :=
  omap (λ m, match subscript m "data" with
             | inr data =>
                 match subscript data "error" with
                 | inr e => Some e
                 | inl _ => None
                 end
             | inl _ => None
             end) q.

(** The message that [_action] queues for the job controller. *)
Definition action_call (action : string) (args : list json) (id : Z) : json :=
  JObj [("name", JStr "action"); ("controller", JStr "job"); ("action", JStr action);
        ("args", JList args); ("timeout", JInt 60); ("id", JInt id)].

(** After the handshake, the application logs a line and the dispatcher
    starts to send it. *)
Definition demo_sending : System :=
  (run [EAction "job" "log" [JStr "x"] true false; ESend SendOk] demo_ready).1.

(** While that send is pending, the application creates a channel and
    patches the job. *)
Definition demo_overtaken : System :=
  (run [EAction "job" "createChannel" [JStr "loss"] true false;
        EPatch "channels.loss" (JInt 1)] demo_sending).1.

(** After the handshake, the application patches the job and the
    dispatcher starts to send the patch call. *)
Definition demo_flushing : System :=
  (run [EPatch "status" (JInt 1); ESend SendOk] demo_ready).1.

(** The service answers the patch call with an error.  The call carried
    no id, so the answer has none to quote. *)
Definition demo_patch_error : json :=
  JObj [("type", JStr "error"); ("error", JStr "Access denied")].

(** After a failed send, the application logs a line and the loop gives
    the dispatcher three turns. *)
Definition demo_after_failure : list event :=
  [EAction "job" "log" [JStr "x"] true false; ESend SendOk; ESend SendOk; ESend SendOk].

(** The value is patched again while the patch call is being sent. *)
Definition demo_repatched : System :=
  (step (EPatch "status" (JInt 2)) demo_flushing).1.

(** After the handshake a call is queued, and the application shuts down. *)
Definition demo_stopping : System :=
  (run [EAction "job" "log" [JStr "x"] true false;
        EShutdown "2020-01-01T00:00:00" "2020-01-01T00:00:01" "2020-01-01T00:00:02"
                  NoLastValue]
       demo_ready).1.

(** A client in user mode whose first connection attempt is pending, and
    the same after the attempt has failed (scenario D). *)
Definition demo_connecting : System := (step EConnect (boot None None)).1.

Definition demo_offline : System := (step (EConnectDone false "secret") demo_connecting).1.

Definition demo_offline_calls : list event :=
  [EPatch "status" (JInt 1); EAction "job" "log" [] true false; ESend SendOk; EConnect;
   ERegister "trainer" demo_controller; EConnectResume].

(** ** Vocabulary of the properties of single functions *)

(** The dispatcher task is over: [send_messages] has returned or raised. *)
Definition dead (t : sender) : bool :=
  match t with
  | SReturned | SRaised _ => true
  | _ => false
  end.

(** The dispatcher is at the head of its [while] loop. *)
Definition at_loop_head (t : sender) : bool :=
  match t with
  | SStart | SAwaitSleep => true
  | _ => false
  end.

(** The call may pass the gate: it does not wait for [self.connecting], or
    the future has its result. *)
Definition gate_open (lock : bool) (c : Client) : Prop :=
  lock = true → is_Some (connecting c).

(** One failed connection attempt in job mode: [_connect] starts,
    [websockets.connect] raises, the retry sleep ends. *)
Definition failed_attempt : list event :=
  [EConnect; EConnectDone false ""; EConnectResume].

Fixpoint failed_attempts (n : nat) : list event :=
  match n with
  | O => []
  | S n' => failed_attempt ++ failed_attempts n'
  end.

(** The terminal status codes that [stop_and_sync] writes: the job status
    and the status of the task and of its instance. *)
Definition job_status (lv : last_value) : Z :=
  match lv with
  | NoLastValue => 150
  | LastKeyboardInterrupt => 200
  | LastOther => 300
  end.

Definition task_status (lv : last_value) : Z :=
  match lv with
  | NoLastValue => 500
  | LastKeyboardInterrupt => 550
  | LastOther => 650
  end.

(** The request of a peer, in the shape of inbound peer messages. *)
Definition peer_request (i : Z) (client_id : json) (kind action : string)
    (request_id : json) (args : list json) : pydict :=
  [("id", JInt i); ("type", JStr "peerController/message"); ("clientId", client_id);
   ("data", JObj [("name", JStr kind); ("action", JStr action);
                  ("id", request_id); ("args", JList args)])].

(** The response that the registry queues for a peer. *)
Definition peer_response (name : string) (client_id : json) (data : pydict) (id : Z)
    : json :=
  JObj [("name", JStr "peerController/message"); ("controllerName", JStr name);
        ("clientId", client_id); ("data", JObj data); ("id", JInt id)].

(** What ends the dispatcher without a frame being sent: the pending send
    raises, or the loop head finds the connection closed. *)
Definition ends_dispatcher (o : send_outcome) (s : System) : bool :=
  match send_task s, o with
  | SAwaitSend _ _, SendRaise _ => true
  | SAwaitPatch _, SendRaise _ => true
  | SStart, _ | SAwaitSleep, _ => connection_closed (client s)
  | _, _ => false
  end.

(** The events that do not start [_connect]. *)
Definition no_connect (e : event) : bool :=
  match e with
  | EConnect => false
  | _ => true
  end.

(** The calls of the application that wait for [self.connecting]. *)
Definition locked_call (e : event) : bool :=
  match e with
  | EMessage _ lock _ => lock
  | EAction _ _ _ lock _ => lock
  | _ => false
  end.

(** Where the dispatcher is once the [for] loop is over. *)
Definition drained (c : Client) : sender :=
  if (0 <? size (patches c))%nat then SAwaitPatch (patches c) else SAwaitSleep.

(** A turn takes nothing out of the queue. *)
Definition queue_grows (c : Client) (l : list label) (c' : Client) : Prop :=
  queue c ⊆ queue c'.

(** The message that [_connect_job] queues, with the id it gets. *)
Definition authenticate_job (c : Client) (id : Z) : json :=
  JObj [("name", JStr "authenticate");
        ("token", JObj [("id", JStr "job"); ("token", opt_str (token c));
                        ("job", opt_str (job_id c))]);
        ("id", JInt id)].

(** A connection in job mode without interference: [_connect] runs, the
    connection opens, the dispatcher starts and sends what is queued, the
    service answers [authenticate] with [d], [_connect_job] goes on. *)
Definition handshake (d : pydict) : list event :=
  [EConnect; EConnectDone true ""; ESend SendOk; ESend SendOk; ERecv (JObj d); EConnectResume].

(** A turn changes neither the token nor the offline flag. *)
Definition same_mode (c : Client) (l : list label) (c' : Client) : Prop :=
  token c' = token c ∧ offline c' = offline c.

(** The [_connect] task, where it waits, is in job mode. *)
Definition job_mode_task (t : connector) : bool :=
  match t with
  | CAwaitConnect job_mode _ => job_mode
  | CAwaitAuth job_mode _ _ => job_mode
  | _ => true
  end.


(** A controller with an action that exits the interpreter and a data
    attribute, registered after the handshake (id 2). *)
Definition demo_quitter : pyobject :=
  PyObject "Quitter"
    (λ a, if String.eqb a "quit"
          then Some (PyMethod (inr ["self"]) (λ _, inl (Exn SystemExit "0")))
          else if String.eqb a "epoch"
          then Some (PyMethod (inl (Exn TypeError "unsupported callable"))
                              (λ _, inl (Exn TypeError "'int' object is not callable")))
          else None).

Definition demo_quitting : System :=
  (step (ERegister "quitter" demo_quitter) demo_ready).1.



(** The ['id'] entry of each message of a list. *)
Definition message_ids (q : list json) : list (option json) :=
  (λ m, match m with JObj d => dict_get "id" d | _ => None end) <$> q.

(** The events in which the client may queue a message. *)
Definition appends (e : event) : bool :=
  match e with
  | EMessage _ _ _ | ERegister _ _ | EAction _ _ _ _ _ | ERecv _ | EConnectDone _ _ => true
  | _ => false
  end.

(** The messages that a step queues: those behind what the queue held;
    and the messages queued along a schedule, in the order of queueing. *)
Definition queued_by (e : event) (s : System) : list json :=
  if appends e then drop (length (queue (client s))) (queue (client (step e s).1)) else [].

Fixpoint queued_along (es : list event) (s : System) : list json :=
  match es with
  | [] => []
  | e :: es' => queued_by e s ++ queued_along es' (step e s).1
  end.

(** The messages that the client holds: those that [_connect] has set
    aside, and the queue. *)
Definition set_aside (t : connector) : list json :=
  match t with
  | CAwaitConnect _ queue_copy | CRetrySleep queue_copy | CAwaitAuth _ _ queue_copy =>
      queue_copy
  | _ => []
  end.

Definition held (s : System) : list json := set_aside (connect_task s) ++ queue (client s).

(** What a turn queues carries the ids that the turn assigns, one each
    and in order, and a key that a table has after the turn was there
    before or is one of these ids. *)
Definition pinned (c : Client) (l : list label) (c' : Client) : Prop :=
  (∃ new, queue c' = queue c ++ new ∧
          message_ids new = (λ i, Some (JInt i)) <$> assigned l) ∧
  (∀ i, is_Some (callbacks c' !! i) → is_Some (callbacks c !! i) ∨ i ∈ assigned l) ∧
  (∀ i, is_Some (subscriber c' !! i) → is_Some (subscriber c !! i) ∨ i ∈ assigned l).

(** A new client in job mode on which a patch is recorded before the
    first connection is up. *)
Definition demo_patched_boot : System := (step (EPatch "title" (JStr "run 1")) demo_boot).1.

(** After the handshake, two calls are queued (ids 2 and 3). *)
Definition demo_two_queued : System :=
  (run [EAction "job" "log" [JStr "x"] true false;
        EAction "job" "createChannel" [JStr "loss"] true false] demo_ready).1.

(** The turn of a handler that queues one response to a peer, with the
    next id, and returns. *)
Definition respond (name : string) (client_id : json) (data : pydict) (c : Client)
    : completion () * Client * list label :=
  (Return (),
   set_queue (queue c ++ [peer_response name client_id data (message_id c + 1)])
     (set_message_id (message_id c + 1) c),
   [LAssign (message_id c + 1)]).

(** * Properties *)

(** ** What a turn leaves alone

    A relation between the state before a turn, its labels and the state
    after it is *stable* when it holds of the empty turn and composes.  A
    coroutine respects a stable relation as soon as the primitives it is
    made of do. *)

Section Respects.
Variable R : Client → list label → Client → Prop.
Hypothesis R_refl : ∀ c, R c [] c.
Hypothesis R_trans :
  ∀ c1 l1 c2 l2 c3, R c1 l1 c2 → R c2 l2 c3 → R c1 (l1 ++ l2) c3.

Lemma respects_ret {A} (a : A) : respects R (ret a).
Proof. intros c. apply R_refl. Qed.

Lemma respects_raise {A} (e : exn) : respects R (@raise A e).
Proof. intros c. apply R_refl. Qed.

Lemma respects_lift {A} (r : exn + A) : respects R (lift r).
Proof. destruct r; [apply respects_raise | apply respects_ret]. Qed.

Lemma respects_get {A} (f : Client → A) : respects R (get f).
Proof. intros c. apply R_refl. Qed.

Lemma respects_await_connecting : respects R await_connecting.
Proof.
  intros c. unfold await_connecting, labels, after.
  destruct (connecting c); apply R_refl.
Qed.

Lemma respects_bind {A B} (m : M A) (f : A → M B) :
  respects R m → (∀ a, respects R (f a)) → respects R (bind m f).
Proof.
  intros Hm Hf c. specialize (Hm c).
  unfold bind, labels, after in *.
  destruct (m c) as [[r c1] l1]. simpl in Hm.
  destruct r as [a | e | | i]; simpl; try exact Hm.
  specialize (Hf a c1). destruct (f a c1) as [[r2 c2] l2]. simpl in *.
  eapply R_trans; eassumption.
Qed.

Lemma respects_try_except {A} (m : M A) (h : exn → M A) :
  respects R m → (∀ e, respects R (h e)) → respects R (try_except m h).
Proof.
  intros Hm Hh c. specialize (Hm c).
  unfold try_except, labels, after in *.
  destruct (m c) as [[r c1] l1]. simpl in Hm.
  destruct r as [a | e | | i]; simpl; try exact Hm.
  destruct (is_exception (exn_cls e)); [| exact Hm].
  specialize (Hh e c1). destruct (h e c1) as [[r2 c2] l2]. simpl in *.
  eapply R_trans; eassumption.
Qed.

Lemma respects_if {A} (b : bool) (m1 m2 : M A) :
  respects R m1 → respects R m2 → respects R (if b then m1 else m2).
Proof. destruct b; auto. Qed.

(** The coroutines of the registry are made of [_message] without a
    response, [on_done] and the removal of a controller. *)
Hypothesis R_message : ∀ m, respects R (_message m true true).
Hypothesis R_on_done : ∀ id, respects R (on_done id).
Hypothesis R_controllers : ∀ cs, respects R (modify (set_controllers cs)).

Lemma respects_peer_message name message (data : M pydict) :
  respects R data → respects R (peer_message name message data).
Proof.
  intros Hd. unfold peer_message.
  apply respects_bind; [apply respects_lift | intros ?].
  apply respects_bind; [exact Hd | intros ?]. apply respects_ret.
Qed.

Lemma respects_error_data data error : respects R (error_data data error).
Proof.
  unfold error_data.
  apply respects_bind; [apply respects_lift | intros ?]. apply respects_ret.
Qed.

Ltac respects_step :=
  first
    [ apply respects_ret | apply respects_raise | apply respects_lift
    | apply respects_get | apply R_message | apply R_on_done
    | apply R_controllers | apply respects_error_data
    | apply respects_peer_message
    | apply respects_try_except; [| intros ?]
    | apply respects_if
    | apply respects_bind; [| intros ?] ].

Lemma respects_on_register_error name id message :
  respects R (on_register_error name id message).
Proof.
  unfold on_register_error. repeat respects_step.
  destruct (_ !! _); repeat respects_step.
Qed.

Lemma respects_on_peer_message name controller message :
  respects R (on_peer_message name controller message).
Proof. unfold on_peer_message. repeat respects_step. Qed.

Lemma respects_subscriber_body name controller id message :
  respects R (subscriber_body name controller id message).
Proof.
  unfold subscriber_body.
  apply respects_bind; [apply respects_lift | intros ty].
  apply respects_bind; [| intros _].
  - apply respects_if; [apply respects_on_register_error | apply respects_ret].
  - apply respects_if; [apply respects_on_peer_message | apply respects_ret].
Qed.

(** The receive loop adds the resolution of a pending call. *)
Hypothesis R_resolve : ∀ i res, respects R (resolve i res).

Lemma respects_handle_message res : respects R (handle_message res).
Proof.
  unfold handle_message.
  apply respects_if; [| apply respects_ret].
  apply respects_bind; [apply respects_lift | intros has_id].
  apply respects_if; [| apply respects_ret].
  apply respects_bind; [apply respects_lift | intros id].
  apply respects_bind; [apply respects_lift | intros key].
  apply respects_bind; [apply respects_get | intros subs].
  apply respects_bind; [| intros _].
  { destruct (_ ≫= _); [apply respects_subscriber_body | apply respects_ret]. }
  apply respects_bind; [apply respects_lift | intros id'].
  apply respects_bind; [apply respects_lift | intros key'].
  destruct key' as [i|]; [apply R_resolve | apply respects_ret].
Qed.
End Respects.

(** ** The footprint of a turn of the client *)

(** Unfolds the monad of turns. *)
Ltac run_turn :=
  cbv [bind try_except lift modify set_result_connecting get raise ret tell
       await_connecting next_id labels after outcome];
  simpl.

Lemma seqZ_nil_diag (m n : Z) : seqZ m (n - n) = [].
Proof. by rewrite Z.sub_diag. Qed.

Lemma seqZ_one_succ (n : Z) : seqZ (n + 1) (n + 1 - n) = [n + 1].
Proof. replace (n + 1 - n) with 1 by lia. cbn. f_equal. Qed.

Lemma turn_ok_refl c : turn_ok c [] c.
Proof. split; auto using seqZ_nil_diag; reflexivity || by rewrite seqZ_nil_diag. Qed.

Lemma turn_ok_trans c1 l1 c2 l2 c3 :
  turn_ok c1 l1 c2 → turn_ok c2 l2 c3 → turn_ok c1 (l1 ++ l2) c3.
Proof.
  intros [] []. split; try congruence; try lia; auto.
  - unfold assigned in *. rewrite omap_app.
    replace (message_id c3 - message_id c1)
      with ((message_id c2 - message_id c1) + (message_id c3 - message_id c2)) by lia.
    rewrite seqZ_app by lia.
    f_equal; [done |].
    replace (message_id c1 + 1 + (message_id c2 - message_id c1))
      with (message_id c2 + 1) by lia.
    done.
  - by apply Forall_app.
Qed.

Lemma tables_ok_fresh_callback c :
  tables_ok c →
  tables_ok (set_callbacks (<[message_id c + 1 := ()]> (callbacks c))
               (set_message_id (message_id c + 1) c)).
Proof.
  intros (Hc & Hs & Hd). repeat split; simpl.
  - intros i [[] Hi]. destruct (decide (i = message_id c + 1)) as [-> | Hne]; [lia |].
    rewrite lookup_insert_ne in Hi by done. specialize (Hc i (mk_is_Some _ _ Hi)). lia.
  - intros i Hi. specialize (Hs i Hi). lia.
  - intros i [[] Hi]. destruct (decide (i = message_id c + 1)) as [-> | Hne].
    + destruct (subscriber c !! (message_id c + 1)) eqn:E; [| done].
      specialize (Hs _ (mk_is_Some _ _ E)). lia.
    + rewrite lookup_insert_ne in Hi by done. eauto.
Qed.

Lemma tables_ok_fresh_subscriber c h :
  tables_ok c →
  tables_ok (set_subscriber (<[message_id c + 1 := h]> (subscriber c))
               (set_message_id (message_id c + 1) c)).
Proof.
  intros (Hc & Hs & Hd). repeat split; simpl.
  - intros i Hi. specialize (Hc i Hi). lia.
  - intros i [h' Hi]. destruct (decide (i = message_id c + 1)) as [-> | Hne]; [lia |].
    rewrite lookup_insert_ne in Hi by done. specialize (Hs i (mk_is_Some _ _ Hi)). lia.
  - intros i Hi. destruct (decide (i = message_id c + 1)) as [-> | Hne].
    + specialize (Hc _ Hi). lia.
    + rewrite lookup_insert_ne by done. eauto.
Qed.

Lemma tables_ok_next_id c : tables_ok c → tables_ok (set_message_id (message_id c + 1) c).
Proof.
  intros (Hc & Hs & Hd). repeat split; simpl; auto.
  - intros i Hi. specialize (Hc i Hi). lia.
  - intros i Hi. specialize (Hs i Hi). lia.
Qed.

Lemma tables_ok_delete_callback c i :
  tables_ok c → tables_ok (set_callbacks (delete i (callbacks c)) c).
Proof.
  intros (Hc & Hs & Hd). repeat split; simpl; auto.
  - intros j [x Hj]. apply lookup_delete_Some in Hj as [_ Hj]. eauto.
  - intros j [x Hj]. apply lookup_delete_Some in Hj as [_ Hj]. eauto.
Qed.

Lemma tables_ok_delete_subscriber c i :
  tables_ok c → tables_ok (set_subscriber (delete i (subscriber c)) c).
Proof.
  intros (Hc & Hs & Hd). repeat split; simpl; auto.
  - intros j [x Hj]. apply lookup_delete_Some in Hj as [_ Hj]. eauto.
  - intros j Hj. destruct (decide (i = j)) as [-> | Hne].
    + apply lookup_delete_eq.
    + rewrite lookup_delete_ne by done. eauto.
Qed.

Ltac turn_frame :=
  split; simpl; auto using seqZ_nil_diag, seqZ_one_succ;
  try lia; try done; try (intros H; exact H); try (repeat constructor; done).

Lemma turn_ok_message m lock no_response :
  respects turn_ok (_message m lock no_response).
Proof.
  intros c. unfold _message, bind, await_connecting, next_id, modify, ret, labels, after.
  destruct lock, (connecting c), no_response; simpl;
    (split; simpl; auto using seqZ_nil_diag, seqZ_one_succ;
     try lia; try (repeat constructor; done)).
  all: intros H;
    first [exact (tables_ok_next_id c H) | exact (tables_ok_fresh_callback c H)].
Qed.

Lemma turn_ok_subscribe m name controller :
  respects turn_ok (_subscribe m name controller).
Proof.
  intros c. unfold _subscribe, bind, await_connecting, next_id, modify, ret, labels, after.
  destruct (connecting c); simpl;
    (split; simpl; auto using seqZ_nil_diag, seqZ_one_succ;
     try lia; try (repeat constructor; done)).
  intros H. exact (tables_ok_fresh_subscriber c _ H).
Qed.

Lemma turn_ok_on_done id : respects turn_ok (on_done id).
Proof.
  intros c. unfold on_done, bind, get, modify, raise, labels, after. simpl.
  destruct (subscriber c !! id); simpl;
    (split; simpl; auto using seqZ_nil_diag; try lia).
  apply tables_ok_delete_subscriber.
Qed.

Lemma turn_ok_controllers cs : respects turn_ok (modify (set_controllers cs)).
Proof.
  intros c. unfold modify, labels, after. simpl. turn_frame.
Qed.

Lemma turn_ok_resolve i res : respects turn_ok (resolve i res).
Proof.
  intros c. unfold resolve. run_turn.
  destruct (callbacks c !! i); simpl; [| apply turn_ok_refl].
  split; simpl; auto using seqZ_nil_diag; try lia; try (repeat constructor; done).
  apply tables_ok_delete_callback.
Qed.

Lemma turn_ok_handle_message res : respects turn_ok (handle_message res).
Proof.
  apply respects_handle_message.
  - apply turn_ok_refl.
  - apply turn_ok_trans.
  - intros m. apply turn_ok_message.
  - apply turn_ok_on_done.
  - apply turn_ok_controllers.
  - apply turn_ok_resolve.
Qed.

Lemma turn_ok_bind {A B} (m : M A) (f : A → M B) :
  respects turn_ok m → (∀ a, respects turn_ok (f a)) → respects turn_ok (bind m f).
Proof. apply respects_bind, turn_ok_trans. Qed.

Lemma turn_ok_ret {A} (a : A) : respects turn_ok (ret a).
Proof. apply respects_ret, turn_ok_refl. Qed.

Lemma turn_ok_raise {A} (e : exn) : respects turn_ok (@raise A e).
Proof. apply respects_raise, turn_ok_refl. Qed.

Lemma turn_ok_get {A} (f : Client → A) : respects turn_ok (get f).
Proof. apply respects_get, turn_ok_refl. Qed.

Lemma turn_ok_await_connecting : respects turn_ok await_connecting.
Proof. apply respects_await_connecting, turn_ok_refl. Qed.

Lemma turn_ok_register_controller name controller :
  respects turn_ok (register_controller name controller).
Proof.
  unfold register_controller.
  apply turn_ok_bind.
  - intros c. unfold modify, labels, after. simpl. turn_frame.
  - intros _. apply turn_ok_bind; [apply turn_ok_subscribe |].
    intros _. apply turn_ok_ret.
Qed.

Lemma turn_ok_action controller action args lock allow_in_shutdown :
  respects turn_ok (_action controller action args lock allow_in_shutdown).
Proof.
  unfold _action.
  apply turn_ok_bind.
  { apply respects_if; [apply turn_ok_await_connecting | apply turn_ok_ret]. }
  intros _. apply turn_ok_bind; [apply turn_ok_get |].
  intros off. apply respects_if; [apply turn_ok_ret |].
  apply turn_ok_bind; [apply turn_ok_get |].
  intros stop.
  repeat (apply respects_if; [apply turn_ok_raise |]).
  apply turn_ok_message.
Qed.

(** ** Identifiers and tables along a schedule *)

Lemma counts_turn c l c' : turn_ok c l c' → counts c l c'.
Proof. intros []. split; [| split]; assumption. Qed.

Lemma counts_same c l c' :
  message_id c' = message_id c → callbacks c' = callbacks c →
  subscriber c' = subscriber c → assigned l = [] → counts c l c'.
Proof.
  intros Hm Hc Hs Hl. unfold counts, tables_ok.
  rewrite Hm, Hc, Hs, Hl, Z.sub_diag. repeat split; try lia; tauto.
Qed.

Lemma counts_trans c1 l1 c2 l2 c3 :
  counts c1 l1 c2 → counts c2 l2 c3 → counts c1 (l1 ++ l2) c3.
Proof.
  intros (H1 & H2 & H3) (H4 & H5 & H6). split; [lia | split; [| auto]].
  unfold assigned in *. rewrite omap_app, H2, H5.
  replace (message_id c3 - message_id c1)
    with ((message_id c2 - message_id c1) + (message_id c3 - message_id c2)) by lia.
  rewrite seqZ_app by lia. f_equal. f_equal. lia.
Qed.

Lemma patch_same path value c :
  message_id (patch path value c) = message_id c ∧
  callbacks (patch path value c) = callbacks c ∧
  subscriber (patch path value c) = subscriber c.
Proof. unfold patch. by destruct (offline c), (stopping c). Qed.

Lemma send_messages_counts o t c :
  counts c (send_messages o t c).2 (send_messages o t c).1.2.
Proof.
  unfold send_messages, drain, after_drain.
  repeat case_match; simplify_eq; simpl; by apply counts_same.
Qed.

Lemma connect_answer_counts ok job_mode queue_copy user_token c :
  counts c (_connect_answer ok job_mode queue_copy user_token c).2
           (_connect_answer ok job_mode queue_copy user_token c).1.2.
Proof.
  unfold _connect_answer.
  destruct job_mode, ok; simpl; try by apply counts_same.
  - exact (counts_turn _ _ _
             (turn_ok_message
                [("name", JStr "authenticate");
                 ("token", JObj [("id", JStr "job"); ("token", opt_str (token c));
                                 ("job", opt_str (job_id c))])]
                false false (set_connection (Some false) c))).
  - exact (counts_turn _ _ _
             (turn_ok_message
                [("name", JStr "authenticate");
                 ("token", JObj [("id", JStr "user"); ("token", JStr user_token)])]
                false false (set_connection (Some false) c))).
  - run_turn. destruct (connecting c); simpl; by apply counts_same.
Qed.

Lemma connect_job_resume_counts res queue_copy c :
  counts c (labels (_connect_job_resume res queue_copy c))
           (after (_connect_job_resume res queue_copy c)).
Proof.
  unfold _connect_job_resume.
  destruct (subscript res "result") as [e | [| [] | | | |]]; run_turn;
    try by apply counts_same.
  destruct (connecting c); simpl; by apply counts_same.
Qed.

Lemma stop_and_sync_poll_assigned c : assigned (stop_and_sync_poll c).2 = [].
Proof. unfold stop_and_sync_poll. by repeat case_match. Qed.

Lemma step_counts e s : counts (client s) (step e s).2 (client (step e s).1).
Proof.
  destruct e; simpl.
  - apply counts_same; try done; apply patch_same.
  - pose proof (turn_ok_message message lock no_response (client s)) as H.
    apply counts_turn in H. unfold labels, after in H.
    by destruct (_message _ _ _ _) as [[r c'] l].
  - pose proof (turn_ok_register_controller name controller (client s)) as H.
    apply counts_turn in H. unfold labels, after in H.
    by destruct (register_controller _ _ _) as [[r c'] l].
  - pose proof (turn_ok_action controller action args lock allow_in_shutdown (client s)) as H.
    apply counts_turn in H. unfold labels, after in H.
    by destruct (_action _ _ _ _ _ _) as [[r c'] l].
  - pose proof (send_messages_counts o (send_task s) (client s)) as H.
    by destruct (send_messages _ _ _) as [[t c'] l].
  - destruct (recv_task s); try by apply counts_same.
    pose proof (turn_ok_handle_message res (client s)) as H.
    apply counts_turn in H. unfold labels, after in H.
    destruct (handle_message _ _) as [[r c'] l]. simpl in H.
    destruct r; simpl; try exact H.
    unfold leave_receive_loop, connection_lost.
    destruct (connection_closed c'), (stopping c'); simpl; exact H.
  - unfold leave_receive_loop, connection_lost.
    destruct (recv_task s), ok, (stopping (client s)); simpl; by apply counts_same.
  - destruct (connection (client s)); simpl; by apply counts_same.
  - destruct (connect_task s); simpl; by apply counts_same.
  - destruct (connect_task s); simpl; try by apply counts_same.
    pose proof (connect_answer_counts ok job_mode queue_copy user_token (client s)) as H.
    destruct (_connect_answer _ _ _ _ _) as [[[t []] c'] l]; exact H.
  - destruct (connect_task s) as [| | | | [] | ]; simpl; try by apply counts_same.
    destruct (futures s !! id); simpl; [| by apply counts_same].
    pose proof (connect_job_resume_counts j queue_copy (client s)) as H.
    unfold labels, after in H.
    destruct (_connect_job_resume _ _ _) as [[r c'] l]. simpl in H.
    destruct r; exact H.
  - unfold shutdown. destruct (offline (client s)); simpl; [by apply counts_same |].
    destruct (sync_task s); simpl; try by apply counts_same.
    pose proof (stop_and_sync_poll_assigned
                  (stop_and_sync_begin now1 now2 now3 lv (client s))) as H.
    destruct (stop_and_sync_poll _) as [[] l]; simpl in *; by apply counts_same.
  - unfold stop_and_sync_wake. destruct (sync_task s); simpl; try by apply counts_same.
    pose proof (stop_and_sync_poll_assigned (client s)) as H.
    destruct (stop_and_sync_poll _) as [[] l]; simpl in *; by apply counts_same.
  - unfold stop_and_sync_closed, shutdown_finish.
    destruct (sync_task s), closed; simpl; by apply counts_same.
Qed.

Lemma run_counts es s : counts (client s) (run es s).2 (client (run es s).1).
Proof.
  revert s. induction es as [| e es IH]; intros s; simpl.
  - by apply counts_same.
  - pose proof (step_counts e s) as H1.
    destruct (step e s) as [s1 l1]. pose proof (IH s1) as H2.
    destruct (run es s1) as [s2 l2]. simpl in *.
    eapply counts_trans; eassumption.
Qed.

Lemma seqZ_sorted (m n : Z) : StronglySorted Z.lt (seqZ m n).
Proof.
  destruct (decide (n ≤ 0)) as [Hn | Hn]; [rewrite seqZ_nil by lia; constructor |].
  rewrite <- (Z2Nat.id n) by lia.
  induction (Z.to_nat n) as [| k IH]; [constructor |].
  rewrite seqZ_S. apply StronglySorted_app. split; [| split; [exact IH |]].
  - intros x1 x2 H1 H2. apply elem_of_seqZ in H1. apply list_elem_of_singleton in H2. lia.
  - repeat constructor.
Qed.

Example demo_calls_ids : assigned (run demo_calls demo_boot).2 = [1; 2; 3; 4].
Proof. vm_compute. reflexivity. Qed.

(** ** The inbound dispatch rule *)

Lemma bind_ret {A B} (a : A) (f : A → M B) c : bind (ret a) f c = f a c.
Proof. unfold bind, ret. by destruct (f a c) as [[r c2] l2]. Qed.

Lemma bind_lift_inr {A B} (a : A) (f : A → M B) c : bind (lift (inr a)) f c = f a c.
Proof. apply bind_ret. Qed.

Lemma bind_get {A B} (g : Client → A) (f : A → M B) c : bind (get g) f c = f (g c) c.
Proof. unfold bind, get. by destruct (f (g c) c) as [[r c2] l2]. Qed.

Lemma bind_ext {A B} (m : M A) (f g : A → M B) c :
  (∀ a c', f a c' = g a c') → bind m f c = bind m g c.
Proof.
  intros H. unfold bind. destruct (m c) as [[r c1] l1].
  destruct r; try reflexivity. by rewrite H.
Qed.

Lemma resolve_pending i res c x :
  callbacks c !! i = Some x →
  resolve i res c
    = (Return (), set_callbacks (delete i (callbacks c)) c, [LResolve i res]).
Proof. intros H. unfold resolve. run_turn. by rewrite H. Qed.

Lemma resolve_absent i res c :
  callbacks c !! i = None → resolve i res c = (Return (), c, []).
Proof. intros H. unfold resolve. run_turn. by rewrite H. Qed.

Lemma truthy_with_id d v : dict_get "id" d = Some v → truthy (JObj d) = true.
Proof. by destruct d. Qed.

Lemma handle_message_with_id d i c :
  dict_get "id" d = Some (JInt i) →
  handle_message (JObj d) c =
    (match subscriber c !! i with
     | Some h => subscriber_body (h_name h) (h_controller h) (h_id h) (JObj d)
     | None => ret ()
     end ;;;
     resolve i (JObj d)) c.
Proof.
  intros H. unfold handle_message.
  rewrite (truthy_with_id d _ H). unfold contains_id, subscript. rewrite H.
  rewrite bind_lift_inr, bind_lift_inr. unfold int_key.
  rewrite bind_lift_inr, bind_get. simpl.
  apply bind_ext. intros _ c'.
  rewrite bind_ret. simpl. rewrite bind_ret. reflexivity.
Qed.

(** The handlers of the registry leave the table of pending calls alone. *)
Lemma subscriber_body_callbacks name controller id message c :
  callbacks (after (subscriber_body name controller id message c)) = callbacks c.
Proof.
  apply (respects_subscriber_body (λ c _ c', callbacks c' = callbacks c)).
  - done.
  - intros; congruence.
  - intros m c0. unfold _message. run_turn. by destruct (connecting c0).
  - intros i c0. unfold on_done. run_turn. by destruct (subscriber c0 !! i).
  - done.
Qed.

Lemma on_peer_message_subscriber name controller message c :
  subscriber (after (on_peer_message name controller message c)) = subscriber c.
Proof.
  apply (respects_on_peer_message (λ c _ c', subscriber c' = subscriber c)).
  - done.
  - intros; congruence.
  - intros m c0. unfold _message. run_turn. by destruct (connecting c0).
Qed.

Lemma subscriber_body_keeps name controller id d c :
  is_error d = false →
  subscriber (after (subscriber_body name controller id (JObj d) c)) = subscriber c.
Proof.
  unfold is_error, subscriber_body, subscript. intros H.
  destruct (dict_get "type" d) as [ty |]; [| done].
  rewrite bind_lift_inr, H, bind_ret.
  destruct (py_eq ty (JStr "peerController/message")); [| done].
  apply on_peer_message_subscriber.
Qed.

(** ** Pending calls along a schedule *)

Lemma pending_ok_refl c : pending_ok c [] c.
Proof.
  intros H. split; [done |]. split; [lia |]. split; [apply NoDup_nil_2 |]. split.
  - intros i Hi. by apply elem_of_nil in Hi.
  - intros j Hj. by left.
Qed.

Lemma pending_ok_trans c1 l1 c2 l2 c3 :
  pending_ok c1 l1 c2 → pending_ok c2 l2 c3 → pending_ok c1 (l1 ++ l2) c3.
Proof.
  intros H12 H23 Hok1.
  destruct (H12 Hok1) as (Hok2 & Hle12 & Hnd1 & Hres1 & Hgrow1).
  destruct (H23 Hok2) as (Hok3 & Hle23 & Hnd2 & Hres2 & Hgrow2).
  unfold resolved in *. rewrite omap_app.
  split; [done |]. split; [lia |]. split; [| split].
  - apply NoDup_app. split; [done |]. split; [| done].
    intros i Hi1 Hi2.
    destruct (Hres1 i Hi1) as (_ & Hb1 & Hn1).
    destruct (Hres2 i Hi2) as ([[x Hx] | Hgt] & _); [congruence | lia].
  - intros i Hi. apply elem_of_app in Hi as [Hi | Hi].
    + destruct (Hres1 i Hi) as (Hp & Hb & Hn). split; [done |]. split; [lia |].
      destruct (callbacks c3 !! i) eqn:E; [| done].
      destruct (Hgrow2 i (mk_is_Some _ _ E)) as [[x Hx] | Hgt]; [congruence | lia].
    + destruct (Hres2 i Hi) as (Hp & Hb & Hn). split; [| done].
      destruct Hp as [Hp | Hgt]; [| right; lia].
      destruct (Hgrow1 i Hp) as [? | ?]; [by left | by right].
  - intros j Hj. destruct (Hgrow2 j Hj) as [Hj2 | Hgt]; [| right; lia].
    apply Hgrow1, Hj2.
Qed.

(** A step that leaves the counter and the tables alone and resolves
    nothing. *)
Lemma pending_same c l c' :
  message_id c' = message_id c → callbacks c' = callbacks c →
  subscriber c' = subscriber c → resolved l = [] → pending_ok c l c'.
Proof.
  intros Hm Hc Hs Hl Hok. rewrite Hl.
  split; [| split; [lia | split; [apply NoDup_nil_2 | split]]].
  - unfold tables_ok in *. by rewrite Hm, Hc, Hs.
  - intros i Hi. by apply elem_of_nil in Hi.
  - intros j Hj. left. by rewrite <- Hc.
Qed.

Lemma pending_ok_message m lock no_response :
  respects pending_ok (_message m lock no_response).
Proof.
  intros c Hok.
  split; [by apply (turn_ok_message m lock no_response c) |].
  split; [by apply (turn_ok_message m lock no_response c) |].
  unfold _message. run_turn.
  destruct lock, (connecting c), no_response; simpl;
    (split; [apply NoDup_nil_2 | split; [intros i Hi; by apply elem_of_nil in Hi |]]);
    intros j [x Hj]; try (left; by eexists).
  all: destruct (decide (j = message_id c + 1)) as [-> | Hne]; [right; lia |];
    rewrite lookup_insert_ne in Hj by done; left; by eexists.
Qed.

Lemma pending_ok_on_done id : respects pending_ok (on_done id).
Proof.
  intros c. unfold on_done. run_turn.
  destruct (subscriber c !! id); simpl; [| apply pending_ok_refl].
  intros Hok. split; [by apply tables_ok_delete_subscriber |]. simpl.
  split; [lia |]. split; [apply NoDup_nil_2 |]. split; [| by left].
  intros i Hi. by apply elem_of_nil in Hi.
Qed.

Lemma pending_ok_controllers cs : respects pending_ok (modify (set_controllers cs)).
Proof. intros c. run_turn. by apply pending_same. Qed.

Lemma pending_ok_resolve i res : respects pending_ok (resolve i res).
Proof.
  intros c. unfold resolve. run_turn.
  destruct (callbacks c !! i) as [x |] eqn:Hi; simpl; [| apply pending_ok_refl].
  intros Hok. split; [by apply tables_ok_delete_callback |]. simpl.
  split; [lia |]. split; [apply NoDup_singleton |]. split.
  - intros j Hj. apply list_elem_of_singleton in Hj as ->. simpl.
    split; [left; by eexists |]. split; [| apply lookup_delete_eq].
    destruct Hok as (Hc & _). apply Hc. by eexists.
  - simpl. intros j [y Hj]. apply lookup_delete_Some in Hj as [_ Hj]. left. by eexists.
Qed.

Lemma pending_ok_handle_message res : respects pending_ok (handle_message res).
Proof.
  apply respects_handle_message.
  - apply pending_ok_refl.
  - apply pending_ok_trans.
  - intros m. apply pending_ok_message.
  - apply pending_ok_on_done.
  - apply pending_ok_controllers.
  - apply pending_ok_resolve.
Qed.

Lemma pending_ok_bind {A B} (m : M A) (f : A → M B) :
  respects pending_ok m → (∀ a, respects pending_ok (f a)) → respects pending_ok (bind m f).
Proof. apply respects_bind, pending_ok_trans. Qed.

Lemma pending_ok_subscribe m name controller :
  respects pending_ok (_subscribe m name controller).
Proof.
  intros c Hok.
  split; [by apply (turn_ok_subscribe m name controller c) |].
  split; [by apply (turn_ok_subscribe m name controller c) |].
  unfold _subscribe. run_turn.
  destruct (connecting c); simpl;
    (split; [apply NoDup_nil_2 | split; [intros i Hi; by apply elem_of_nil in Hi |]]);
    intros j Hj; by left.
Qed.

Lemma pending_ok_register_controller name controller :
  respects pending_ok (register_controller name controller).
Proof.
  unfold register_controller.
  apply pending_ok_bind.
  - intros c. run_turn. by apply pending_same.
  - intros _. apply pending_ok_bind; [apply pending_ok_subscribe |].
    intros _. apply respects_ret, pending_ok_refl.
Qed.

Lemma pending_ok_action controller action args lock allow_in_shutdown :
  respects pending_ok (_action controller action args lock allow_in_shutdown).
Proof.
  unfold _action.
  apply pending_ok_bind.
  { apply respects_if;
      [apply respects_await_connecting | apply respects_ret]; apply pending_ok_refl. }
  intros _. apply pending_ok_bind; [apply respects_get, pending_ok_refl |].
  intros off. apply respects_if; [apply respects_ret, pending_ok_refl |].
  apply pending_ok_bind; [apply respects_get, pending_ok_refl |].
  intros stop.
  repeat (apply respects_if; [apply respects_raise, pending_ok_refl |]).
  apply pending_ok_message.
Qed.

Lemma send_messages_pending o t c :
  pending_ok c (send_messages o t c).2 (send_messages o t c).1.2.
Proof.
  unfold send_messages, drain, after_drain.
  repeat case_match; simplify_eq; simpl; by apply pending_same.
Qed.

Lemma connect_answer_pending ok job_mode queue_copy user_token c :
  pending_ok c (_connect_answer ok job_mode queue_copy user_token c).2
               (_connect_answer ok job_mode queue_copy user_token c).1.2.
Proof.
  unfold _connect_answer.
  destruct job_mode, ok; simpl; try by apply pending_same.
  - exact (pending_ok_message
             [("name", JStr "authenticate");
              ("token", JObj [("id", JStr "job"); ("token", opt_str (token c));
                              ("job", opt_str (job_id c))])]
             false false (set_connection (Some false) c)).
  - exact (pending_ok_message
             [("name", JStr "authenticate");
              ("token", JObj [("id", JStr "user"); ("token", JStr user_token)])]
             false false (set_connection (Some false) c)).
  - run_turn. destruct (connecting c); simpl; by apply pending_same.
Qed.

Lemma connect_job_resume_pending res queue_copy c :
  pending_ok c (labels (_connect_job_resume res queue_copy c))
               (after (_connect_job_resume res queue_copy c)).
Proof.
  unfold _connect_job_resume.
  destruct (subscript res "result") as [e | [| [] | | | |]]; run_turn;
    try by apply pending_same.
  destruct (connecting c); simpl; by apply pending_same.
Qed.

Lemma stop_and_sync_poll_resolved c : resolved (stop_and_sync_poll c).2 = [].
Proof. unfold stop_and_sync_poll. by repeat case_match. Qed.

Lemma step_pending e s : pending_ok (client s) (step e s).2 (client (step e s).1).
Proof.
  destruct e; simpl.
  - apply pending_same; try done; apply patch_same.
  - pose proof (pending_ok_message message lock no_response (client s)) as H.
    unfold labels, after in H. by destruct (_message _ _ _ _) as [[r c'] l].
  - pose proof (pending_ok_register_controller name controller (client s)) as H.
    unfold labels, after in H. by destruct (register_controller _ _ _) as [[r c'] l].
  - pose proof (pending_ok_action controller action args lock allow_in_shutdown (client s))
      as H.
    unfold labels, after in H. by destruct (_action _ _ _ _ _ _) as [[r c'] l].
  - pose proof (send_messages_pending o (send_task s) (client s)) as H.
    by destruct (send_messages _ _ _) as [[t c'] l].
  - destruct (recv_task s); try by apply pending_same.
    pose proof (pending_ok_handle_message res (client s)) as H.
    unfold labels, after in H.
    destruct (handle_message _ _) as [[r c'] l]. simpl in H.
    destruct r; simpl; try exact H.
    unfold leave_receive_loop, connection_lost.
    destruct (connection_closed c'), (stopping c'); simpl; exact H.
  - unfold leave_receive_loop, connection_lost.
    destruct (recv_task s), ok, (stopping (client s)); simpl; by apply pending_same.
  - destruct (connection (client s)); simpl; by apply pending_same.
  - destruct (connect_task s); simpl; by apply pending_same.
  - destruct (connect_task s); simpl; try by apply pending_same.
    pose proof (connect_answer_pending ok job_mode queue_copy user_token (client s)) as H.
    destruct (_connect_answer _ _ _ _ _) as [[[t []] c'] l]; exact H.
  - destruct (connect_task s) as [| | | | [] | ]; simpl; try by apply pending_same.
    destruct (futures s !! id); simpl; [| by apply pending_same].
    pose proof (connect_job_resume_pending j queue_copy (client s)) as H.
    unfold labels, after in H.
    destruct (_connect_job_resume _ _ _) as [[r c'] l]. simpl in H.
    destruct r; exact H.
  - unfold shutdown. destruct (offline (client s)); simpl; [by apply pending_same |].
    destruct (sync_task s); simpl; try by apply pending_same.
    pose proof (stop_and_sync_poll_resolved
                  (stop_and_sync_begin now1 now2 now3 lv (client s))) as H.
    destruct (stop_and_sync_poll _) as [[] l]; simpl in *; by apply pending_same.
  - unfold stop_and_sync_wake. destruct (sync_task s); simpl; try by apply pending_same.
    pose proof (stop_and_sync_poll_resolved (client s)) as H.
    destruct (stop_and_sync_poll _) as [[] l]; simpl in *; by apply pending_same.
  - unfold stop_and_sync_closed, shutdown_finish.
    destruct (sync_task s), closed; simpl; by apply pending_same.
Qed.

Lemma run_pending es s : pending_ok (client s) (run es s).2 (client (run es s).1).
Proof.
  revert s. induction es as [| e es IH]; intros s; simpl.
  - apply pending_ok_refl.
  - pose proof (step_pending e s) as H1.
    destruct (step e s) as [s1 l1]. pose proof (IH s1) as H2.
    destruct (run es s1) as [s2 l2]. simpl in *.
    eapply pending_ok_trans; eassumption.
Qed.

Lemma tables_ok_run es s : tables_ok (client s) → tables_ok (client (run es s).1).
Proof. apply run_counts. Qed.

(** C6. In every state that a schedule reaches, an inbound message with
    identifier [i] takes exactly one of three paths.  If a call is pending
    for [i], no subscription has that id, the call is resolved with the
    message and removed, and a later message with the same id is
    discarded.  Otherwise, if a subscription exists for [i], the receive
    loop runs its handler and does nothing else: it does not remove the
    subscription, which stays unless the handler disposes of it itself (as
    the registry's handler does when the registration is refused).
    Otherwise the message is discarded: nothing changes and nothing is
    raised.  Along the whole schedule no pending call is resolved twice. *)
Theorem C6_inbound_dispatch (es : list event) (s : System) (d : pydict) (i : Z) :
  tables_ok (client s) →
  dict_get "id" d = Some (JInt i) →
  dispatch_rule (client (run es s).1) d i ∧ NoDup (resolved (run es s).2).
Proof.
  intros Hok Hid. split; [| by apply (run_pending es s)].
  apply (tables_ok_run es) in Hok. unfold dispatch_rule.
  destruct (run es s) as [s' l']. simpl in *. set (c := client s') in *.
  destruct Hok as (_ & _ & Hdisj).
  destruct (callbacks c !! i) as [[] |] eqn:Hcb.
  - specialize (Hdisj i (mk_is_Some _ _ Hcb)). rewrite Hdisj.
    split; [done |]. split.
    + by rewrite (handle_message_with_id d i c Hid), Hdisj, bind_ret,
        (resolve_pending _ _ _ _ Hcb).
    + intros d' Hid'. rewrite (handle_message_with_id d' i _ Hid'). simpl.
      rewrite Hdisj, bind_ret. apply resolve_absent. simpl. apply lookup_delete_eq.
  - destruct (subscriber c !! i) as [h |] eqn:Hsub.
    + assert (Heq : handle_message (JObj d) c =
                    subscriber_body (h_name h) (h_controller h) (h_id h) (JObj d) c).
      { rewrite (handle_message_with_id d i c Hid), Hsub.
        pose proof (subscriber_body_callbacks (h_name h) (h_controller h) (h_id h)
                      (JObj d) c) as Hsame.
        unfold bind at 1. unfold after in Hsame.
        destruct (subscriber_body _ _ _ _ c) as [[r c'] l]. simpl in Hsame.
        destruct r as [[] | | |]; try done.
        rewrite resolve_absent by (by rewrite Hsame). by rewrite app_nil_r. }
      split; [exact Heq |].
      intros Herr. rewrite Heq, subscriber_body_keeps by done. exact Hsub.
    + by rewrite (handle_message_with_id d i c Hid), Hsub, bind_ret, resolve_absent.
Qed.

Lemma tables_ok_init tok jid : tables_ok (init tok jid).
Proof.
  repeat split; simpl; intros i [x Hx]; by rewrite lookup_empty in Hx.
Qed.

Lemma C6_inbound_dispatch_witness :
  dispatch_rule (client (run demo_calls demo_boot).1) demo_response 2 ∧
  NoDup (resolved (run demo_calls demo_boot).2).
Proof.
  apply (C6_inbound_dispatch demo_calls demo_boot demo_response 2).
  - apply tables_ok_init.
  - reflexivity.
Defined.

Example demo_calls_tables :
  callbacks (client (run demo_calls demo_boot).1) !! 2 = Some () ∧
  h_name <$> subscriber (client (run demo_calls demo_boot).1) !! 3 = Some "trainer".
Proof. vm_compute. done. Qed.

(** The three paths on that state: the response to the call with id 2
    resolves it; an ['ack'] for the registration with id 3 runs the handler
    and leaves the subscription; a message with an unknown id changes
    nothing. *)
Example demo_dispatch_paths :
  labels (handle_message (JObj demo_response) (client (run demo_calls demo_boot).1))
    = [LResolve 2 (JObj demo_response)] ∧
  callbacks (after (handle_message (JObj demo_response)
                      (client (run demo_calls demo_boot).1))) !! 2 = None ∧
  h_name <$> subscriber
               (after (handle_message (JObj [("id", JInt 3); ("type", JStr "ack")])
                         (client (run demo_calls demo_boot).1))) !! 3 = Some "trainer" ∧
  outcome (handle_message (JObj [("id", JInt 99); ("type", JStr "ack")])
             (client (run demo_calls demo_boot).1)) = Return () ∧
  labels (handle_message (JObj [("id", JInt 99); ("type", JStr "ack")])
            (client (run demo_calls demo_boot).1)) = [].
Proof. vm_compute. done. Qed.

(** ** The registry *)

(** C3, as stated, fails.  After the handshake, [register_controller]
    returns its handle to the caller as soon as the request is queued; when
    the service then refuses the registration, the exception ends the
    receive loop, and the caller is not told. *)
Lemma C3_counterexample :
  outcome (register_controller "trainer" demo_controller (client demo_ready))
    = Return (mkController "trainer") ∧
  recv_task demo_registered = RRunning ∧
  recv_task (step (ERecv (JObj demo_refusal)) demo_registered).1
    = RCrashed (Exn PyException "Register controller error: name taken").
Proof. vm_compute. done. Qed.

Lemma register_controller_outcome name controller c :
  outcome (register_controller name controller c) =
    match connecting c with
    | Some _ => Return (mkController name)
    | None => AwaitConnecting
    end.
Proof.
  unfold register_controller, _subscribe. run_turn. by destruct (connecting c).
Qed.

Lemma handle_refusal c name controller i o d err :
  subscriber c !! i = Some (Handler name controller i) →
  controllers c !! name = Some o →
  dict_get "id" d = Some (JInt i) →
  dict_get "type" d = Some (JStr "error") →
  dict_get "error" d = Some (JStr err) →
  handle_message (JObj d) c =
    (Raise (Exn PyException ("Register controller error: " +:+ err)),
     set_controllers (delete name (controllers c))
       (set_subscriber (delete i (subscriber c)) c),
     []).
Proof.
  intros Hs Hc Hid Hty Herr.
  rewrite (handle_message_with_id d i c Hid), Hs. simpl.
  unfold subscriber_body, on_register_error, on_done, subscript.
  rewrite Hty, Herr. run_turn. rewrite Hs. simpl. rewrite Hc. done.
Qed.

(** C3, amended.  When the subscription of a registration receives an
    ['error'] message, the registry entry for that controller name and the
    subscription are removed, and the error is raised as an exception out
    of the handler into [handle_messages], which does not catch it: the
    receive loop ends with it.  The caller who awaited
    [register_controller] is not told: that call never raises, it returned
    the handle once the request was queued. *)
Theorem C3_refusal_raised_in_receive_loop
    (s : System) (name : string) (controller o : pyobject) (i : Z)
    (d : pydict) (err : string) :
  recv_task s = RRunning →
  subscriber (client s) !! i = Some (Handler name controller i) →
  controllers (client s) !! name = Some o →
  dict_get "id" d = Some (JInt i) →
  dict_get "type" d = Some (JStr "error") →
  dict_get "error" d = Some (JStr err) →
  recv_task (step (ERecv (JObj d)) s).1
    = RCrashed (Exn PyException ("Register controller error: " +:+ err)) ∧
  controllers (client (step (ERecv (JObj d)) s).1) !! name = None ∧
  subscriber (client (step (ERecv (JObj d)) s).1) !! i = None ∧
  (step (ERecv (JObj d)) s).2 = [] ∧
  ∀ c e, outcome (register_controller name controller c) ≠ Raise e.
Proof.
  intros Hr Hs Hc Hid Hty Herr. simpl. rewrite Hr.
  rewrite (handle_refusal _ _ _ _ _ _ _ Hs Hc Hid Hty Herr). simpl.
  rewrite !lookup_delete_eq. repeat split.
  intros c e. rewrite register_controller_outcome. by destruct (connecting c).
Qed.

Lemma C3_refusal_raised_in_receive_loop_witness :
  recv_task (step (ERecv (JObj demo_refusal)) demo_registered).1
    = RCrashed (Exn PyException ("Register controller error: " +:+ "name taken")) ∧
  controllers (client (step (ERecv (JObj demo_refusal)) demo_registered).1) !! "trainer"
    = None ∧
  subscriber (client (step (ERecv (JObj demo_refusal)) demo_registered).1) !! 2 = None ∧
  (step (ERecv (JObj demo_refusal)) demo_registered).2 = [] ∧
  ∀ c e, outcome (register_controller "trainer" demo_controller c) ≠ Raise e.
Proof.
  apply (C3_refusal_raised_in_receive_loop demo_registered "trainer" demo_controller
           demo_controller 2 demo_refusal "name taken"); by vm_compute.
Defined.

(** C2 fails on the code.  [demo_unknown_action] reaches the handler of
    the registered controller, which has no attribute [resume].  Line 122
    reads [message['action']] where the action name is [data['action']]:
    the handler raises [KeyError], nothing is queued in response, and the
    exception ends the receive loop. *)
Theorem C2_unknown_action_ends_receive_loop :
  hasattr demo_controller "resume" = false ∧
  handle_message demo_unknown_action (client demo_registered)
    = (Raise (key_error "action"), client demo_registered, []) ∧
  recv_task (step (ERecv demo_unknown_action) demo_registered).1
    = RCrashed (key_error "action") ∧
  queue (client (step (ERecv demo_unknown_action) demo_registered).1)
    = queue (client demo_registered).
Proof. vm_compute. done. Qed.

(** When the peer message does carry an ['action'] entry of its own, the
    handler goes on after the error response (there is no [return]): a
    call is answered twice, and a request for the signature ends the
    receive loop with [AttributeError]. *)
Example unknown_action_answered_twice :
  error_texts
    (queue (client (step (ERecv (demo_unknown_action_named "action")) demo_registered).1))
  = [JStr "Requested action resume not available in trainer";
     JStr "'Trainer' object has no attribute 'resume'"].
Proof. vm_compute. done. Qed.

Example unknown_action_types_ends_receive_loop :
  recv_task (step (ERecv (demo_unknown_action_named "actionTypes")) demo_registered).1
  = RCrashed (Exn AttributeError "'Trainer' object has no attribute 'resume'").
Proof. vm_compute. done. Qed.

(** ** The dispatcher *)

(** Without interference the order holds: a message queued before the
    dispatcher's turn goes out before the batch. *)
Example queue_then_patches :
  sent (run [EAction "job" "log" [JStr "x"] true false; EPatch "channels.loss" (JInt 1);
             ESend SendOk; ESend SendOk; ESend SendOk] demo_ready).2
    = [action_call "log" [JStr "x"] 2; patch_call {["channels.loss" := JInt 1]}] ∧
  queue (client (run [EAction "job" "log" [JStr "x"] true false;
                      EPatch "channels.loss" (JInt 1);
                      ESend SendOk; ESend SendOk; ESend SendOk] demo_ready).1) = [].
Proof. vm_compute. done. Qed.

(** C1 fails on the code.  The [for] loop of [send_messages] walks a copy
    of the queue taken when the iteration starts: a message queued while a
    send is pending is not in the copy, and line 273 tests the patches, not
    the queue.  In [demo_overtaken] the call [createChannel] is queued
    while the send of [log] is pending, before the patch is recorded and
    before the batch is built; the batch goes out while that call is still
    in the queue. *)
Theorem C1_patch_batch_overtakes_queued_message :
  (* the send of [log] is pending; [createChannel] is queued and the patch recorded *)
  send_task demo_sending = SAwaitSend (action_call "log" [JStr "x"] 2) [] ∧
  send_task demo_overtaken = send_task demo_sending ∧
  queue (client demo_overtaken)
    = [action_call "log" [JStr "x"] 2; action_call "createChannel" [JStr "loss"] 3] ∧
  patches (client demo_overtaken) !! "channels.loss" = Some (JInt 1) ∧
  (* the turn that ends the send of [log] builds the batch *)
  send_task (step (ESend SendOk) demo_overtaken).1
    = SAwaitPatch {["channels.loss" := JInt 1]} ∧
  (* the batch is sent, the call is still queued *)
  sent (run [ESend SendOk; ESend SendOk] demo_overtaken).2
    = [action_call "log" [JStr "x"] 2; patch_call {["channels.loss" := JInt 1]}] ∧
  queue (client (run [ESend SendOk; ESend SendOk] demo_overtaken).1)
    = [action_call "createChannel" [JStr "loss"] 3].
Proof. vm_compute. done. Qed.

Lemma quiet_sent l : Forall (λ x, network x = false) l → sent l = [].
Proof.
  induction 1 as [| x l Hx _ IH]; [done |].
  destruct x; simpl in Hx; try discriminate; exact IH.
Qed.

Lemma turn_sent {A} (m : M A) c : respects turn_ok m → sent (m c).2 = [].
Proof. intros H. apply quiet_sent, (turn_quiet _ _ _ (H c)). Qed.


Lemma stop_and_sync_poll_sent c : sent (stop_and_sync_poll c).2 = [].
Proof. unfold stop_and_sync_poll. by repeat case_match. Qed.

Lemma connect_answer_sent ok job_mode queue_copy user_token c :
  sent (_connect_answer ok job_mode queue_copy user_token c).2 = [].
Proof.
  unfold _connect_answer, _message.
  destruct job_mode, ok; run_turn; try done.
  by destruct (connecting c).
Qed.

Lemma connect_job_resume_sent res queue_copy c :
  sent (_connect_job_resume res queue_copy c).2 = [].
Proof.
  unfold _connect_job_resume.
  destruct (subscript res "result") as [e | [| [] | | | |]]; run_turn; try done.
  by destruct (connecting c).
Qed.

(** Frames are sent by [send_messages] and by nothing else. *)
Lemma step_sent_other e s : (∀ o, e ≠ ESend o) → sent (step e s).2 = [].
Proof.
  intros He. destruct e; simpl; try done.
  - pose proof (turn_sent _ (client s) (turn_ok_message message lock no_response)) as H.
    by destruct (_message _ _ _ _) as [[r c'] l].
  - pose proof (turn_sent _ (client s) (turn_ok_register_controller name controller)) as H.
    by destruct (register_controller _ _ _) as [[r c'] l].
  - pose proof (turn_sent _ (client s)
                  (turn_ok_action controller action args lock allow_in_shutdown)) as H.
    by destruct (_action _ _ _ _ _ _) as [[r c'] l].
  - by destruct (He o).
  - destruct (recv_task s); try done.
    pose proof (turn_sent _ (client s) (turn_ok_handle_message res)) as H.
    destruct (handle_message _ _) as [[r c'] l]. by destruct r.
  - by destruct (recv_task s), ok.
  - by destruct (connection (client s)).
  - by destruct (connect_task s).
  - destruct (connect_task s); try done.
    pose proof (connect_answer_sent ok job_mode queue_copy user_token (client s)) as H.
    by destruct (_connect_answer _ _ _ _ _) as [[[t []] c'] l].
  - destruct (connect_task s) as [| | | | [] | ]; try done.
    destruct (futures s !! id); [| done].
    pose proof (connect_job_resume_sent j queue_copy (client s)) as H.
    destruct (_connect_job_resume _ _ _) as [[r c'] l]. by destruct r.
  - unfold shutdown. destruct (offline (client s)); [done |].
    destruct (sync_task s); try done.
    pose proof (stop_and_sync_poll_sent
                  (stop_and_sync_begin now1 now2 now3 lv (client s))) as H.
    by destruct (stop_and_sync_poll _) as [[] l].
  - unfold stop_and_sync_wake. destruct (sync_task s); try done.
    pose proof (stop_and_sync_poll_sent (client s)) as H.
    by destruct (stop_and_sync_poll _) as [[] l].
  - unfold stop_and_sync_closed, shutdown_finish.
    by destruct (sync_task s), closed.
Qed.

Lemma step_send_task e s :
  same_session e = true → (∀ o, e ≠ ESend o) → send_task (step e s).1 = send_task s.
Proof.
  intros Hs He. destruct e; simpl; try done.
  - by destruct (_message _ _ _ _) as [[r c'] l].
  - by destruct (register_controller _ _ _) as [[r c'] l].
  - by destruct (_action _ _ _ _ _ _) as [[r c'] l].
  - by destruct (He o).
  - destruct (recv_task s); try done.
    destruct (handle_message _ _) as [[r c'] l].
    unfold leave_receive_loop, connection_lost.
    by destruct r, (connection_closed c'), (stopping c').
  - unfold leave_receive_loop, connection_lost.
    by destruct (recv_task s), ok, (stopping (client s)).
  - by destruct (connection (client s)).
  - by destruct (connect_task s).
  - destruct (connect_task s) as [| | | | [] | ]; try done.
    destruct (futures s !! id); [| done].
    destruct (_connect_job_resume _ _ _) as [[r c'] l]. by destruct r.
  - unfold shutdown. destruct (offline (client s)); [done |].
    destruct (sync_task s); try done.
    by destruct (stop_and_sync_poll _) as [[] l].
  - unfold stop_and_sync_wake. destruct (sync_task s); try done.
    by destruct (stop_and_sync_poll _) as [[] l].
  - unfold stop_and_sync_closed, shutdown_finish.
    by destruct (sync_task s), closed.
Qed.

Lemma step_returned e s :
  same_session e = true → send_task s = SReturned →
  send_task (step e s).1 = SReturned ∧ sent (step e s).2 = [].
Proof.
  intros Hs Hr.
  assert ((∃ o, e = ESend o) ∨ (∀ o, e ≠ ESend o)) as [[o ->] | He]
    by (destruct e; eauto; right; intros; discriminate).
  - simpl. by rewrite Hr.
  - by rewrite step_send_task, step_sent_other.
Qed.

Lemma run_returned es s :
  forallb same_session es = true → send_task s = SReturned →
  send_task (run es s).1 = SReturned ∧ sent (run es s).2 = [].
Proof.
  revert s. induction es as [| e es IH]; intros s Hs Hr; simpl in *; [done |].
  apply andb_prop in Hs as [He Hes].
  destruct (step_returned e s He Hr) as [H1 H2].
  destruct (step e s) as [s1 l1]. simpl in *.
  destruct (IH s1 Hes H1) as [H3 H4].
  destruct (run es s1) as [s2 l2]. simpl in *.
  split; [done |]. unfold sent in *. by rewrite omap_app, H2, H4.
Qed.

Lemma recv_keeps_patches res s :
  patches (client (step (ERecv res) s).1) = patches (client s).
Proof.
  simpl. destruct (recv_task s); try done.
  pose proof (turn_patches _ _ _ (turn_ok_handle_message res (client s))) as H.
  unfold labels, after in H.
  destruct (handle_message _ _) as [[r c'] l]. simpl in H.
  unfold leave_receive_loop, connection_lost.
  by destruct r, (connection_closed c'), (stopping c').
Qed.

(** C4 fails on the code.  The patch call is sent with
    [connection.send]: it carries no id, no response to it is awaited, and
    [ApiError], which lines 296-298 catch to stop syncing ("Patching
    failed.  Syncing job data disabled."), is raised by [_action] alone,
    which the flush does not go through.  So no frame that the service
    sends, whatever it says, reaches the dispatcher or the patches; in
    [demo_flushing] the service answers the patch call with an error, and
    the next patch is flushed all the same. *)
Theorem C4_protocol_error_disables_nothing :
  (* the patch call is on its way *)
  send_task demo_flushing = SAwaitPatch {["status" := JInt 1]} ∧
  (* no frame stops the dispatcher or touches the patches *)
  (∀ (s : System) (res : json),
     send_task (step (ERecv res) s).1 = send_task s ∧
     patches (client (step (ERecv res) s).1) = patches (client s)) ∧
  (* the error frame is received and dropped *)
  step (ERecv demo_patch_error) (step (ESend SendOk) demo_flushing).1
    = ((step (ESend SendOk) demo_flushing).1, []) ∧
  (* the next patch is flushed *)
  sent (run [ESend SendOk; ERecv demo_patch_error; EPatch "status" (JInt 2);
             ESend SendOk; ESend SendOk] demo_flushing).2
    = [patch_call {["status" := JInt 1]}; patch_call {["status" := JInt 2]}] ∧
  send_task (run [ESend SendOk; ERecv demo_patch_error; EPatch "status" (JInt 2);
                  ESend SendOk; ESend SendOk] demo_flushing).1 = SAwaitSleep ∧
  patches (client (run [ESend SendOk; ERecv demo_patch_error; EPatch "status" (JInt 2);
                        ESend SendOk; ESend SendOk] demo_flushing).1) = ∅.
Proof.
  split; [by vm_compute |].
  split; [| by vm_compute].
  intros s res. split; [by apply step_send_task | apply recv_keeps_patches].
Qed.











Example demo_repatched_survives :
  send_task demo_repatched = SAwaitPatch {["status" := JInt 1]} ∧
  patches (client (step (ESend SendOk) demo_repatched).1) !! "status" = Some (JInt 2).
Proof. vm_compute. done. Qed.

(** ** Shutdown *)















(** Scenario C of the specification: one message in the queue at shutdown.
    The wake-ups of [stop_and_sync] sleep again until the dispatcher has
    sent the message and the terminal patches; the next one closes the
    connection, and [shutdown] returns once it is closed. *)
Example shutdown_scenario :
  let s1 := (run [EPoll; ESend SendOk; EPoll; ESend SendOk; EPoll; ESend SendOk]
                 demo_stopping) in
  let s2 := (run [EPoll; ECloseDone true] s1.1) in
  existsb is_close s1.2 = false ∧
  sync_task s1.1 = YSleeping ∧ shutdown_result s1.1 = None ∧
  queue (client s1.1) = [] ∧ patches (client s1.1) = ∅ ∧
  s2.2 = [LClose] ∧ shutdown_result s2.1 = Some (inr ()) ∧
  loop_running (client s2.1) = false.
Proof. vm_compute. done. Qed.

(** C10.  On an offline client [shutdown] returns at once and without
    error, and changes nothing: the client object is the same (no terminal
    patch is recorded, [stopping] is not set, the loop keeps running), no
    task moves ([stop_and_sync] is not started), and nothing is closed,
    sent or slept on. *)
Theorem C10_shutdown_offline_changes_nothing
    (s : System) (now1 now2 now3 : string) (lv : last_value) :
  offline (client s) = true →
  shutdown_result (shutdown now1 now2 now3 lv s).1 = Some (inr ()) ∧
  client (shutdown now1 now2 now3 lv s).1 = client s ∧
  sync_task (shutdown now1 now2 now3 lv s).1 = sync_task s ∧
  send_task (shutdown now1 now2 now3 lv s).1 = send_task s ∧
  recv_task (shutdown now1 now2 now3 lv s).1 = recv_task s ∧
  connect_task (shutdown now1 now2 now3 lv s).1 = connect_task s ∧
  (shutdown now1 now2 now3 lv s).2 = [].
Proof. intros Hoff. unfold shutdown. by rewrite Hoff. Qed.

Lemma C10_shutdown_offline_changes_nothing_witness :
  shutdown_result (shutdown "t1" "t2" "t3" NoLastValue demo_offline).1 = Some (inr ()) ∧
  client (shutdown "t1" "t2" "t3" NoLastValue demo_offline).1 = client demo_offline ∧
  sync_task (shutdown "t1" "t2" "t3" NoLastValue demo_offline).1 = sync_task demo_offline ∧
  send_task (shutdown "t1" "t2" "t3" NoLastValue demo_offline).1 = send_task demo_offline ∧
  recv_task (shutdown "t1" "t2" "t3" NoLastValue demo_offline).1 = recv_task demo_offline ∧
  connect_task (shutdown "t1" "t2" "t3" NoLastValue demo_offline).1
    = connect_task demo_offline ∧
  (shutdown "t1" "t2" "t3" NoLastValue demo_offline).2 = [].
Proof. apply C10_shutdown_offline_changes_nothing. reflexivity. Defined.

(** ** Offline mode *)

Lemma step_offline_mode e s :
  offline_mode s →
  offline_mode (step e s).1 ∧ Forall (λ x, network x = false) (step e s).2.
Proof.
  intros (Hoff & Hc & Hs & Hr & Hk & Hy). unfold offline_mode. destruct e; simpl.
  - unfold patch. by rewrite Hoff.
  - pose proof (turn_ok_message message lock no_response (client s)) as [].
    unfold labels, after in *. destruct (_message _ _ _ _) as [[r c'] l]. simpl in *.
    repeat split; try done; congruence.
  - pose proof (turn_ok_register_controller name controller (client s)) as [].
    unfold labels, after in *. destruct (register_controller _ _ _) as [[r c'] l]. simpl in *.
    repeat split; try done; congruence.
  - pose proof (turn_ok_action controller action args lock allow_in_shutdown (client s)) as [].
    unfold labels, after in *. destruct (_action _ _ _ _ _ _) as [[r c'] l]. simpl in *.
    repeat split; try done; congruence.
  - by rewrite Hs.
  - by rewrite Hr.
  - by rewrite Hr.
  - by destruct (connection (client s)).
  - by rewrite Hk.
  - by rewrite Hk.
  - by rewrite Hk.
  - unfold shutdown. by rewrite Hoff.
  - unfold stop_and_sync_wake. by rewrite Hy.
  - unfold stop_and_sync_closed. by rewrite Hy.
Qed.

Lemma run_offline_mode es s :
  offline_mode s →
  offline_mode (run es s).1 ∧ Forall (λ x, network x = false) (run es s).2.
Proof.
  revert s. induction es as [| e es IH]; intros s H; simpl; [by split |].
  destruct (step_offline_mode e s H) as [H1 H2].
  destruct (step e s) as [s1 l1]. simpl in *.
  destruct (IH s1 H1) as [H3 H4].
  destruct (run es s1) as [s2 l2]. simpl in *.
  split; [done | by apply Forall_app].
Qed.

Lemma connect_fails_user_mode s queue_copy user_token :
  connect_task s = CAwaitConnect false queue_copy →
  connecting (client s) = None →
  send_task s = SNotSpawned → recv_task s = RNotSpawned → sync_task s = YNotStarted →
  offline_mode (step (EConnectDone false user_token) s).1 ∧
  (step (EConnectDone false user_token) s).2 = [].
Proof.
  intros Hk Hc Hs Hr Hy. unfold offline_mode. simpl. rewrite Hk. simpl.
  run_turn. rewrite Hc. simpl. by repeat split.
Qed.

(** C9.  When the first connection attempt of a client in user mode fails,
    the client is offline from then on: along every schedule it stays
    offline, no frame is sent, no connection is opened or closed, no
    [_connect] task is created again, and in every state that is reached
    [patch] returns without changing anything and [_action] returns [None]
    in its first turn, without raising, queueing or waiting. *)
Theorem C9_offline_is_permanent
    (s : System) (queue_copy : list json) (user_token : string) (es : list event) :
  connect_task s = CAwaitConnect false queue_copy →
  connecting (client s) = None →
  send_task s = SNotSpawned → recv_task s = RNotSpawned → sync_task s = YNotStarted →
  offline (client (step (EConnectDone false user_token) s).1) = true ∧
  offline (client (run es (step (EConnectDone false user_token) s).1).1) = true ∧
  Forall (λ x, network x = false) (run es (step (EConnectDone false user_token) s).1).2 ∧
  connect_task (run es (step (EConnectDone false user_token) s).1).1 = CIdle ∧
  (∀ path value,
     patch path value (client (run es (step (EConnectDone false user_token) s).1).1)
       = client (run es (step (EConnectDone false user_token) s).1).1) ∧
  (∀ controller action args lock allow_in_shutdown,
     _action controller action args lock allow_in_shutdown
       (client (run es (step (EConnectDone false user_token) s).1).1)
       = (Return JNull, client (run es (step (EConnectDone false user_token) s).1).1, [])).
Proof.
  intros Hk Hc Hs Hr Hy.
  destruct (connect_fails_user_mode s queue_copy user_token Hk Hc Hs Hr Hy) as [H1 _].
  destruct (run_offline_mode es _ H1) as [(Hoff & [b Hb] & _ & _ & Hk' & _) Hq].
  split; [apply H1 |].
  set (s' := (run es (step (EConnectDone false user_token) s).1).1) in *.
  clearbody s'. repeat split; try done.
  - intros path value. unfold patch. by rewrite Hoff.
  - intros controller action args lock allow_in_shutdown.
    unfold _action. destruct lock; run_turn; rewrite ?Hb; simpl; by rewrite Hoff.
Qed.

Lemma C9_offline_is_permanent_witness :
  offline (client (step (EConnectDone false "secret") demo_connecting).1) = true ∧
  offline (client (run demo_offline_calls
                     (step (EConnectDone false "secret") demo_connecting).1).1) = true ∧
  Forall (λ x, network x = false)
         (run demo_offline_calls (step (EConnectDone false "secret") demo_connecting).1).2 ∧
  connect_task (run demo_offline_calls
                  (step (EConnectDone false "secret") demo_connecting).1).1 = CIdle ∧
  (∀ path value,
     patch path value
       (client (run demo_offline_calls
                  (step (EConnectDone false "secret") demo_connecting).1).1)
     = client (run demo_offline_calls
                 (step (EConnectDone false "secret") demo_connecting).1).1) ∧
  (∀ controller action args lock allow_in_shutdown,
     _action controller action args lock allow_in_shutdown
       (client (run demo_offline_calls
                  (step (EConnectDone false "secret") demo_connecting).1).1)
     = (Return JNull,
        client (run demo_offline_calls
                  (step (EConnectDone false "secret") demo_connecting).1).1,
        [])).
Proof.
  apply (C9_offline_is_permanent demo_connecting [] "secret"); reflexivity.
Defined.

(** * Further properties of the client *)

(** ** Dicts and the id of a message *)

Lemma dict_get_set_eq k v d : dict_get k (dict_set k v d) = Some v.
Proof.
  induction d as [| [k' v'] d IH]; simpl.
  - by rewrite String.eqb_refl.
  - destruct (String.eqb k k') eqn:E; simpl.
    + by rewrite String.eqb_refl.
    + by rewrite E.
Qed.

Lemma dict_get_set_ne k k' v d : k ≠ k' → dict_get k' (dict_set k v d) = dict_get k' d.
Proof.
  intros Hne. induction d as [| [k0 v0] d IH]; simpl.
  - apply String.eqb_neq in Hne. rewrite String.eqb_sym in Hne. by rewrite Hne.
  - destruct (String.eqb k k0) eqn:E; simpl.
    + apply String.eqb_eq in E. subst k0.
      apply String.eqb_neq in Hne. rewrite String.eqb_sym in Hne. by rewrite Hne.
    + by rewrite IH.
Qed.

Lemma py_eq_str ty s : py_eq ty (JStr s) = true ↔ ty = JStr s.
Proof.
  destruct ty; simpl; try (split; [discriminate | intros; discriminate]).
  rewrite String.eqb_eq. split; congruence.
Qed.

Lemma py_eq_str_false ty s : ty ≠ JStr s → py_eq ty (JStr s) = false.
Proof.
  intros H. destruct (py_eq ty (JStr s)) eqn:E; [| done].
  by apply py_eq_str in E.
Qed.

(** X1.  [_message] past the gate: the counter moves by one, the message
    goes to the end of the queue carrying the new id under ['id'] (an
    ['id'] that the caller had put is overwritten) with its other entries
    untouched, and a pending call under that id is recorded exactly when a
    response is expected, in which case the coroutine parks on it. *)
Theorem message_enqueued_with_fresh_id
    (message : pydict) (lock no_response : bool) (c : Client) :
  gate_open lock c →
  ∃ m,
    queue (after (_message message lock no_response c)) = queue c ++ [JObj m] ∧
    message_id (after (_message message lock no_response c)) = message_id c + 1 ∧
    dict_get "id" m = Some (JInt (message_id c + 1)) ∧
    (∀ k, k ≠ "id" → dict_get k m = dict_get k message) ∧
    callbacks (after (_message message lock no_response c)) =
      (if no_response then callbacks c else <[message_id c + 1 := ()]> (callbacks c)) ∧
    outcome (_message message lock no_response c) =
      (if no_response then Return JNull else AwaitFuture (message_id c + 1)) ∧
    labels (_message message lock no_response c) = [LAssign (message_id c + 1)].
Proof.
  intros Hgate.
  exists (dict_set "id" (JInt (message_id c + 1)) message).
  assert (∀ k, k ≠ "id" →
            dict_get k (dict_set "id" (JInt (message_id c + 1)) message)
            = dict_get k message) as Hother
    by (intros k Hk; apply dict_get_set_ne; congruence).
  pose proof (dict_get_set_eq "id" (JInt (message_id c + 1)) message) as Hid.
  unfold _message. destruct lock.
  - destruct (Hgate eq_refl) as [b Hb].
    destruct no_response; run_turn; rewrite Hb; simpl; by repeat split.
  - destruct no_response; run_turn; by repeat split.
Qed.

Lemma message_enqueued_with_fresh_id_witness :
  ∃ m,
    queue (after (_message [("name", JStr "ping"); ("id", JStr "mine")] true false
                    (client demo_ready)))
      = queue (client demo_ready) ++ [JObj m] ∧
    message_id (after (_message [("name", JStr "ping"); ("id", JStr "mine")] true false
                         (client demo_ready)))
      = message_id (client demo_ready) + 1 ∧
    dict_get "id" m = Some (JInt (message_id (client demo_ready) + 1)) ∧
    (∀ k, k ≠ "id" →
       dict_get k m = dict_get k [("name", JStr "ping"); ("id", JStr "mine")]) ∧
    callbacks (after (_message [("name", JStr "ping"); ("id", JStr "mine")] true false
                        (client demo_ready)))
      = <[message_id (client demo_ready) + 1 := ()]> (callbacks (client demo_ready)) ∧
    outcome (_message [("name", JStr "ping"); ("id", JStr "mine")] true false
               (client demo_ready))
      = AwaitFuture (message_id (client demo_ready) + 1) ∧
    labels (_message [("name", JStr "ping"); ("id", JStr "mine")] true false
              (client demo_ready))
      = [LAssign (message_id (client demo_ready) + 1)].
Proof.
  apply (message_enqueued_with_fresh_id
           [("name", JStr "ping"); ("id", JStr "mine")] true false (client demo_ready)).
  intros _. vm_compute. by eexists.
Defined.

(** ** A call and its response *)

Lemma action_passes controller action args lock allow_in_shutdown c :
  gate_open lock c → offline c = false →
  (stopping c = true → allow_in_shutdown = true) →
  controller ≠ "" → action ≠ "" →
  _action controller action args lock allow_in_shutdown c =
    _message [("name", JStr "action"); ("controller", JStr controller);
              ("action", JStr action); ("args", JList args); ("timeout", JInt 60)]
             lock false c.
Proof.
  intros Hgate Hoff Hstop Hc Ha.
  apply String.eqb_neq in Hc, Ha.
  assert (stopping c && negb allow_in_shutdown = false) as Hs.
  { destruct (stopping c); [| done]. by rewrite Hstop. }
  unfold _action, _message. destruct lock.
  - destruct (Hgate eq_refl) as [b Hb]. run_turn. rewrite Hb. simpl.
    by rewrite Hoff, Hs, Hc, Ha, Hb.
  - run_turn. by rewrite Hoff, Hs, Hc, Ha.
Qed.

Lemma message_awaits_fresh_id message lock c :
  gate_open lock c →
  outcome (_message message lock false c) = AwaitFuture (message_id c + 1) ∧
  callbacks (after (_message message lock false c))
    = <[message_id c + 1 := ()]> (callbacks c) ∧
  subscriber (after (_message message lock false c)) = subscriber c.
Proof.
  intros Hgate. unfold _message. destruct lock.
  - destruct (Hgate eq_refl) as [b Hb]. run_turn. by rewrite Hb.
  - by run_turn.
Qed.

(** X2.  The round trip of a call.  [_action] parks on the future of the
    id it assigned; the first inbound frame that carries this id, whatever
    else it holds, resolves that future with the frame and with nothing
    else happening, and the table of pending calls is again what it was
    before the call. *)
Theorem call_round_trip
    (controller action : string) (args : list json) (lock allow_in_shutdown : bool)
    (c : Client) (d : pydict) :
  tables_ok c → gate_open lock c → offline c = false →
  (stopping c = true → allow_in_shutdown = true) →
  controller ≠ "" → action ≠ "" →
  dict_get "id" d = Some (JInt (message_id c + 1)) →
  outcome (_action controller action args lock allow_in_shutdown c)
    = AwaitFuture (message_id c + 1) ∧
  handle_message (JObj d) (after (_action controller action args lock allow_in_shutdown c))
    = (Return (),
       set_callbacks (callbacks c)
         (after (_action controller action args lock allow_in_shutdown c)),
       [LResolve (message_id c + 1) (JObj d)]).
Proof.
  intros Htab Hgate Hoff Hstop Hc Ha Hid.
  rewrite (action_passes _ _ _ _ _ _ Hgate Hoff Hstop Hc Ha).
  destruct (message_awaits_fresh_id
              [("name", JStr "action"); ("controller", JStr controller);
               ("action", JStr action); ("args", JList args); ("timeout", JInt 60)]
              lock c Hgate) as (Hout & Hcb & Hsub).
  split; [done |].
  destruct Htab as (Hc1 & Hs1 & _).
  assert (subscriber c !! (message_id c + 1) = None) as Hfresh_s.
  { destruct (subscriber c !! (message_id c + 1)) eqn:E; [| done].
    specialize (Hs1 _ (mk_is_Some _ _ E)). lia. }
  assert (callbacks c !! (message_id c + 1) = None) as Hfresh_c.
  { destruct (callbacks c !! (message_id c + 1)) eqn:E; [| done].
    specialize (Hc1 _ (mk_is_Some _ _ E)). lia. }
  rewrite (handle_message_with_id d _ _ Hid), Hsub, Hfresh_s, bind_ret.
  rewrite (resolve_pending _ _ _ ()) by (rewrite Hcb; apply lookup_insert_eq).
  by rewrite Hcb, delete_insert_id.
Qed.

Lemma call_round_trip_witness :
  outcome (job_action "log" [JStr "x"] (client demo_ready))
    = AwaitFuture (message_id (client demo_ready) + 1) ∧
  handle_message (JObj demo_response) (after (job_action "log" [JStr "x"] (client demo_ready)))
    = (Return (),
       set_callbacks (callbacks (client demo_ready))
         (after (job_action "log" [JStr "x"] (client demo_ready))),
       [LResolve (message_id (client demo_ready) + 1) (JObj demo_response)]).
Proof.
  apply (call_round_trip "job" "log" [JStr "x"] true false (client demo_ready)
           demo_response).
  - apply (tables_ok_run demo_session demo_boot), tables_ok_init.
  - intros _. vm_compute. by eexists.
  - reflexivity.
  - intros H. vm_compute in H. discriminate.
  - discriminate.
  - discriminate.
  - reflexivity.
Defined.

(** X3.  What [_action] makes of the response once the future is
    resolved.  A value is returned only for a response of type
    ['next/json'], and it is the ['next'] entry, or [None] when there is
    none.  Every other type raises [ApiError], for type ['error'] with the
    text ['API Error: '] followed by [str()] of the ['error'] entry (a
    string as it is, any other value as [repr] writes it, nested strings
    quoted and escaped); the one exception is an ['error'] response
    without an ['error'] entry, which raises [KeyError]. *)
Theorem action_returns_only_next_json (d : pydict) (ty : json) :
  dict_get "type" d = Some ty →
  match _action_resume (JObj d) with
  | inr v => ty = JStr "next/json" ∧ v = default JNull (dict_get "next" d)
  | inl e =>
      ty ≠ JStr "next/json" ∧
      match dict_get "error" d with
      | Some err =>
          exn_cls e = ApiError ∧
          (ty = JStr "error" → exn_str e = "API Error: " +:+ py_str err)
      | None =>
          if py_eq ty (JStr "error") then e = key_error "error"
          else exn_cls e = ApiError
      end
  end.
Proof.
  intros Hty. unfold _action_resume, subscript. rewrite Hty.
  destruct (py_eq ty (JStr "next/json")) eqn:E1.
  - apply py_eq_str in E1. by destruct (dict_get "next" d).
  - assert (ty ≠ JStr "next/json") as Hne.
    { intros ->. simpl in E1. discriminate. }
    destruct (py_eq ty (JStr "error")) eqn:E2.
    + destruct (dict_get "error" d); by repeat split.
    + destruct (dict_get "error" d); repeat split; try done.
      intros ->. simpl in E2. discriminate.
Qed.

Lemma action_returns_only_next_json_witness :
  match _action_resume
          (JObj [("id", JInt 2); ("type", JStr "error"); ("error", JStr "denied")]) with
  | inr v =>
      JStr "error" = JStr "next/json" ∧
      v = default JNull
            (dict_get "next" [("id", JInt 2); ("type", JStr "error");
                              ("error", JStr "denied")])
  | inl e =>
      JStr "error" ≠ JStr "next/json" ∧
      match dict_get "error" [("id", JInt 2); ("type", JStr "error");
                              ("error", JStr "denied")] with
      | Some err =>
          exn_cls e = ApiError ∧
          (JStr "error" = JStr "error" → exn_str e = "API Error: " +:+ py_str err)
      | None =>
          if py_eq (JStr "error") (JStr "error") then e = key_error "error"
          else exn_cls e = ApiError
      end
  end.
Proof.
  apply (action_returns_only_next_json
           [("id", JInt 2); ("type", JStr "error"); ("error", JStr "denied")]
           (JStr "error")).
  reflexivity.
Defined.

(** The text of the error when the service sends a list: [str()] of a list
    writes the strings in it as [repr] does. *)
Example action_error_text :
  _action_resume (JObj [("id", JInt 2); ("type", JStr "error");
                        ("error", JList [JStr "no such file"; JStr "C:\\runs"; JInt 2])])
  = inl (Exn ApiError "API Error: ['no such file', 'C:\\\\runs', 2]").
Proof. vm_compute. done. Qed.

(** ** Requests of peers to a registered controller *)

Lemma bind_return {A B} (m : M A) (f : A → M B) c a :
  m c = (Return a, c, []) → bind m f c = f a c.
Proof. intros H. unfold bind. rewrite H. by destruct (f a c) as [[r c2] l2]. Qed.

Lemma bind_raise {A B} (m : M A) (f : A → M B) c e c' l :
  m c = (Raise e, c', l) → bind m f c = (Raise e, c', l).
Proof. intros H. unfold bind. by rewrite H. Qed.

Lemma lift_subscript {d k v} c :
  dict_get k d = Some v → lift (subscript (JObj d) k) c = (Return v, c, []).
Proof. intros H. unfold subscript. by rewrite H. Qed.

Lemma lift_subscript_missing {d k} c :
  dict_get k d = None → lift (subscript (JObj d) k) c = (Raise (key_error k), c, []).
Proof. intros H. unfold subscript. by rewrite H. Qed.

Lemma hasattr_some o a m : attribute o a = Some m → hasattr o a = true.
Proof. intros H. unfold hasattr. by rewrite H. Qed.

Lemma lift_getattr {o a m} c :
  attribute o a = Some m → lift (getattr o a) c = (Return m, c, []).
Proof. intros H. unfold getattr. by rewrite H. Qed.

Lemma try_except_return {A} (m : M A) h c a c' l :
  m c = (Return a, c', l) → try_except m h c = (Return a, c', l).
Proof. intros H. unfold try_except. by rewrite H. Qed.

Lemma try_except_raise {A} (m : M A) (h : exn → M A) c e :
  m c = (Raise e, c, []) → is_exception (exn_cls e) = true → try_except m h c = h e c.
Proof.
  intros H He. unfold try_except. rewrite H, He. by destruct (h e c) as [[r c2] l2].
Qed.

Lemma try_except_pass {A} (m : M A) (h : exn → M A) c e c' l :
  m c = (Raise e, c', l) → is_exception (exn_cls e) = false →
  try_except m h c = (Raise e, c', l).
Proof. intros H He. unfold try_except. by rewrite H, He. Qed.

(** A response to a peer passes the gate and is queued. *)
Lemma message_no_response m c b :
  connecting c = Some b →
  _message m true true c =
    (Return JNull,
     set_queue (queue c ++ [JObj (dict_set "id" (JInt (message_id c + 1)) m)])
       (set_message_id (message_id c + 1) c),
     [LAssign (message_id c + 1)]).
Proof. intros H. unfold _message. run_turn. by rewrite H. Qed.

Lemma peer_message_built name d client_id (data : M pydict) dat c :
  dict_get "clientId" d = Some client_id →
  data c = (Return dat, c, []) →
  peer_message name (JObj d) data c =
    (Return [("name", JStr "peerController/message"); ("controllerName", JStr name);
             ("clientId", client_id); ("data", JObj dat)], c, []).
Proof.
  intros Hc Hd. unfold peer_message.
  rewrite (bind_return _ _ _ _ (lift_subscript c Hc)).
  by rewrite (bind_return _ _ _ _ Hd).
Qed.

Lemma bind_returns {A B} (m : M A) (f : A → M B) c a c' l :
  m c = (Return a, c', l) →
  bind m f c = match f a c' with (r, c2, l2) => (r, c2, l ++ l2) end.
Proof. intros H. unfold bind. by rewrite H. Qed.

(** A frame of type ['peerController/message'] for a subscription goes to
    the handler of peer requests, and no pending call is looked at when the
    id is not one. *)
Lemma handle_peer_message c name controller i d :
  subscriber c !! i = Some (Handler name controller i) →
  callbacks c !! i = None →
  dict_get "id" d = Some (JInt i) →
  dict_get "type" d = Some (JStr "peerController/message") →
  handle_message (JObj d) c =
    match on_peer_message name controller (JObj d) c with
    | (Return _, c', l) => (Return (), c', l)
    | r => r
    end.
Proof.
  intros Hs Hcb Hid Hty.
  rewrite (handle_message_with_id d i c Hid), Hs. cbn [h_name h_controller h_id].
  assert (subscriber_body name controller i (JObj d) c
          = on_peer_message name controller (JObj d) c) as Hbody.
  { unfold subscriber_body.
    rewrite (bind_return _ _ _ _ (lift_subscript c Hty)).
    change (py_eq (JStr "peerController/message") (JStr "error")) with false.
    change (py_eq (JStr "peerController/message") (JStr "peerController/message"))
      with true.
    cbv iota. by rewrite bind_ret. }
  pose proof (subscriber_body_callbacks name controller i (JObj d) c) as Hsame.
  unfold bind. rewrite Hbody in *. unfold after in Hsame.
  destruct (on_peer_message name controller (JObj d) c) as [[[[] | e | | j] c'] l];
    simpl in *; try done.
  rewrite resolve_absent by congruence. by rewrite app_nil_r.
Qed.

Lemma on_peer_message_call name controller d dd client_id request_id a method args b c :
  connecting c = Some b →
  attribute controller a = Some method →
  dict_get "clientId" d = Some client_id →
  dict_get "data" d = Some (JObj dd) →
  dict_get "name" dd = Some (JStr "action") →
  dict_get "action" dd = Some (JStr a) →
  dict_get "id" dd = Some request_id →
  dict_get "args" dd = Some (JList args) →
  on_peer_message name controller (JObj d) c =
    match m_call method args with
    | inr res =>
        respond name client_id
          [("type", JStr "next/json"); ("id", request_id);
           ("encoding", JObj [("name", JStr "r"); ("type", JStr "any")]);
           ("next", res)] c
    | inl e =>
        if is_exception (exn_cls e) then
          respond name client_id
            [("type", JStr "error"); ("id", request_id); ("stack", JNull);
             ("entityName", JStr "@error:default"); ("error", JStr (exn_str e))] c
        else (Raise e, c, [])
    end.
Proof.
  intros Hb Hattr Hcid Hdata Hname Haction Hrid Hargs.
  unfold on_peer_message.
  rewrite (bind_return _ _ _ _ (lift_subscript c Hdata)).
  rewrite (bind_return _ _ _ _ (lift_subscript c Haction)).
  rewrite (bind_return _ _ _ a) by reflexivity.
  rewrite (hasattr_some _ _ _ Hattr).
  cbn [negb]. rewrite bind_ret.
  rewrite (bind_return _ _ _ _ (lift_subscript c Hname)).
  change (py_eq (JStr "action") (JStr "actionTypes")) with false.
  cbv iota. rewrite bind_ret.
  rewrite (bind_return _ _ _ _ (lift_subscript c Hname)).
  change (py_eq (JStr "action") (JStr "action")) with true.
  cbv iota.
  assert (∀ (k : json → M ()),
            (action <~ lift (subscript (JObj dd) "action") ;;
             a0 <~ lift (attr_name action) ;;
             method0 <~ lift (getattr controller a0) ;;
             args0 <~ lift (subscript (JObj dd) "args") ;;
             args1 <~ lift (star_args args0) ;;
             res <~ lift (m_call method0 args1) ;; k res) c
            = (res <~ lift (m_call method args) ;; k res) c) as Hcall.
  { intros k.
    rewrite (bind_return _ _ _ _ (lift_subscript c Haction)).
    rewrite (bind_return _ _ _ a) by reflexivity.
    rewrite (bind_return _ _ _ _ (lift_getattr c Hattr)).
    rewrite (bind_return _ _ _ _ (lift_subscript c Hargs)).
    by rewrite (bind_return _ _ _ args) by reflexivity. }
  destruct (m_call method args) as [e | res] eqn:Hres.
  - destruct (is_exception (exn_cls e)) eqn:He.
    + rewrite (try_except_raise _ _ _ e); [| | done].
      * erewrite bind_return; cycle 1.
        { apply peer_message_built; [done |]. unfold error_data.
          by rewrite (bind_return _ _ _ _ (lift_subscript c Hrid)). }
        rewrite (bind_returns _ _ _ _ _ _ (message_no_response _ c b Hb)).
        reflexivity.
      * rewrite Hcall. by apply bind_raise.
    + apply try_except_pass; [| done].
      rewrite Hcall. by apply bind_raise.
  - apply try_except_return.
    rewrite Hcall.
    rewrite (bind_return _ _ _ res) by reflexivity.
    erewrite bind_return; cycle 1.
    { apply peer_message_built; [done |].
      by rewrite (bind_return _ _ _ _ (lift_subscript c Hrid)). }
    rewrite (bind_returns _ _ _ _ _ _ (message_no_response _ c b Hb)).
    reflexivity.
Qed.

(** X4.  A peer calls an action that the registered object has.  The
    handler calls it with the arguments of the request.  When the call
    returns, or raises an exception that derives from [Exception], exactly
    one response is queued, which carries the controller name, the peer's
    [clientId] and the id of the request: of type ['next/json'] with the
    returned value, or of type ['error'] with [str(e)]; such an exception
    goes no further, the receive loop goes on, the subscription stays and
    no pending call is touched.  An exception that does not derive from
    [Exception] ([SystemExit], [KeyboardInterrupt], [GeneratorExit]) is
    not caught by line 170: nothing is queued and it leaves the handler,
    ending the receive loop. *)
Theorem peer_call_answered_once
    (c : Client) (name : string) (controller : pyobject) (i : Z) (d dd : pydict)
    (client_id request_id : json) (a : string) (method : pymethod) (args : list json) :
  subscriber c !! i = Some (Handler name controller i) →
  callbacks c !! i = None →
  is_Some (connecting c) →
  attribute controller a = Some method →
  dict_get "id" d = Some (JInt i) →
  dict_get "type" d = Some (JStr "peerController/message") →
  dict_get "clientId" d = Some client_id →
  dict_get "data" d = Some (JObj dd) →
  dict_get "name" dd = Some (JStr "action") →
  dict_get "action" dd = Some (JStr a) →
  dict_get "id" dd = Some request_id →
  dict_get "args" dd = Some (JList args) →
  handle_message (JObj d) c =
    match m_call method args with
    | inr res =>
        respond name client_id
          [("type", JStr "next/json"); ("id", request_id);
           ("encoding", JObj [("name", JStr "r"); ("type", JStr "any")]);
           ("next", res)] c
    | inl e =>
        if is_exception (exn_cls e) then
          respond name client_id
            [("type", JStr "error"); ("id", request_id); ("stack", JNull);
             ("entityName", JStr "@error:default"); ("error", JStr (exn_str e))] c
        else (Raise e, c, [])
    end.
Proof.
  intros Hs Hcb [b Hb] Hattr Hid Hty Hcid Hdata Hname Haction Hrid Hargs.
  rewrite (handle_peer_message c name controller i d Hs Hcb Hid Hty).
  rewrite (on_peer_message_call name controller d dd client_id request_id a method args b c)
    by done.
  destruct (m_call method args) as [e | res]; [| done].
  by destruct (is_exception (exn_cls e)).
Qed.

Lemma peer_call_answered_once_witness :
  handle_message (JObj (peer_request 2 (JStr "c1") "action" "stop" (JInt 7) []))
    (client demo_registered) =
    respond "trainer" (JStr "c1")
      [("type", JStr "next/json"); ("id", JInt 7);
       ("encoding", JObj [("name", JStr "r"); ("type", JStr "any")]);
       ("next", JStr "stopped")]
      (client demo_registered).
Proof.
  apply (peer_call_answered_once (client demo_registered) "trainer" demo_controller 2
           (peer_request 2 (JStr "c1") "action" "stop" (JInt 7) [])
           [("name", JStr "action"); ("action", JStr "stop"); ("id", JInt 7);
            ("args", JList [])]
           (JStr "c1") (JInt 7) "stop"
           (PyMethod (inr ["self"]) (λ _, inr (JStr "stopped"))) []);
    try reflexivity.
  vm_compute. by eexists.
Defined.

(** An exception outside [Exception] passes through the handler. *)
Example peer_call_system_exit :
  handle_message (JObj (peer_request 2 (JStr "c1") "action" "quit" (JInt 7) []))
    (client demo_quitting)
  = (Raise (Exn SystemExit "0"), client demo_quitting, []) ∧
  recv_task (step (ERecv (JObj (peer_request 2 (JStr "c1") "action" "quit" (JInt 7) [])))
               demo_quitting).1
  = RCrashed (Exn SystemExit "0").
Proof. vm_compute. done. Qed.

Lemma imap_index {A B} (f : nat → B) (l : list A) :
  imap (λ i _, f i) l = f <$> seq 0 (length l).
Proof.
  revert f. induction l as [| x l IH]; intros f; simpl; [done |].
  f_equal. rewrite <- fmap_S_seq, <- list_fmap_compose. apply (IH (f ∘ S)).
Qed.

Lemma on_peer_message_types name controller d dd client_id request_id a method b c :
  connecting c = Some b →
  attribute controller a = Some method →
  dict_get "clientId" d = Some client_id →
  dict_get "data" d = Some (JObj dd) →
  dict_get "name" dd = Some (JStr "actionTypes") →
  dict_get "action" dd = Some (JStr a) →
  dict_get "id" dd = Some request_id →
  on_peer_message name controller (JObj d) c =
    match m_args method with
    | inr names =>
        respond name client_id
          [("type", JStr "actionTypes/result"); ("id", request_id);
           ("parameters",
            JList ((λ k, JObj [("type", JStr "any"); ("name", JStr ("#" +:+ pretty k))])
                   <$> seq 0 (length names)));
           ("returnType", JObj [("type", JStr "any"); ("name", JStr "result")])] c
    | inl e => (Raise e, c, [])
    end.
Proof.
  intros Hb Hattr Hcid Hdata Hname Haction Hrid.
  unfold on_peer_message.
  rewrite (bind_return _ _ _ _ (lift_subscript c Hdata)).
  rewrite (bind_return _ _ _ _ (lift_subscript c Haction)).
  rewrite (bind_return _ _ _ a) by reflexivity.
  rewrite (hasattr_some _ _ _ Hattr).
  cbn [negb]. rewrite bind_ret.
  rewrite (bind_return _ _ _ _ (lift_subscript c Hname)).
  change (py_eq (JStr "actionTypes") (JStr "actionTypes")) with true.
  cbv iota.
  destruct (m_args method) as [e | names] eqn:Hnames.
  - apply bind_raise.
    rewrite (bind_return _ _ _ _ (lift_subscript c Haction)).
    rewrite (bind_return _ _ _ a) by reflexivity.
    rewrite (bind_return _ _ _ _ (lift_getattr c Hattr)).
    apply bind_raise. by rewrite Hnames.
  - erewrite bind_returns; cycle 1.
    { rewrite (bind_return _ _ _ _ (lift_subscript c Haction)).
      rewrite (bind_return _ _ _ a) by reflexivity.
      rewrite (bind_return _ _ _ _ (lift_getattr c Hattr)).
      rewrite (bind_return _ _ _ names) by (by rewrite Hnames).
      erewrite bind_return; cycle 1.
      { apply peer_message_built; [done |].
        by rewrite (bind_return _ _ _ _ (lift_subscript c Hrid)). }
      rewrite (bind_returns _ _ _ _ _ _ (message_no_response _ c b Hb)).
      reflexivity. }
    rewrite (bind_return _ _ _ (JStr "actionTypes")).
    + change (py_eq (JStr "actionTypes") (JStr "action")) with false.
      cbv iota. unfold ret, respond, peer_response. simpl. by rewrite imap_index.
    + by apply lift_subscript.
Qed.

(** X5.  A peer asks for the signature of an attribute that the
    registered object has.  When [inspect.getfullargspec] can read it, the
    handler queues exactly one response, of type ['actionTypes/result'],
    with the id of the request: it lists one parameter of type ['any'] per
    argument reported (for a bound method that includes [self]), named
    ['#0'], ['#1'], ... whatever the arguments are called, and the return
    type ['any']; the action itself is not called.  When
    [getfullargspec] raises (a [TypeError] for a data attribute, which
    [hasattr] accepts all the same), nothing is queued and the exception
    leaves the handler, ending the receive loop. *)
Theorem peer_signature_answered_once
    (c : Client) (name : string) (controller : pyobject) (i : Z) (d dd : pydict)
    (client_id request_id : json) (a : string) (method : pymethod) :
  subscriber c !! i = Some (Handler name controller i) →
  callbacks c !! i = None →
  is_Some (connecting c) →
  attribute controller a = Some method →
  dict_get "id" d = Some (JInt i) →
  dict_get "type" d = Some (JStr "peerController/message") →
  dict_get "clientId" d = Some client_id →
  dict_get "data" d = Some (JObj dd) →
  dict_get "name" dd = Some (JStr "actionTypes") →
  dict_get "action" dd = Some (JStr a) →
  dict_get "id" dd = Some request_id →
  handle_message (JObj d) c =
    match m_args method with
    | inr names =>
        respond name client_id
          [("type", JStr "actionTypes/result"); ("id", request_id);
           ("parameters",
            JList ((λ k, JObj [("type", JStr "any"); ("name", JStr ("#" +:+ pretty k))])
                   <$> seq 0 (length names)));
           ("returnType", JObj [("type", JStr "any"); ("name", JStr "result")])] c
    | inl e => (Raise e, c, [])
    end.
Proof.
  intros Hs Hcb [b Hb] Hattr Hid Hty Hcid Hdata Hname Haction Hrid.
  rewrite (handle_peer_message c name controller i d Hs Hcb Hid Hty).
  rewrite (on_peer_message_types name controller d dd client_id request_id a method b c)
    by done.
  by destruct (m_args method).
Qed.

Lemma peer_signature_answered_once_witness :
  handle_message (JObj (peer_request 2 (JStr "c1") "actionTypes" "stop" (JInt 7) []))
    (client demo_registered) =
    respond "trainer" (JStr "c1")
      [("type", JStr "actionTypes/result"); ("id", JInt 7);
       ("parameters", JList [JObj [("type", JStr "any"); ("name", JStr "#0")]]);
       ("returnType", JObj [("type", JStr "any"); ("name", JStr "result")])]
      (client demo_registered).
Proof.
  apply (peer_signature_answered_once (client demo_registered) "trainer" demo_controller 2
           (peer_request 2 (JStr "c1") "actionTypes" "stop" (JInt 7) [])
           [("name", JStr "actionTypes"); ("action", JStr "stop"); ("id", JInt 7);
            ("args", JList [])]
           (JStr "c1") (JInt 7) "stop"
           (PyMethod (inr ["self"]) (λ _, inr (JStr "stopped"))));
    try reflexivity.
  vm_compute. by eexists.
Defined.

(** The signature of a data attribute cannot be read: the request is not
    answered and the receive loop ends. *)
Example peer_signature_of_data_attribute :
  hasattr demo_quitter "epoch" = true ∧
  handle_message (JObj (peer_request 2 (JStr "c1") "actionTypes" "epoch" (JInt 7) []))
    (client demo_quitting)
  = (Raise (Exn TypeError "unsupported callable"), client demo_quitting, []) ∧
  recv_task (step (ERecv (JObj (peer_request 2 (JStr "c1") "actionTypes" "epoch" (JInt 7) [])))
               demo_quitting).1
  = RCrashed (Exn TypeError "unsupported callable").
Proof. vm_compute. done. Qed.

(** ** Frames that nothing answers *)

(** X6.  A message for a subscription whose type is neither ['error'] nor
    ['peerController/message'] (an ['ack'], or anything else that can be
    compared with a string) changes nothing at all: no response is queued,
    no table is touched, nothing is raised. *)
Theorem other_message_types_ignored (c : Client) (h : handler) (i : Z) (d : pydict) (ty : json) :
  subscriber c !! i = Some h →
  callbacks c !! i = None →
  dict_get "id" d = Some (JInt i) →
  dict_get "type" d = Some ty →
  ty ≠ JStr "error" → ty ≠ JStr "peerController/message" →
  handle_message (JObj d) c = (Return (), c, []).
Proof.
  intros Hs Hcb Hid Hty Herr Hpeer.
  rewrite (handle_message_with_id d i c Hid), Hs.
  erewrite bind_return; [by apply resolve_absent |].
  unfold subscriber_body.
  rewrite (bind_return _ _ _ _ (lift_subscript c Hty)).
  by rewrite (py_eq_str_false _ _ Herr), (py_eq_str_false _ _ Hpeer), bind_ret.
Qed.

Lemma other_message_types_ignored_witness :
  handle_message (JObj [("id", JInt 2); ("type", JStr "ack")]) (client demo_registered)
    = (Return (), client demo_registered, []).
Proof.
  apply (other_message_types_ignored (client demo_registered)
           (Handler "trainer" demo_controller 2) 2
           [("id", JInt 2); ("type", JStr "ack")] (JStr "ack"));
    (reflexivity || discriminate).
Defined.

(** X7.  A message for a subscription that has no ['type'] entry is not
    ignored: the handler raises [KeyError('type')] before it does anything,
    [handle_messages] does not catch it, and the receive loop ends with it,
    the client object unchanged. *)
Theorem message_without_type_ends_receive_loop
    (s : System) (h : handler) (i : Z) (d : pydict) :
  recv_task s = RRunning →
  subscriber (client s) !! i = Some h →
  dict_get "id" d = Some (JInt i) →
  dict_get "type" d = None →
  recv_task (step (ERecv (JObj d)) s).1 = RCrashed (key_error "type") ∧
  client (step (ERecv (JObj d)) s).1 = client s ∧
  (step (ERecv (JObj d)) s).2 = [].
Proof.
  intros Hr Hs Hid Hty. simpl. rewrite Hr.
  rewrite (handle_message_with_id d i _ Hid), Hs.
  erewrite bind_raise; [done |].
  unfold subscriber_body. apply bind_raise. by apply lift_subscript_missing.
Qed.

Lemma message_without_type_ends_receive_loop_witness :
  recv_task (step (ERecv (JObj [("id", JInt 2); ("result", JBool true)]))
                  demo_registered).1
    = RCrashed (key_error "type") ∧
  client (step (ERecv (JObj [("id", JInt 2); ("result", JBool true)])) demo_registered).1
    = client demo_registered ∧
  (step (ERecv (JObj [("id", JInt 2); ("result", JBool true)])) demo_registered).2 = [].
Proof.
  apply (message_without_type_ends_receive_loop demo_registered
           (Handler "trainer" demo_controller 2) 2
           [("id", JInt 2); ("result", JBool true)]); reflexivity.
Defined.

(** X8.  A frame that is not a JSON object never reaches a table: it is
    dropped when it is falsy ([null], [false], [0], the empty string, the
    empty list) or is a list or string that does not contain ['id'], and
    every other one ends the receive loop with a [TypeError]; the same
    holds of an object without ['id'], which is always dropped.  In no
    case is the client object changed, an id resolved or a response
    queued. *)
Theorem frames_without_id_change_nothing (res : json) (c : Client) :
  match res with
  | JObj d => dict_get "id" d = None
  | _ => True
  end →
  after (handle_message res c) = c ∧
  labels (handle_message res c) = [] ∧
  (outcome (handle_message res c) = Return () ∨
   ∃ text, outcome (handle_message res c) = Raise (Exn TypeError text)) ∧
  (outcome (handle_message res c) = Return () ↔
   truthy res = false ∨ contains_id res = inr false).
Proof.
  intros Hres. unfold handle_message.
  destruct (truthy res) eqn:Ht.
  - destruct res as [| b | n | t | l | d]; simpl in Ht; try discriminate.
    + (* true *)
      run_turn. split; [done |]. split; [done |]. split; [eauto |].
      split; [discriminate | by intros [|]].
    + (* a number that is not 0 *)
      run_turn. split; [done |]. split; [done |]. split; [eauto |].
      split; [discriminate | by intros [|]].
    + (* a string *)
      unfold contains_id.
      destruct (String.index 0 "id" t) as [k |] eqn:Hi.
      * rewrite bind_lift_inr. cbv iota.
        erewrite bind_raise by reflexivity.
        split; [done |]. split; [done |]. split; [eauto |].
        split; [discriminate | by intros [|]].
      * rewrite bind_lift_inr. cbv iota.
        split; [done |]. split; [done |]. split; [by left |].
        split; [by right | done].
    + (* a list *)
      unfold contains_id.
      destruct (existsb (py_eq (JStr "id")) l) eqn:Hi.
      * rewrite bind_lift_inr. cbv iota.
        erewrite bind_raise by reflexivity.
        split; [done |]. split; [done |]. split; [eauto |].
        split; [discriminate | by intros [|]].
      * rewrite bind_lift_inr. cbv iota.
        split; [done |]. split; [done |]. split; [by left |].
        split; [by right | done].
    + (* an object without id *)
      unfold contains_id. rewrite Hres, bind_lift_inr. cbv iota.
      split; [done |]. split; [done |]. split; [by left |].
      split; [by right | done].
  - split; [done |]. split; [done |]. split; [by left |].
    split; [by left | done].
Qed.

Lemma frames_without_id_change_nothing_witness :
  after (handle_message (JList [JStr "id"; JInt 1]) (client demo_registered))
    = client demo_registered ∧
  labels (handle_message (JList [JStr "id"; JInt 1]) (client demo_registered)) = [] ∧
  (outcome (handle_message (JList [JStr "id"; JInt 1]) (client demo_registered))
     = Return () ∨
   ∃ text, outcome (handle_message (JList [JStr "id"; JInt 1]) (client demo_registered))
           = Raise (Exn TypeError text)) ∧
  (outcome (handle_message (JList [JStr "id"; JInt 1]) (client demo_registered))
     = Return () ↔
   truthy (JList [JStr "id"; JInt 1]) = false ∨
   contains_id (JList [JStr "id"; JInt 1]) = inr false).
Proof.
  apply (frames_without_id_change_nothing (JList [JStr "id"; JInt 1])
           (client demo_registered)).
  exact I.
Defined.

(** ** The dispatcher, turn by turn *)

Lemma set_queue_same c : set_queue (queue c) c = c.
Proof. by destruct c. Qed.

Lemma drain_all m rest s :
  send_task s = SAwaitSend m rest →
  queue (client s) = m :: rest →
  Forall (λ x, py_eq x x = true) (m :: rest) →
  sent (run (replicate (S (length rest)) (ESend SendOk)) s).2 = m :: rest ∧
  client (run (replicate (S (length rest)) (ESend SendOk)) s).1 = set_queue [] (client s) ∧
  send_task (run (replicate (S (length rest)) (ESend SendOk)) s).1 = drained (client s).
Proof.
  revert m s. induction rest as [| m' rest IH]; intros m s Ht Hq Hrefl.
  - apply Forall_cons in Hrefl as [Hm _].
    change (replicate (S (length [])) (ESend SendOk)) with [ESend SendOk].
    simpl. rewrite Ht. unfold send_messages. rewrite Hq. cbn [list_remove].
    rewrite Hm. unfold drain, after_drain, drained. simpl.
    by destruct (0 <? size (patches (client s)))%nat.
  - apply Forall_cons in Hrefl as [Hm Hrest].
    change (replicate (S (length (m' :: rest))) (ESend SendOk))
      with (ESend SendOk :: replicate (S (length rest)) (ESend SendOk)).
    cbn [run].
    assert (step (ESend SendOk) s
            = (with_send_task (SAwaitSend m' rest)
                 (with_client (set_queue (m' :: rest) (client s)) s), [LSend m])) as ->.
    { simpl. rewrite Ht. unfold send_messages. rewrite Hq. cbn [list_remove].
      by rewrite Hm. }
    destruct (IH m' (with_send_task (SAwaitSend m' rest)
                       (with_client (set_queue (m' :: rest) (client s)) s)))
      as (H1 & H2 & H3); [done | done | done |].
    destruct (run _ _) as [s2 l2]. simpl in *.
    by rewrite H1, H2, H3.
Qed.

(** X9.  The dispatcher sends first in, first out.  When it starts an
    iteration with the connection open and nothing interferes (each
    pending send returns, nothing is queued meanwhile), it sends the
    messages of the queue in the order in which they were queued, one per
    turn, removing each after its send; with the last one gone the queue
    is empty and it goes on to the patches, or to sleep when there are
    none. *)
Theorem queue_sent_in_order (s : System) :
  at_loop_head (send_task s) = true →
  connection_closed (client s) = false →
  Forall (λ x, py_eq x x = true) (queue (client s)) →
  sent (run (replicate (S (length (queue (client s)))) (ESend SendOk)) s).2
    = queue (client s) ∧
  client (run (replicate (S (length (queue (client s)))) (ESend SendOk)) s).1
    = set_queue [] (client s) ∧
  send_task (run (replicate (S (length (queue (client s)))) (ESend SendOk)) s).1
    = drained (client s).
Proof.
  intros Hhead Hopen Hrefl.
  destruct (queue (client s)) as [| m rest] eqn:Hq.
  - change (replicate (S (length [])) (ESend SendOk)) with [ESend SendOk].
    simpl.
    assert (send_messages SendOk (send_task s) (client s) = after_drain (client s)) as ->.
    { destruct (send_task s); try discriminate; simpl; by rewrite Hopen, Hq. }
    unfold after_drain, drained. rewrite <- Hq, set_queue_same.
    by destruct (0 <? size (patches (client s)))%nat.
  - change (replicate (S (length (m :: rest))) (ESend SendOk))
      with (ESend SendOk :: replicate (S (length rest)) (ESend SendOk)).
    cbn [run].
    assert (step (ESend SendOk) s
            = (with_send_task (SAwaitSend m rest) (with_client (client s) s), [])) as ->.
    { simpl.
      assert (send_messages SendOk (send_task s) (client s)
              = (SAwaitSend m rest, client s, [])) as ->; [| done].
      destruct (send_task s); try discriminate; simpl; by rewrite Hopen, Hq. }
    destruct (drain_all m rest
                (with_send_task (SAwaitSend m rest) (with_client (client s) s)))
      as (H1 & H2 & H3); [done | done | done |].
    destruct (run _ _) as [s2 l2]. simpl in *.
    by rewrite H1, H2, H3.
Qed.

Lemma queue_sent_in_order_witness :
  sent (run (replicate (S (length (queue (client demo_two_queued)))) (ESend SendOk))
          demo_two_queued).2
    = [action_call "log" [JStr "x"] 2; action_call "createChannel" [JStr "loss"] 3] ∧
  client (run (replicate (S (length (queue (client demo_two_queued)))) (ESend SendOk))
            demo_two_queued).1
    = set_queue [] (client demo_two_queued) ∧
  send_task (run (replicate (S (length (queue (client demo_two_queued)))) (ESend SendOk))
               demo_two_queued).1
    = SAwaitSleep.
Proof.
  apply (queue_sent_in_order demo_two_queued).
  - reflexivity.
  - reflexivity.
  - vm_compute. by repeat constructor.
Defined.

(** ** The end of the dispatcher *)

Lemma step_dead e s :
  same_session e = true → dead (send_task s) = true →
  send_task (step e s).1 = send_task s ∧ sent (step e s).2 = [].
Proof.
  intros Hs Hd.
  assert ((∃ o, e = ESend o) ∨ (∀ o, e ≠ ESend o)) as [[o ->] | He]
    by (destruct e; eauto; right; intros; discriminate).
  - simpl. by destruct (send_task s).
  - by rewrite step_send_task, step_sent_other.
Qed.

Lemma run_dead es s :
  forallb same_session es = true → dead (send_task s) = true →
  send_task (run es s).1 = send_task s ∧ sent (run es s).2 = [].
Proof.
  revert s. induction es as [| e es IH]; intros s Hs Hd; simpl in *; [done |].
  apply andb_prop in Hs as [He Hes].
  destruct (step_dead e s He Hd) as [H1 H2].
  destruct (step e s) as [s1 l1]. simpl in *.
  rewrite <- H1 in Hd.
  destruct (IH s1 Hes Hd) as [H3 H4].
  destruct (run es s1) as [s2 l2]. simpl in *.
  split; [congruence |]. unfold sent in *. by rewrite omap_app, H2, H4.
Qed.

(** X10.  However [send_messages] ends without having sent a frame (the
    pending send of a message or of the patch call raises, whatever the
    exception, or the loop head finds the connection closed), nothing is
    lost and nothing more is sent: that turn leaves the client object as it
    was, so the message whose send failed, the messages behind it and all
    patches are still there, and for the rest of the session the task stays
    ended and no frame goes out, whatever is queued or patched
    meanwhile. *)
Theorem dispatcher_ends_without_loss (s : System) (o : send_outcome) (es : list event) :
  ends_dispatcher o s = true →
  forallb same_session es = true →
  client (step (ESend o) s).1 = client s ∧
  (step (ESend o) s).2 = [] ∧
  dead (send_task (run (ESend o :: es) s).1) = true ∧
  sent (run (ESend o :: es) s).2 = [].
Proof.
  intros Hend Hes.
  assert (client (step (ESend o) s).1 = client s ∧ (step (ESend o) s).2 = [] ∧
          dead (send_task (step (ESend o) s).1) = true) as (H1 & H2 & H3).
  { unfold ends_dispatcher in Hend. simpl.
    destruct (send_task s) as [| | m rest | snap | | | e0], o as [| e];
      simpl in *; try discriminate; rewrite ?Hend; try done.
    by destruct (exn_cls e). }
  split; [done |]. split; [done |].
  cbn [run]. destruct (step (ESend o) s) as [s1 l1]. simpl in *. subst l1.
  destruct (run_dead es s1 Hes H3) as [H4 H5].
  destruct (run es s1) as [s2 l2]. simpl in *.
  split; [by rewrite H4 | done].
Qed.

Lemma dispatcher_ends_without_loss_witness :
  client (step (ESend (SendRaise (Exn ConnectionClosed "closed"))) demo_sending).1
    = client demo_sending ∧
  (step (ESend (SendRaise (Exn ConnectionClosed "closed"))) demo_sending).2 = [] ∧
  dead (send_task (run (ESend (SendRaise (Exn ConnectionClosed "closed"))
                          :: demo_after_failure) demo_sending).1) = true ∧
  sent (run (ESend (SendRaise (Exn ConnectionClosed "closed")) :: demo_after_failure)
          demo_sending).2 = [].
Proof.
  apply (dispatcher_ends_without_loss demo_sending
           (SendRaise (Exn ConnectionClosed "closed")) demo_after_failure);
    reflexivity.
Defined.

(** ** What leaves the queue *)

Lemma list_remove_elem m q q' x :
  list_remove m q = Some q' → x ∈ q → x ∈ q' ∨ py_eq x m = true.
Proof.
  revert q'. induction q as [| y q IH]; intros q' Hr Hin; simpl in Hr; [discriminate |].
  destruct (py_eq y m) eqn:E.
  - injection Hr as <-. apply elem_of_cons in Hin as [-> | Hin]; [by right | by left].
  - destruct (list_remove m q) as [q0 |]; [| discriminate].
    injection Hr as <-. apply elem_of_cons in Hin as [-> | Hin].
    + left. by left.
    + destruct (IH q0 eq_refl Hin) as [H | H]; [left; by right | by right].
Qed.

Lemma queue_grows_refl c : queue_grows c [] c.
Proof. by unfold queue_grows. Qed.

Lemma queue_grows_trans c1 l1 c2 l2 c3 :
  queue_grows c1 l1 c2 → queue_grows c2 l2 c3 → queue_grows c1 (l1 ++ l2) c3.
Proof. unfold queue_grows. intros H1 H2 x Hx. by apply H2, H1. Qed.

Lemma queue_grows_message m lock no_response :
  respects queue_grows (_message m lock no_response).
Proof.
  intros c x Hx. revert x Hx. fold (queue c ⊆ queue (after (_message m lock no_response c))).
  unfold _message. destruct lock, no_response; run_turn;
    try destruct (connecting c); simpl; intros x Hx; try done;
    apply elem_of_app; by left.
Qed.

Lemma queue_grows_subscribe m name controller :
  respects queue_grows (_subscribe m name controller).
Proof.
  intros c. unfold queue_grows, _subscribe. run_turn.
  destruct (connecting c); simpl; intros x Hx; try done.
  apply elem_of_app; by left.
Qed.

Lemma queue_grows_handle_message res : respects queue_grows (handle_message res).
Proof.
  apply respects_handle_message.
  - apply queue_grows_refl.
  - apply queue_grows_trans.
  - intros m. apply queue_grows_message.
  - intros i c. unfold queue_grows, on_done. run_turn.
    by destruct (subscriber c !! i).
  - intros cs c x Hx. exact Hx.
  - intros i r c. unfold queue_grows, resolve. run_turn.
    by destruct (callbacks c !! i).
Qed.

(** The calls of the application respect a stable relation as soon as
    [_message], [_subscribe] and the write to the registry do. *)
Section RespectsCalls.
Variable R : Client → list label → Client → Prop.
Hypothesis R_refl : ∀ c, R c [] c.
Hypothesis R_trans :
  ∀ c1 l1 c2 l2 c3, R c1 l1 c2 → R c2 l2 c3 → R c1 (l1 ++ l2) c3.
Hypothesis R_message : ∀ m lock no_response, respects R (_message m lock no_response).
Hypothesis R_subscribe : ∀ m name controller, respects R (_subscribe m name controller).
Hypothesis R_registry :
  ∀ f : Client → gmap string pyobject, respects R (modify (λ c, set_controllers (f c) c)).

Lemma respects_action controller action args lock allow_in_shutdown :
  respects R (_action controller action args lock allow_in_shutdown).
Proof.
  unfold _action.
  apply respects_bind; [done | |].
  { apply respects_if; [by apply respects_await_connecting | by apply respects_ret]. }
  intros _. apply respects_bind; [done | by apply respects_get |].
  intros off. apply respects_if; [by apply respects_ret |].
  apply respects_bind; [done | by apply respects_get |].
  intros stop.
  repeat (apply respects_if; [by apply respects_raise |]).
  apply R_message.
Qed.

Lemma respects_register_controller name controller :
  respects R (register_controller name controller).
Proof.
  unfold register_controller.
  apply respects_bind; [done | apply R_registry |].
  intros _. apply respects_bind; [done | apply R_subscribe |].
  intros _. by apply respects_ret.
Qed.

End RespectsCalls.

Lemma queue_grows_register_controller name controller :
  respects queue_grows (register_controller name controller).
Proof.
  apply respects_register_controller.
  - apply queue_grows_refl.
  - apply queue_grows_trans.
  - apply queue_grows_subscribe.
  - intros f c x Hx. exact Hx.
Qed.

Lemma queue_grows_action controller action args lock allow_in_shutdown :
  respects queue_grows (_action controller action args lock allow_in_shutdown).
Proof.
  apply respects_action.
  - apply queue_grows_refl.
  - apply queue_grows_trans.
  - apply queue_grows_message.
Qed.

Lemma connect_answer_queue ok job_mode queue_copy user_token c :
  queue c ⊆ queue (_connect_answer ok job_mode queue_copy user_token c).1.2.
Proof.
  unfold _connect_answer.
  destruct job_mode, ok; simpl; try done.
  - intros x Hx. apply elem_of_app. by left.
  - intros x Hx. apply elem_of_app. by left.
  - run_turn. by destruct (connecting c).
Qed.

Lemma connect_job_resume_queue res queue_copy c :
  queue c ⊆ queue (after (_connect_job_resume res queue_copy c)).
Proof.
  unfold _connect_job_resume.
  destruct (subscript res "result") as [e | [| [] | | | |]]; run_turn; try done.
  destruct (connecting c); simpl; try done.
  intros x Hx. apply elem_of_app. by right.
Qed.

Lemma step_queue e s x :
  no_connect e = true → x ∈ queue (client s) →
  x ∈ queue (client (step e s).1) ∨ ∃ m, m ∈ sent (step e s).2 ∧ py_eq x m = true.
Proof.
  intros He Hx.
  destruct e; try discriminate; simpl.
  - left. unfold patch. by destruct (offline (client s)), (stopping (client s)).
  - pose proof (queue_grows_message message lock no_response (client s)) as H.
    unfold queue_grows, labels, after in H.
    destruct (_message _ _ _ _) as [[r c'] l]. left. by apply H.
  - pose proof (queue_grows_register_controller name controller (client s)) as H.
    unfold queue_grows, labels, after in H.
    destruct (register_controller _ _ _) as [[r c'] l]. left. by apply H.
  - pose proof (queue_grows_action controller action args lock allow_in_shutdown
                  (client s)) as H.
    unfold queue_grows, labels, after in H.
    destruct (_action _ _ _ _ _ _) as [[r c'] l]. left. by apply H.
  - destruct (send_task s) as [| | m rest | snap | | | e0]; simpl; try by left.
    + destruct (connection_closed _); simpl; [by left |].
      unfold drain, after_drain.
      destruct (queue (client s)) eqn:Hq; simpl; [| left; by rewrite Hq].
      by apply elem_of_nil in Hx.
    + destruct o as [| e0]; simpl; [| by left].
      destruct (list_remove m (queue (client s))) as [q' |] eqn:Hr; simpl; [| by left].
      assert (queue (drain rest (set_queue q' (client s))).1.2 = q') as Hd.
      { unfold drain, after_drain. destruct rest; simpl; [| done].
        by destruct (0 <? size _)%nat. }
      destruct (drain rest _) as [[t c'] l]. simpl in *. subst q'.
      destruct (list_remove_elem _ _ _ x Hr Hx) as [H | H]; [by left |].
      right. exists m. split; [by left | done].
    + destruct o as [| e0]; simpl.
      * by destruct (remove_sent _ _) as [[e0 |] p']; left.
      * by destruct (exn_cls e0); left.
    + destruct (connection_closed _); simpl; [by left |].
      unfold drain, after_drain.
      destruct (queue (client s)) eqn:Hq; simpl; [| left; by rewrite Hq].
      by apply elem_of_nil in Hx.
  - destruct (recv_task s); try by left.
    pose proof (queue_grows_handle_message res (client s)) as H.
    unfold queue_grows, labels, after in H.
    destruct (handle_message _ _) as [[r c'] l]. simpl in H. left.
    destruct r; simpl; try by apply H.
    unfold leave_receive_loop, connection_lost.
    destruct (connection_closed c'), (stopping c'); simpl; by apply H.
  - unfold leave_receive_loop, connection_lost.
    by destruct (recv_task s), ok, (stopping (client s)); left.
  - by destruct (connection (client s)); left.
  - destruct (connect_task s); simpl; try by left.
    pose proof (connect_answer_queue ok job_mode queue_copy user_token (client s)) as H.
    destruct (_connect_answer _ _ _ _ _) as [[[t []] c'] l]; left; by apply H.
  - destruct (connect_task s) as [| | | | [] | ]; simpl; try by left.
    + left. apply elem_of_app. by right.
    + destruct (futures s !! id); simpl; [| by left].
      pose proof (connect_job_resume_queue j queue_copy (client s)) as H.
      unfold after in H.
      destruct (_connect_job_resume _ _ _) as [[r c'] l]. simpl in H.
      left. destruct r; by apply H.
  - unfold shutdown. destruct (offline (client s)); simpl; [by left |].
    destruct (sync_task s); simpl; try by left.
    by destruct (stop_and_sync_poll _) as [[] l]; left.
  - unfold stop_and_sync_wake. destruct (sync_task s); simpl; try by left.
    by destruct (stop_and_sync_poll _) as [[] l]; left.
  - unfold stop_and_sync_closed, shutdown_finish.
    by destruct (sync_task s), closed; left.
Qed.

(** X11.  Nothing is dropped from the queue.  Along every schedule in
    which no [_connect] starts (it sets the queue aside), a message that is
    queued is, at any later point, still queued or a message equal to it
    has been sent: an entry leaves the queue only through
    [queue.remove(m)] after the send of [m] has returned.  Calls, patches,
    inbound frames, failed sends, the end of the dispatcher and shutdown
    take nothing out. *)
Theorem queued_message_sent_or_kept (es : list event) (s : System) (x : json) :
  forallb no_connect es = true →
  x ∈ queue (client s) →
  x ∈ queue (client (run es s).1) ∨ ∃ m, m ∈ sent (run es s).2 ∧ py_eq x m = true.
Proof.
  revert s. induction es as [| e es IH]; intros s Hes Hx; simpl in *; [by left |].
  apply andb_prop in Hes as [He Hes].
  pose proof (step_queue e s x He Hx) as H1.
  destruct (step e s) as [s1 l1]. simpl in H1.
  specialize (IH s1 Hes).
  destruct (run es s1) as [s2 l2]. simpl in *.
  unfold sent in *. setoid_rewrite omap_app. setoid_rewrite elem_of_app.
  destruct H1 as [H1 | (m & Hm & Heq)].
  - destruct (IH H1) as [H2 | (m & Hm & Heq)]; [by left |].
    right. exists m. split; [by right | done].
  - right. exists m. split; [by left | done].
Qed.

Lemma queued_message_sent_or_kept_witness :
  action_call "log" [JStr "x"] 2
    ∈ queue (client (run (ESend SendOk :: ESend (SendRaise (Exn ConnectionClosed "closed"))
                            :: demo_after_failure) demo_two_queued).1) ∨
  ∃ m, m ∈ sent (run (ESend SendOk :: ESend (SendRaise (Exn ConnectionClosed "closed"))
                        :: demo_after_failure) demo_two_queued).2 ∧
       py_eq (action_call "log" [JStr "x"] 2) m = true.
Proof.
  apply (queued_message_sent_or_kept
           (ESend SendOk :: ESend (SendRaise (Exn ConnectionClosed "closed"))
              :: demo_after_failure)
           demo_two_queued (action_call "log" [JStr "x"] 2)).
  - reflexivity.
  - vm_compute. by left.
Defined.

(** ** Patches on their way out *)

Lemma size_insert_pos {A} (m : gmap string A) k v : (0 <? size (<[k := v]> m))%nat = true.
Proof.
  apply Nat.ltb_lt.
  pose proof (insert_non_empty m k v) as H.
  apply map_size_non_empty_iff in H. lia.
Qed.

(** X12.  The last write wins.  When a path is patched twice before the
    dispatcher builds the next batch, the batch that goes out carries the
    second value only, next to the entries for the other paths, which are
    as they were. *)
Theorem last_patch_wins (s : System) (path : string) (v1 v2 : json) (o : send_outcome) :
  at_loop_head (send_task s) = true →
  connection_closed (client s) = false →
  queue (client s) = [] →
  offline (client s) = false →
  stopping (client s) = false →
  ∃ snapshot,
    sent (run [EPatch path v1; EPatch path v2; ESend o; ESend SendOk] s).2
      = [patch_call snapshot] ∧
    snapshot !! path = Some v2 ∧
    ∀ other, other ≠ path → snapshot !! other = patches (client s) !! other.
Proof.
  intros Hhead Hopen Hq Hoff Hstop.
  exists (<[path := v2]> (patches (client s))).
  split; [| split; [apply lookup_insert_eq | intros other Hne; by apply lookup_insert_ne]].
  cbn [run step]. unfold patch. rewrite Hoff, Hstop. simpl. rewrite Hoff, Hstop. simpl.
  rewrite insert_insert_eq.
  set (c2 := set_patches (<[path := v2]> (patches (client s)))
               (set_patches (<[path := v1]> (patches (client s))) (client s))).
  assert (send_messages o (send_task s) c2
          = (SAwaitPatch (<[path := v2]> (patches (client s))), c2, [])) as ->.
  { unfold send_messages, connection_closed in *.
    destruct (send_task s); try discriminate; simpl; rewrite Hopen, Hq; simpl;
      unfold after_drain; simpl; by rewrite size_insert_pos. }
  simpl. by destruct (remove_sent _ _) as [[e |] p'].
Qed.

Lemma last_patch_wins_witness :
  ∃ snapshot,
    sent (run [EPatch "status" (JInt 1); EPatch "status" (JInt 2); ESend SendOk;
               ESend SendOk] demo_ready).2
      = [patch_call snapshot] ∧
    snapshot !! "status" = Some (JInt 2) ∧
    ∀ other, other ≠ "status" → snapshot !! other = patches (client demo_ready) !! other.
Proof.
  apply (last_patch_wins demo_ready "status" (JInt 1) (JInt 2) SendOk); reflexivity.
Defined.

Lemma idle_turn s o :
  at_loop_head (send_task s) = true ∨ dead (send_task s) = true →
  queue (client s) = [] → patches (client s) = ∅ →
  (at_loop_head (send_task (step (ESend o) s).1) = true ∨
   dead (send_task (step (ESend o) s).1) = true) ∧
  client (step (ESend o) s).1 = client s ∧
  sent (step (ESend o) s).2 = [].
Proof.
  intros Ht Hq Hp. simpl.
  destruct (send_task s) as [| | m rest | snap | | | e]; simpl in *;
    try (by destruct Ht); try (by split; [right |]).
  - destruct (connection_closed _); simpl; [by split; [right |] |].
    rewrite Hq. unfold drain, after_drain. rewrite Hp, map_size_empty. simpl.
    by split; [left |].
  - destruct (connection_closed _); simpl; [by split; [right |] |].
    rewrite Hq. unfold drain, after_drain. rewrite Hp, map_size_empty. simpl.
    by split; [left |].
Qed.

(** X13.  Flushing an empty set of patches is a no-op.  With nothing
    queued and nothing patched, the dispatcher sends no frame, however
    many turns it gets and whatever the state of the connection: no empty
    patch call goes out, and the client object stays as it is. *)
Theorem idle_dispatcher_sends_nothing (s : System) (n : nat) (o : send_outcome) :
  at_loop_head (send_task s) = true →
  queue (client s) = [] →
  patches (client s) = ∅ →
  sent (run (replicate n (ESend o)) s).2 = [] ∧
  client (run (replicate n (ESend o)) s).1 = client s.
Proof.
  intros Hhead. assert (at_loop_head (send_task s) = true ∨ dead (send_task s) = true)
    as Ht by by left.
  clear Hhead. revert s Ht.
  induction n as [| n IH]; intros s Ht Hq Hp; [done |].
  cbn [replicate run].
  destruct (idle_turn s o Ht Hq Hp) as (H1 & H2 & H3).
  destruct (step (ESend o) s) as [s1 l1]. simpl in *.
  destruct (IH s1 H1) as [H4 H5]; [by rewrite H2 | by rewrite H2 |].
  destruct (run _ s1) as [s2 l2]. simpl in *.
  unfold sent in *. rewrite omap_app, H3, H4. split; [done | congruence].
Qed.

Lemma idle_dispatcher_sends_nothing_witness :
  sent (run (replicate 5 (ESend SendOk)) demo_ready).2 = [] ∧
  client (run (replicate 5 (ESend SendOk)) demo_ready).1 = client demo_ready.
Proof.
  apply (idle_dispatcher_sends_nothing demo_ready 5 SendOk); reflexivity.
Defined.

(** ** The terminal status *)

(** X14.  What [stop_and_sync] writes before it waits.  The client is
    stopping; the job status is 150 (done) when the interpreter holds no
    uncaught exception, 200 (aborted) when that exception is a
    [KeyboardInterrupt] and 300 (crashed) for any other, and the status of
    the task and of its instance is 500, 550 or 650 accordingly; the three
    [ended] fields hold the three times read; every other pending patch
    is kept.  The statuses 250 and 600 (failed) are never written. *)
Theorem terminal_status_written (now1 now2 now3 : string) (lv : last_value) (c : Client) :
  stopping (stop_and_sync_begin now1 now2 now3 lv c) = true ∧
  patches (stop_and_sync_begin now1 now2 now3 lv c) !! "status"
    = Some (JInt (job_status lv)) ∧
  patches (stop_and_sync_begin now1 now2 now3 lv c) !! "tasks.main.status"
    = Some (JInt (task_status lv)) ∧
  patches (stop_and_sync_begin now1 now2 now3 lv c) !! "tasks.main.instances.0.status"
    = Some (JInt (task_status lv)) ∧
  patches (stop_and_sync_begin now1 now2 now3 lv c) !! "ended" = Some (JStr now1) ∧
  patches (stop_and_sync_begin now1 now2 now3 lv c) !! "tasks.main.ended"
    = Some (JStr now2) ∧
  patches (stop_and_sync_begin now1 now2 now3 lv c) !! "tasks.main.instances.0.ended"
    = Some (JStr now3) ∧
  (∀ P, P ∉ ["status"; "ended"; "tasks.main.ended"; "tasks.main.status";
             "tasks.main.instances.0.ended"; "tasks.main.instances.0.status"] →
        patches (stop_and_sync_begin now1 now2 now3 lv c) !! P = patches c !! P) ∧
  job_status lv ≠ 250 ∧ task_status lv ≠ 600.
Proof.
  unfold stop_and_sync_begin.
  split; [done |].
  repeat (split; [by destruct lv; simpl; simplify_map_eq |]).
  split; [| by destruct lv].
  intros P HP.
  assert (P ≠ "status" ∧ P ≠ "ended" ∧ P ≠ "tasks.main.ended" ∧ P ≠ "tasks.main.status" ∧
          P ≠ "tasks.main.instances.0.ended" ∧ P ≠ "tasks.main.instances.0.status")
    as (? & ? & ? & ? & ? & ?).
  { repeat split; intros ->; apply HP; repeat constructor. }
  destruct lv; simpl; by rewrite !lookup_insert_ne.
Qed.

(** ** Connecting in job mode *)

Lemma run_app es1 es2 s :
  run (es1 ++ es2) s =
    match run es1 s with
    | (s1, l1) => match run es2 s1 with (s2, l2) => (s2, l1 ++ l2) end
    end.
Proof.
  revert s. induction es1 as [| e es1 IH]; intros s; simpl.
  - by destruct (run es2 s).
  - destruct (step e s) as [s1 l1]. rewrite IH.
    destruct (run es1 s1) as [s2 l2]. destruct (run es2 s2) as [s3 l3].
    by rewrite app_assoc.
Qed.

Lemma failed_attempt_run s :
  token_set (client s) = true → connect_task s = CScheduled →
  run failed_attempt s = (s, [LConnect; LSleep 1000]).
Proof.
  intros Htok Hc. unfold failed_attempt. cbn [run step].
  rewrite Hc. unfold _connect. cbn.
  assert (token_set (set_queue [] (client s)) = true) as -> by exact Htok.
  cbn. rewrite app_nil_r.
  destruct s as [c t r k y sr f]. simpl in *. subst k.
  unfold with_connect_task, with_client. simpl. by destruct c.
Qed.

(** X15.  In job mode a connection that cannot be established is tried
    again, for ever, and costs nothing: each failed attempt sets the queue
    aside, sleeps one second, puts the queue back and schedules the next
    attempt, so after any number of failures the client, its queue and its
    tasks are exactly as before the first one, and the client has not gone
    offline. *)
Theorem job_mode_retries_for_ever (s : System) (n : nat) :
  token_set (client s) = true →
  connect_task s = CScheduled →
  (run (failed_attempts n) s).1 = s ∧
  (run (failed_attempts n) s).2 = concat (replicate n [LConnect; LSleep 1000]).
Proof.
  intros Htok Hc. induction n as [| n IH]; [done |].
  cbn [failed_attempts]. rewrite run_app, (failed_attempt_run s Htok Hc).
  destruct (run (failed_attempts n) s) as [s2 l2]. simpl in *.
  destruct IH as [-> ->]. done.
Qed.

Lemma job_mode_retries_for_ever_witness :
  (run (failed_attempts 3) demo_boot).1 = demo_boot ∧
  (run (failed_attempts 3) demo_boot).2 = concat (replicate 3 [LConnect; LSleep 1000]).
Proof.
  apply (job_mode_retries_for_ever demo_boot 3); reflexivity.
Defined.

Lemma py_eq_authenticate_job c id :
  py_eq (authenticate_job c id) (authenticate_job c id) = true.
Proof.
  unfold authenticate_job. simpl. rewrite Z.eqb_refl.
  destruct (token c), (job_id c); simpl; by rewrite ?String.eqb_refl.
Qed.

Lemma send_removes_last m s :
  send_task s = SAwaitSend m [] → queue (client s) = [m] → py_eq m m = true →
  step (ESend SendOk) s =
    (with_send_task (drained (client s)) (with_client (set_queue [] (client s)) s),
     LSend m :: if (0 <? size (patches (client s)))%nat then []
                else [LSleep send_messages_interval_ms]).
Proof.
  intros Ht Hq Hm. simpl. rewrite Ht. unfold send_messages. rewrite Hq.
  cbn [list_remove]. rewrite Hm. unfold drain, after_drain, drained. simpl.
  by destruct (0 <? size (patches (client s)))%nat.
Qed.

Lemma handshake_run (s : System) (d : pydict) :
  token_set (client s) = true →
  connect_task s = CScheduled →
  connecting (client s) = None →
  tables_ok (client s) →
  dict_get "id" d = Some (JInt (message_id (client s) + 1)) →
  dict_get "result" d = Some (JBool true) →
  sent (run (handshake d) s).2
    = [authenticate_job (client s) (message_id (client s) + 1)] ∧
  queue (client (run (handshake d) s).1) = queue (client s) ∧
  connecting (client (run (handshake d) s).1) = Some true ∧
  connections (client (run (handshake d) s).1) = connections (client s) + 1 ∧
  callbacks (client (run (handshake d) s).1) = callbacks (client s) ∧
  connect_task (run (handshake d) s).1 = CIdle ∧
  send_task (run [EConnect; EConnectDone true ""; ESend SendOk] s).1
    = SAwaitSend (authenticate_job (client s) (message_id (client s) + 1)) [] ∧
  queue (client (run [EConnect; EConnectDone true ""; ESend SendOk] s).1)
    = [authenticate_job (client s) (message_id (client s) + 1)] ∧
  send_task (run (handshake d) s).1 = drained (client s).
Proof.
  intros Htok Hc Hconn (Hc1 & Hs1 & _) Hid Hres.
  assert (subscriber (client s) !! (message_id (client s) + 1) = None) as Hfresh_s.
  { destruct (subscriber (client s) !! (message_id (client s) + 1)) eqn:E; [| done].
    specialize (Hs1 _ (mk_is_Some _ _ E)). lia. }
  assert (callbacks (client s) !! (message_id (client s) + 1) = None) as Hfresh_c.
  { destruct (callbacks (client s) !! (message_id (client s) + 1)) eqn:E; [| done].
    specialize (Hc1 _ (mk_is_Some _ _ E)). lia. }
  set (id := message_id (client s) + 1) in *.
  set (auth := authenticate_job (client s) id).
  (* [_connect] sets the queue aside *)
  set (s1 := with_connect_task (CAwaitConnect true (queue (client s)))
               (with_client (set_queue [] (client s)) s)).
  assert (step EConnect s = (s1, [LConnect])) as E1.
  { simpl. rewrite Hc. unfold _connect.
    assert (token_set (set_queue [] (client s)) = true) as -> by exact Htok. done. }
  (* the connection opens: the tasks are created and [authenticate] is queued *)
  set (c2 := set_queue [auth]
               (set_callbacks (<[id := ()]> (callbacks (client s)))
                  (set_message_id id (set_connection (Some false)
                                        (set_queue [] (client s)))))).
  set (s2 := with_connect_task (CAwaitAuth true id (queue (client s)))
               (with_recv_task RRunning (with_send_task SStart (with_client c2 s1)))).
  assert (step (EConnectDone true "") s1 = (s2, [LAssign id])) as E2 by reflexivity.
  (* the dispatcher starts on the queue *)
  set (s3 := with_send_task (SAwaitSend auth []) (with_client c2 s2)).
  assert (step (ESend SendOk) s2 = (s3, [])) as E3 by reflexivity.
  (* [authenticate] is sent and removed; the patches, if any, come next *)
  set (c4 := set_queue [] c2).
  set (s4 := with_send_task (drained (client s)) (with_client c4 s3)).
  assert (∃ l4, step (ESend SendOk) s3 = (s4, LSend auth :: l4) ∧ sent l4 = [])
    as (l4 & E4 & Hl4).
  { rewrite (send_removes_last auth s3 eq_refl eq_refl (py_eq_authenticate_job _ _)).
    eexists. split; [reflexivity |].
    by destruct (0 <? size (patches (client s3)))%nat. }
  (* the answer resolves the pending call *)
  set (c5 := set_callbacks (delete id (<[id := ()]> (callbacks (client s)))) c4).
  set (s5 := with_client c5 (with_futures (<[id := JObj d]> (futures s)) s4)).
  assert (step (ERecv (JObj d)) s4 = (s5, [LResolve id (JObj d)])) as E5.
  { simpl.
    rewrite (handle_message_with_id d id c4 Hid).
    assert (subscriber c4 !! id = None) as -> by exact Hfresh_s.
    rewrite bind_ret.
    rewrite (resolve_pending id (JObj d) c4 ()) by apply lookup_insert_eq.
    reflexivity. }
  (* [_connect_job] goes on *)
  assert (∃ c6, step EConnectResume s5 = (with_connect_task CIdle (with_client c6 s5), []) ∧
                queue c6 = queue (client s) ++ [] ∧ connecting c6 = Some true ∧
                connections c6 = connections (client s) + 1 ∧
                callbacks c6 = delete id (<[id := ()]> (callbacks (client s))))
    as (c6 & E6 & Hq6 & Hg6 & Hn6 & Hcb6).
  { simpl. rewrite lookup_insert_eq.
    unfold _connect_job_resume, subscript. rewrite Hres. run_turn.
    rewrite Hconn. simpl. by eexists. }
  assert (run [EConnect; EConnectDone true ""; ESend SendOk] s
          = (s3, [LConnect; LAssign id])) as ->
    by (cbn [run]; by rewrite E1, E2, E3).
  unfold handshake. cbn [run]. rewrite E1, E2, E3, E4, E5, E6.
  simpl. rewrite Hq6, Hg6, Hn6, Hcb6, app_nil_r, delete_insert_id by done.
  unfold sent in *. simpl. rewrite omap_app, Hl4. done.
Qed.

(** X16.  Authentication goes first, and the queue comes back.  In job
    mode, from a state where a [_connect] task is scheduled and the
    [connecting] future is pending (a new client, or one that lost its
    connection), whatever is in the queue and in the patches, and with
    nothing interfering: [_connect] sets the queue aside, so the first
    turn of the new dispatcher finds [authenticate] alone in the queue and
    hands it to the connection first.  Patches are not held back: once
    that send has returned the dispatcher goes on to the patches, so with
    patches pending the send of the patch call is under way before the
    service has answered.  Once the answer [result: true] is in, the queue
    is again what it was before [_connect] set it aside, in the same
    order, the gate is open ([connecting] resolved with [True]), and the
    connection is counted; [authenticate] is the only frame whose send
    has returned by then. *)
Theorem handshake_authenticates_first (s : System) (d : pydict) :
  token_set (client s) = true →
  connect_task s = CScheduled →
  connecting (client s) = None →
  tables_ok (client s) →
  dict_get "id" d = Some (JInt (message_id (client s) + 1)) →
  dict_get "result" d = Some (JBool true) →
  sent (run (handshake d) s).2
    = [authenticate_job (client s) (message_id (client s) + 1)] ∧
  queue (client (run (handshake d) s).1) = queue (client s) ∧
  connecting (client (run (handshake d) s).1) = Some true ∧
  connections (client (run (handshake d) s).1) = connections (client s) + 1 ∧
  callbacks (client (run (handshake d) s).1) = callbacks (client s) ∧
  connect_task (run (handshake d) s).1 = CIdle ∧
  send_task (run [EConnect; EConnectDone true ""; ESend SendOk] s).1
    = SAwaitSend (authenticate_job (client s) (message_id (client s) + 1)) [] ∧
  queue (client (run [EConnect; EConnectDone true ""; ESend SendOk] s).1)
    = [authenticate_job (client s) (message_id (client s) + 1)] ∧
  send_task (run (handshake d) s).1 = drained (client s).
Proof. apply handshake_run. Qed.

Lemma handshake_authenticates_first_witness :
  sent (run (handshake [("id", JInt 1); ("result", JBool true)]) demo_patched_boot).2
    = [authenticate_job (client demo_patched_boot)
         (message_id (client demo_patched_boot) + 1)] ∧
  queue (client (run (handshake [("id", JInt 1); ("result", JBool true)])
                   demo_patched_boot).1)
    = queue (client demo_patched_boot) ∧
  connecting (client (run (handshake [("id", JInt 1); ("result", JBool true)])
                        demo_patched_boot).1) = Some true ∧
  connections (client (run (handshake [("id", JInt 1); ("result", JBool true)])
                         demo_patched_boot).1)
    = connections (client demo_patched_boot) + 1 ∧
  callbacks (client (run (handshake [("id", JInt 1); ("result", JBool true)])
                       demo_patched_boot).1)
    = callbacks (client demo_patched_boot) ∧
  connect_task (run (handshake [("id", JInt 1); ("result", JBool true)])
                  demo_patched_boot).1 = CIdle ∧
  send_task (run [EConnect; EConnectDone true ""; ESend SendOk] demo_patched_boot).1
    = SAwaitSend (authenticate_job (client demo_patched_boot)
                    (message_id (client demo_patched_boot) + 1)) [] ∧
  queue (client (run [EConnect; EConnectDone true ""; ESend SendOk] demo_patched_boot).1)
    = [authenticate_job (client demo_patched_boot)
         (message_id (client demo_patched_boot) + 1)] ∧
  send_task (run (handshake [("id", JInt 1); ("result", JBool true)])
               demo_patched_boot).1
    = drained (client demo_patched_boot).
Proof.
  apply (handshake_authenticates_first demo_patched_boot
           [("id", JInt 1); ("result", JBool true)]).
  - reflexivity.
  - reflexivity.
  - reflexivity.
  - apply (tables_ok_run [EPatch "title" (JStr "run 1")] demo_boot), tables_ok_init.
  - reflexivity.
  - reflexivity.
Defined.

(** With a patch recorded before the handshake, the patch call is being
    sent when the answer to [authenticate] comes in. *)
Example patches_are_not_gated :
  send_task (run (handshake [("id", JInt 1); ("result", JBool true)])
               demo_patched_boot).1
  = SAwaitPatch {["title" := JStr "run 1"]}.
Proof. by vm_compute. Qed.

(** X17.  Only the literal [true] authenticates.  When the answer to
    [authenticate] carries any other [result] ([false], [1], a string, an
    object, ...), [_connect_job] raises ['Job token invalid'] and the
    task ends there: the [connecting] future is left pending, so every
    call that waits for it keeps waiting, and the queue that [_connect]
    had set aside is not put back. *)
Theorem refused_token_ends_connect
    (s : System) (id : Z) (queue_copy : list json) (d : pydict) (v : json) :
  connect_task s = CAwaitAuth true id queue_copy →
  futures s !! id = Some (JObj d) →
  dict_get "result" d = Some v →
  v ≠ JBool true →
  connect_task (step EConnectResume s).1 = CRaised (Exn PyException "Job token invalid") ∧
  client (step EConnectResume s).1 = client s ∧
  (step EConnectResume s).2 = [].
Proof.
  intros Hc Hf Hres Hv. simpl. rewrite Hc, Hf.
  unfold _connect_job_resume.
  rewrite (bind_return _ _ _ _ (lift_subscript (client s) Hres)).
  by destruct v as [| [] | | | |].
Qed.

Lemma refused_token_ends_connect_witness :
  connect_task
    (step EConnectResume
       (run [EConnect; EConnectDone true ""; ESend SendOk; ESend SendOk;
             ERecv (JObj [("id", JInt 1); ("result", JInt 1)])] demo_boot).1).1
    = CRaised (Exn PyException "Job token invalid") ∧
  client
    (step EConnectResume
       (run [EConnect; EConnectDone true ""; ESend SendOk; ESend SendOk;
             ERecv (JObj [("id", JInt 1); ("result", JInt 1)])] demo_boot).1).1
    = client (run [EConnect; EConnectDone true ""; ESend SendOk; ESend SendOk;
                   ERecv (JObj [("id", JInt 1); ("result", JInt 1)])] demo_boot).1 ∧
  (step EConnectResume
     (run [EConnect; EConnectDone true ""; ESend SendOk; ESend SendOk;
           ERecv (JObj [("id", JInt 1); ("result", JInt 1)])] demo_boot).1).2 = [].
Proof.
  apply (refused_token_ends_connect
           (run [EConnect; EConnectDone true ""; ESend SendOk; ESend SendOk;
                 ERecv (JObj [("id", JInt 1); ("result", JInt 1)])] demo_boot).1
           1 [] [("id", JInt 1); ("result", JInt 1)] (JInt 1));
    (reflexivity || discriminate).
Defined.

(** ** Job mode and the offline flag *)

Lemma same_mode_refl c : same_mode c [] c.
Proof. by split. Qed.

Lemma same_mode_trans c1 l1 c2 l2 c3 :
  same_mode c1 l1 c2 → same_mode c2 l2 c3 → same_mode c1 (l1 ++ l2) c3.
Proof. intros [H1 H2] [H3 H4]. split; congruence. Qed.

Lemma same_mode_message m lock no_response : respects same_mode (_message m lock no_response).
Proof.
  intros c. unfold same_mode, _message.
  destruct lock, no_response; run_turn; try destruct (connecting c); by simpl.
Qed.

Lemma same_mode_subscribe m name controller : respects same_mode (_subscribe m name controller).
Proof.
  intros c. unfold same_mode, _subscribe. run_turn. by destruct (connecting c).
Qed.

Lemma same_mode_handle_message res : respects same_mode (handle_message res).
Proof.
  apply respects_handle_message.
  - apply same_mode_refl.
  - apply same_mode_trans.
  - intros m. apply same_mode_message.
  - intros i c. unfold same_mode, on_done. run_turn. by destruct (subscriber c !! i).
  - by intros cs c.
  - intros i r c. unfold same_mode, resolve. run_turn. by destruct (callbacks c !! i).
Qed.

Lemma same_mode_register_controller name controller :
  respects same_mode (register_controller name controller).
Proof.
  apply respects_register_controller.
  - apply same_mode_refl.
  - apply same_mode_trans.
  - apply same_mode_subscribe.
  - by intros f c.
Qed.

Lemma same_mode_action controller action args lock allow_in_shutdown :
  respects same_mode (_action controller action args lock allow_in_shutdown).
Proof.
  apply respects_action.
  - apply same_mode_refl.
  - apply same_mode_trans.
  - apply same_mode_message.
Qed.

Lemma step_job_mode e s :
  token_set (client s) = true → job_mode_task (connect_task s) = true →
  token (client (step e s).1) = token (client s) ∧
  offline (client (step e s).1) = offline (client s) ∧
  job_mode_task (connect_task (step e s).1) = true.
Proof.
  intros Htok Hjob. destruct e; simpl.
  - unfold patch.
    by destruct (offline (client s)) eqn:Ho, (stopping (client s)); simpl; rewrite ?Ho.
  - destruct (same_mode_message message lock no_response (client s)) as [H1 H2].
    unfold labels, after in *. by destruct (_message _ _ _ _) as [[r c'] l].
  - destruct (same_mode_register_controller name controller (client s)) as [H1 H2].
    unfold labels, after in *. by destruct (register_controller _ _ _) as [[r c'] l].
  - destruct (same_mode_action controller action args lock allow_in_shutdown (client s))
      as [H1 H2].
    unfold labels, after in *. by destruct (_action _ _ _ _ _ _) as [[r c'] l].
  - assert (token (send_messages o (send_task s) (client s)).1.2 = token (client s) ∧
            offline (send_messages o (send_task s) (client s)).1.2 = offline (client s))
      as [H1 H2].
    { unfold send_messages, drain, after_drain.
      destruct (send_task s) as [| | m rest | snap | | | e0]; simpl; try done.
      - destruct (connection_closed _); [done |].
        destruct (queue (client s)); [| done]. by destruct (0 <? size _)%nat.
      - destruct o as [| e0]; [| done].
        destruct (list_remove m (queue (client s))); [| done].
        destruct rest; [| done]. simpl. by destruct (0 <? size _)%nat.
      - destruct o as [| e0].
        + by destruct (remove_sent _ _) as [[e0 |] p'].
        + by destruct (exn_cls e0).
      - destruct (connection_closed _); [done |].
        destruct (queue (client s)); [| done]. by destruct (0 <? size _)%nat. }
    by destruct (send_messages _ _ _) as [[t c'] l].
  - destruct (recv_task s); try done.
    destruct (same_mode_handle_message res (client s)) as [H1 H2].
    unfold labels, after in *.
    destruct (handle_message _ _) as [[r c'] l]. simpl in *.
    unfold leave_receive_loop, connection_lost.
    by destruct r, (connection_closed c'), (stopping c').
  - unfold leave_receive_loop, connection_lost.
    by destruct (recv_task s), ok, (stopping (client s)).
  - by destruct (connection (client s)).
  - by destruct (connect_task s) eqn:Hc; simpl; rewrite ?Hc.
  - destruct (connect_task s) as [| | job_mode queue_copy | | |] eqn:Hc;
      simpl; rewrite ?Hc; try done.
    simpl in Hjob. subst job_mode. unfold _connect_answer, _message.
    destruct ok; by run_turn.
  - destruct (connect_task s) as [| | | | [] | ] eqn:Hc; simpl; rewrite ?Hc; try done.
    destruct (futures s !! id); simpl; rewrite ?Hc; [| done].
    unfold _connect_job_resume.
    destruct (subscript j "result") as [e | [| [] | | | |]]; run_turn; try done.
    by destruct (connecting (client s)).
  - unfold shutdown. destruct (offline (client s)) eqn:Hoff; simpl; [by rewrite Hoff |].
    destruct (sync_task s); simpl; rewrite ?Hoff; try done.
    by destruct (stop_and_sync_poll _) as [[] l].
  - unfold stop_and_sync_wake. destruct (sync_task s); try done.
    by destruct (stop_and_sync_poll _) as [[] l].
  - unfold stop_and_sync_closed, shutdown_finish.
    by destruct (sync_task s), closed.
Qed.

(** X18.  A client in job mode never goes offline.  With a job token set
    and no user-mode connection attempt under way, whatever happens
    afterwards (connections refused or lost, sends that fail, frames of
    any shape, shutdown), the token stays, every connection attempt is
    made in job mode, and the offline flag is never written: only the
    first, tokenless connection attempt can put the client offline. *)
Theorem job_mode_never_offline (es : list event) (s : System) :
  token_set (client s) = true →
  job_mode_task (connect_task s) = true →
  offline (client (run es s).1) = offline (client s) ∧
  token (client (run es s).1) = token (client s) ∧
  job_mode_task (connect_task (run es s).1) = true.
Proof.
  revert s. induction es as [| e es IH]; intros s Htok Hjob; simpl; [done |].
  destruct (step_job_mode e s Htok Hjob) as (H1 & H2 & H3).
  destruct (step e s) as [s1 l1]. simpl in *.
  destruct (IH s1) as (H4 & H5 & H6); [| done |].
  { unfold token_set in *. by rewrite H1. }
  destruct (run es s1) as [s2 l2]. simpl in *.
  split; [congruence |]. split; [congruence | done].
Qed.

Lemma job_mode_never_offline_witness :
  offline (client (run (failed_attempt ++ demo_calls ++ [ERecvClosed false; EConnect;
                                                         EConnectDone false ""])
                     demo_boot).1) = offline (client demo_boot) ∧
  token (client (run (failed_attempt ++ demo_calls ++ [ERecvClosed false; EConnect;
                                                       EConnectDone false ""])
                   demo_boot).1) = token (client demo_boot) ∧
  job_mode_task (connect_task
                   (run (failed_attempt ++ demo_calls ++ [ERecvClosed false; EConnect;
                                                          EConnectDone false ""])
                      demo_boot).1) = true.
Proof.
  apply (job_mode_never_offline
           (failed_attempt ++ demo_calls ++ [ERecvClosed false; EConnect;
                                             EConnectDone false ""]) demo_boot);
    reflexivity.
Defined.

(** ** Once the client is stopping *)

Lemma step_stopping e s :
  stopping (client s) = true →
  stopping (client (step e s).1) = true ∧
  (connect_task s = CIdle → connect_task (step e s).1 = CIdle).
Proof.
  intros Hstop. destruct e; simpl.
  - unfold patch. by destruct (offline (client s)); rewrite ?Hstop.
  - pose proof (turn_stopping _ _ _
                  (turn_ok_message message lock no_response (client s))) as H.
    unfold labels, after in H. destruct (_message _ _ _ _) as [[r c'] l]. simpl in *.
    split; [congruence | done].
  - pose proof (turn_stopping _ _ _
                  (turn_ok_register_controller name controller (client s))) as H.
    unfold labels, after in H. destruct (register_controller _ _ _) as [[r c'] l].
    simpl in *. split; [congruence | done].
  - pose proof (turn_stopping _ _ _
                  (turn_ok_action controller action args lock allow_in_shutdown
                     (client s))) as H.
    unfold labels, after in H. destruct (_action _ _ _ _ _ _) as [[r c'] l].
    simpl in *. split; [congruence | done].
  - assert (stopping (send_messages o (send_task s) (client s)).1.2 = stopping (client s))
      as H.
    { unfold send_messages, drain, after_drain.
      destruct (send_task s) as [| | m rest | snap | | | e0]; simpl; try done.
      - destruct (connection_closed _); [done |].
        destruct (queue (client s)); [| done]. by destruct (0 <? size _)%nat.
      - destruct o as [| e0]; [| done].
        destruct (list_remove m (queue (client s))); [| done].
        destruct rest; [| done]. simpl. by destruct (0 <? size _)%nat.
      - destruct o as [| e0].
        + by destruct (remove_sent _ _) as [[e0 |] p'].
        + by destruct (exn_cls e0).
      - destruct (connection_closed _); [done |].
        destruct (queue (client s)); [| done]. by destruct (0 <? size _)%nat. }
    destruct (send_messages _ _ _) as [[t c'] l]. simpl in *.
    split; [congruence | done].
  - destruct (recv_task s); try done.
    pose proof (turn_stopping _ _ _ (turn_ok_handle_message res (client s))) as H.
    unfold labels, after in H.
    destruct (handle_message _ _) as [[r c'] l]. simpl in *. rewrite Hstop in H.
    unfold leave_receive_loop, connection_lost.
    destruct r, (connection_closed c'); simpl; rewrite ?H; simpl; by rewrite ?H.
  - unfold leave_receive_loop, connection_lost.
    destruct (recv_task s), ok; simpl; rewrite ?Hstop; simpl; by rewrite ?Hstop.
  - by destruct (connection (client s)).
  - destruct (connect_task s) eqn:Hc; simpl; rewrite ?Hc; try done.
  - destruct (connect_task s) as [| | job_mode queue_copy | | |] eqn:Hc;
      simpl; rewrite ?Hc; try done.
    assert (stopping (_connect_answer ok job_mode queue_copy user_token (client s)).1.2
            = stopping (client s)) as H.
    { unfold _connect_answer, _message. destruct job_mode, ok; run_turn; try done.
      by destruct (connecting (client s)). }
    destruct (_connect_answer _ _ _ _ _) as [[[t []] c'] l]; simpl in *;
      (split; [congruence | done]).
  - destruct (connect_task s) as [| | | | [] | ] eqn:Hc; simpl; rewrite ?Hc; try done.
    destruct (futures s !! id); simpl; rewrite ?Hc; [| done].
    assert (stopping (after (_connect_job_resume j queue_copy (client s)))
            = stopping (client s)) as H.
    { unfold _connect_job_resume.
      destruct (subscript j "result") as [e | [| [] | | | |]]; run_turn; try done.
      by destruct (connecting (client s)). }
    unfold after in H. destruct (_connect_job_resume _ _ _) as [[r c'] l]. simpl in *.
    destruct r; simpl; (split; [congruence | done]).
  - unfold shutdown. destruct (offline (client s)); simpl; [done |].
    destruct (sync_task s); simpl; try done.
    by destruct (stop_and_sync_poll _) as [[] l].
  - unfold stop_and_sync_wake. destruct (sync_task s); try done.
    by destruct (stop_and_sync_poll _) as [[] l].
  - unfold stop_and_sync_closed, shutdown_finish.
    by destruct (sync_task s), closed.
Qed.

(** X19.  Stopping is for good.  Once [stop_and_sync] has set the flag,
    no schedule resets it, and with no [_connect] task left none is
    created again: a receive loop that loses its connection does not
    reconnect.  From then on [patch] changes nothing, and a call without
    [allow_in_shutdown] queues nothing and assigns no id, whether it is
    refused with ['In shutdown: actions disallowed'], returns at once
    (offline) or waits at the gate. *)
Theorem stopping_is_permanent (es : list event) (s : System) :
  stopping (client s) = true →
  connect_task s = CIdle →
  stopping (client (run es s).1) = true ∧
  connect_task (run es s).1 = CIdle ∧
  (∀ path value, patch path value (client (run es s).1) = client (run es s).1) ∧
  (∀ controller action args lock,
     after (_action controller action args lock false (client (run es s).1))
       = client (run es s).1 ∧
     labels (_action controller action args lock false (client (run es s).1)) = [] ∧
     (is_Some (connecting (client (run es s).1)) → offline (client (run es s).1) = false →
      outcome (_action controller action args lock false (client (run es s).1))
        = Raise (Exn PyException "In shutdown: actions disallowed"))).
Proof.
  intros Hstop Hidle.
  assert (stopping (client (run es s).1) = true ∧ connect_task (run es s).1 = CIdle)
    as [H1 H2].
  { revert s Hstop Hidle. induction es as [| e es IH]; intros s Hstop Hidle; [done |].
    cbn [run]. destruct (step_stopping e s Hstop) as [Hs Hc].
    destruct (step e s) as [s1 l1]. simpl in *.
    specialize (IH s1 Hs (Hc Hidle)).
    by destruct (run es s1) as [s2 l2]. }
  split; [done |]. split; [done |].
  destruct (run es s) as [s' l']. simpl in *. split.
  - intros path value. unfold patch. rewrite H1. by destruct (offline (client s')).
  - intros controller action args lock. unfold _action.
    destruct lock; run_turn.
    + destruct (connecting (client s')) as [b |]; simpl.
      * by destruct (offline (client s')); simpl; [| rewrite H1; simpl].
      * by repeat split.
    + by destruct (offline (client s')); simpl; [| rewrite H1; simpl].
Qed.

Lemma stopping_is_permanent_witness :
  stopping (client (run [ERecvClosed false; EPatch "status" (JInt 1); EConnect]
                      demo_stopping).1) = true ∧
  connect_task (run [ERecvClosed false; EPatch "status" (JInt 1); EConnect]
                  demo_stopping).1 = CIdle ∧
  (∀ path value,
     patch path value (client (run [ERecvClosed false; EPatch "status" (JInt 1); EConnect]
                                 demo_stopping).1)
     = client (run [ERecvClosed false; EPatch "status" (JInt 1); EConnect]
                 demo_stopping).1) ∧
  (∀ controller action args lock,
     after (_action controller action args lock false
              (client (run [ERecvClosed false; EPatch "status" (JInt 1); EConnect]
                         demo_stopping).1))
       = client (run [ERecvClosed false; EPatch "status" (JInt 1); EConnect]
                   demo_stopping).1 ∧
     labels (_action controller action args lock false
               (client (run [ERecvClosed false; EPatch "status" (JInt 1); EConnect]
                          demo_stopping).1)) = [] ∧
     (is_Some (connecting (client (run [ERecvClosed false; EPatch "status" (JInt 1);
                                        EConnect] demo_stopping).1)) →
      offline (client (run [ERecvClosed false; EPatch "status" (JInt 1); EConnect]
                         demo_stopping).1) = false →
      outcome (_action controller action args lock false
                 (client (run [ERecvClosed false; EPatch "status" (JInt 1); EConnect]
                            demo_stopping).1))
        = Raise (Exn PyException "In shutdown: actions disallowed"))).
Proof.
  apply (stopping_is_permanent [ERecvClosed false; EPatch "status" (JInt 1); EConnect]
           demo_stopping); reflexivity.
Defined.

(** ** The gate *)

Lemma with_client_same s : with_client (client s) s = s.
Proof. by destruct s. Qed.

Lemma step_at_gate e s :
  connecting (client s) = None → locked_call e = true → step e s = (s, []).
Proof.
  intros Hconn He. destruct e; try discriminate; simpl in *; subst lock.
  - unfold _message. run_turn. rewrite Hconn. simpl. by rewrite with_client_same.
  - unfold _action. run_turn. rewrite Hconn. simpl. by rewrite with_client_same.
Qed.

(** X20.  Nothing passes the gate before authentication.  While the
    [connecting] future is pending (before the first handshake is over,
    and again from the loss of a connection until the next handshake is
    over), calls of [_message] and [_action] with [lock] set leave no
    trace, however many are made: no id is assigned, nothing is queued, no
    pending call is recorded. *)
Theorem locked_calls_wait_at_gate (es : list event) (s : System) :
  connecting (client s) = None →
  forallb locked_call es = true →
  run es s = (s, []).
Proof.
  intros Hconn. induction es as [| e es IH]; intros Hes; simpl in *; [done |].
  apply andb_prop in Hes as [He Hes].
  by rewrite (step_at_gate e s Hconn He), (IH Hes).
Qed.

Lemma locked_calls_wait_at_gate_witness :
  run [EAction "job" "log" [JStr "x"] true false; EMessage [("name", JStr "ping")] true true;
       EAction "job" "log" [JStr "y"] true true]
      (run [EConnect; EConnectDone true ""; ESend SendOk] demo_boot).1
    = ((run [EConnect; EConnectDone true ""; ESend SendOk] demo_boot).1, []).
Proof.
  apply (locked_calls_wait_at_gate
           [EAction "job" "log" [JStr "x"] true false;
            EMessage [("name", JStr "ping")] true true;
            EAction "job" "log" [JStr "y"] true true]
           (run [EConnect; EConnectDone true ""; ESend SendOk] demo_boot).1);
    reflexivity.
Defined.

(** ** A registration and its refusal *)

(** X21.  A refused registration leaves no trace in the tables, and takes
    an earlier registration with it.  After [register_controller], which
    returns its handle at once, the first frame of type ['error'] for the
    id of the request removes the subscription, so that the table of
    subscriptions is what it was before the call, and removes the registry
    entry for the name: also when that name had been registered before,
    in which case the earlier controller is no longer in the registry
    although its own subscription is still there. *)
Theorem refused_registration_undone
    (c : Client) (name : string) (controller : pyobject) (d : pydict) (err : string) :
  tables_ok c →
  is_Some (connecting c) →
  dict_get "id" d = Some (JInt (message_id c + 1)) →
  dict_get "type" d = Some (JStr "error") →
  dict_get "error" d = Some (JStr err) →
  outcome (register_controller name controller c) = Return (mkController name) ∧
  outcome (handle_message (JObj d) (after (register_controller name controller c)))
    = Raise (Exn PyException ("Register controller error: " +:+ err)) ∧
  subscriber (after (handle_message (JObj d) (after (register_controller name controller c))))
    = subscriber c ∧
  controllers (after (handle_message (JObj d)
                        (after (register_controller name controller c))))
    = delete name (controllers c) ∧
  callbacks (after (handle_message (JObj d) (after (register_controller name controller c))))
    = callbacks c.
Proof.
  intros (Hc1 & Hs1 & _) [b Hb] Hid Hty Herr.
  assert (subscriber c !! (message_id c + 1) = None) as Hfresh.
  { destruct (subscriber c !! (message_id c + 1)) eqn:E; [| done].
    specialize (Hs1 _ (mk_is_Some _ _ E)). lia. }
  assert (register_controller name controller c
          = (Return (mkController name),
             set_queue
               (queue c ++ [JObj [("name", JStr "peerController/register");
                                  ("controllerName", JStr name);
                                  ("id", JInt (message_id c + 1))]])
               (set_subscriber
                  (<[message_id c + 1 := Handler name controller (message_id c + 1)]>
                     (subscriber c))
                  (set_message_id (message_id c + 1)
                     (set_controllers (<[name := controller]> (controllers c)) c))),
             [LAssign (message_id c + 1)])) as ->.
  { unfold register_controller, _subscribe. run_turn. by rewrite Hb. }
  split; [done |].
  erewrite handle_refusal; [| apply lookup_insert_eq | apply lookup_insert_eq | done..].
  unfold outcome, after. simpl.
  by rewrite delete_insert_id, delete_insert_eq.
Qed.

Lemma refused_registration_undone_witness :
  outcome (register_controller "trainer" demo_controller (client demo_ready))
    = Return (mkController "trainer") ∧
  outcome (handle_message (JObj demo_refusal)
             (after (register_controller "trainer" demo_controller (client demo_ready))))
    = Raise (Exn PyException ("Register controller error: " +:+ "name taken")) ∧
  subscriber (after (handle_message (JObj demo_refusal)
                       (after (register_controller "trainer" demo_controller
                                 (client demo_ready)))))
    = subscriber (client demo_ready) ∧
  controllers (after (handle_message (JObj demo_refusal)
                        (after (register_controller "trainer" demo_controller
                                  (client demo_ready)))))
    = delete "trainer" (controllers (client demo_ready)) ∧
  callbacks (after (handle_message (JObj demo_refusal)
                      (after (register_controller "trainer" demo_controller
                                (client demo_ready)))))
    = callbacks (client demo_ready).
Proof.
  apply (refused_registration_undone (client demo_ready) "trainer" demo_controller
           demo_refusal "name taken").
  - apply (tables_ok_run demo_session demo_boot), tables_ok_init.
  - vm_compute. by eexists.
  - reflexivity.
  - reflexivity.
  - reflexivity.
Defined.

(** ** A flush that nothing interferes with *)

Lemma remove_sent_all send p :
  NoDup send.*1 →
  (∀ k v, (k, v) ∈ send → p !! k = Some v ∧ py_eq v v = true) →
  (remove_sent send p).1 = None ∧
  (∀ k, k ∈ send.*1 → (remove_sent send p).2 !! k = None) ∧
  (∀ k, k ∉ send.*1 → (remove_sent send p).2 !! k = p !! k).
Proof.
  revert p. induction send as [| [i v] send IH]; intros p Hnd Hall; simpl.
  - split; [done |]. split; [by intros k ?%elem_of_nil | done].
  - apply NoDup_cons in Hnd as [Hi Hnd].
    destruct (Hall i v) as [Hp Hv]; [by left |].
    rewrite Hp, Hv.
    destruct (IH (delete i p) Hnd) as (H1 & H2 & H3).
    { intros k w Hin. destruct (Hall k w) as [Hk Hw]; [by right |].
      split; [| done]. rewrite lookup_delete_ne; [done |].
      intros <-. apply Hi. apply list_elem_of_fmap. by exists (i, w). }
    split; [done |]. split.
    + intros k [-> | Hin]%elem_of_cons; [| by apply H2].
      by rewrite H3, lookup_delete_eq.
    + intros k Hk. apply not_elem_of_cons in Hk as [Hne Hk].
      by rewrite H3, lookup_delete_ne.
Qed.

Lemma remove_sent_snapshot (p : gmap string json) :
  map_Forall (λ _ v, py_eq v v = true) p →
  remove_sent (map_to_list p) p = (None, ∅).
Proof.
  intros Hp.
  destruct (remove_sent_all (map_to_list p) p) as (H1 & H2 & H3).
  - apply NoDup_fst_map_to_list.
  - intros k v Hin%elem_of_map_to_list. split; [done |]. by apply (Hp k).
  - destruct (remove_sent _ _) as [e p']. simpl in *. subst e. f_equal.
    apply map_empty. intros k.
    destruct (p !! k) as [v |] eqn:E.
    + apply H2. apply list_elem_of_fmap. exists (k, v).
      split; [done |]. by apply elem_of_map_to_list.
    + destruct (decide (k ∈ (map_to_list p).*1)) as [Hin | Hin]; [by apply H2 |].
      by rewrite H3.
Qed.

(** X22.  A flush that nothing interferes with empties the set of
    patches, provided every pending value equals itself under [==].  When
    no [patch] has come in between the snapshot and the return of the
    send, every entry still holds the value that was sent, and line 292
    compares each value with itself: all of them are removed, no lookup
    fails, and the dispatcher goes to sleep with nothing left to flush.
    The proviso is a hypothesis of the theorem.  A value that is not equal
    to itself (in Python the float NaN, which is not among the values of
    [json]) is outside it: line 292 never removes such an entry. *)
Theorem flush_clears_patches (s : System) :
  send_task s = SAwaitPatch (patches (client s)) →
  map_Forall (λ _ v, py_eq v v = true) (patches (client s)) →
  patches (client (step (ESend SendOk) s).1) = ∅ ∧
  send_task (step (ESend SendOk) s).1 = SAwaitSleep ∧
  (step (ESend SendOk) s).2
    = [LSend (patch_call (patches (client s))); LSleep send_messages_interval_ms].
Proof.
  intros Ht Hp. simpl. rewrite Ht. simpl.
  by rewrite (remove_sent_snapshot _ Hp).
Qed.

Lemma flush_clears_patches_witness :
  patches (client (step (ESend SendOk) demo_flushing).1) = ∅ ∧
  send_task (step (ESend SendOk) demo_flushing).1 = SAwaitSleep ∧
  (step (ESend SendOk) demo_flushing).2
    = [LSend (patch_call (patches (client demo_flushing)));
       LSleep send_messages_interval_ms].
Proof.
  apply (flush_clears_patches demo_flushing).
  - by vm_compute.
  - assert (patches (client demo_flushing) = {["status" := JInt 1]}) as ->
      by (by vm_compute).
    by apply map_Forall_singleton.
Defined.

(** ** A shutdown that completes *)




(** ** A connection that is lost *)

(** X24.  A lost connection costs no message.  When [recv] fails with
    [ConnectionClosedError] on a client in job mode that is not stopping,
    the receive loop ends, the gate closes ([connecting] is a new pending
    future) and [_connect] is scheduled; when the new connection is up, the
    only frame sent before the service has answered is [authenticate], and
    once it has answered [result: true] the queue is what it was when the
    connection was lost, in the same order, the gate is open again and one
    more connection is counted.  After [ConnectionClosedOK] nothing of the
    kind happens: the loop ends and no [_connect] is scheduled. *)
Theorem lost_connection_restores_queue (s : System) (d : pydict) :
  recv_task s = RRunning →
  stopping (client s) = false →
  token_set (client s) = true →
  tables_ok (client s) →
  dict_get "id" d = Some (JInt (message_id (client s) + 1)) →
  dict_get "result" d = Some (JBool true) →
  connect_task (step (ERecvClosed false) s).1 = CScheduled ∧
  connecting (client (step (ERecvClosed false) s).1) = None ∧
  sent (run (ERecvClosed false :: handshake d) s).2
    = [authenticate_job (client s) (message_id (client s) + 1)] ∧
  queue (client (run (ERecvClosed false :: handshake d) s).1) = queue (client s) ∧
  connecting (client (run (ERecvClosed false :: handshake d) s).1) = Some true ∧
  connections (client (run (ERecvClosed false :: handshake d) s).1)
    = connections (client s) + 1 ∧
  step (ERecvClosed true) s = (with_recv_task RFinished s, []).
Proof.
  intros Hr Hstop Htok Htab Hid Hres.
  set (s1 := with_connect_task CScheduled
               (with_recv_task RFinished
                  (with_client (set_connected false (set_connecting None (client s))) s))).
  assert (step (ERecvClosed false) s = (s1, [])) as Hstep.
  { simpl. rewrite Hr. unfold leave_receive_loop, connection_lost. by rewrite Hstop. }
  assert (step (ERecvClosed true) s = (with_recv_task RFinished s, [])) as Hok
    by (simpl; by rewrite Hr).
  cbn [run]. rewrite Hstep, Hok.
  destruct (handshake_run s1 d) as (H1 & H2 & H3 & H4 & _); try done.
  destruct (run (handshake d) s1) as [s2 l2]. simpl in *.
  by rewrite H1, H2, H3, H4.
Qed.

Lemma lost_connection_restores_queue_witness :
  connect_task (step (ERecvClosed false) demo_two_queued).1 = CScheduled ∧
  connecting (client (step (ERecvClosed false) demo_two_queued).1) = None ∧
  sent (run (ERecvClosed false :: handshake [("id", JInt 4); ("result", JBool true)])
          demo_two_queued).2
    = [authenticate_job (client demo_two_queued) (message_id (client demo_two_queued) + 1)] ∧
  queue (client (run (ERecvClosed false
                        :: handshake [("id", JInt 4); ("result", JBool true)])
                   demo_two_queued).1) = queue (client demo_two_queued) ∧
  connecting (client (run (ERecvClosed false
                             :: handshake [("id", JInt 4); ("result", JBool true)])
                        demo_two_queued).1) = Some true ∧
  connections (client (run (ERecvClosed false
                              :: handshake [("id", JInt 4); ("result", JBool true)])
                         demo_two_queued).1)
    = connections (client demo_two_queued) + 1 ∧
  step (ERecvClosed true) demo_two_queued = (with_recv_task RFinished demo_two_queued, []).
Proof.
  apply (lost_connection_restores_queue demo_two_queued
           [("id", JInt 4); ("result", JBool true)]).
  - reflexivity.
  - reflexivity.
  - reflexivity.
  - apply (tables_ok_run [EAction "job" "log" [JStr "x"] true false;
                          EAction "job" "createChannel" [JStr "loss"] true false]
             demo_ready),
      (tables_ok_run demo_session demo_boot), tables_ok_init.
  - reflexivity.
  - reflexivity.
Defined.

(** ** is_in_directory *)

Lemma prefix_append (s t : string) : String.prefix s (s +:+ t) = true.
Proof.
  induction s as [| a s IH]; simpl; [by destruct t |].
  by destruct (Ascii.ascii_dec a a).
Qed.

Lemma prefix_inv (s u : string) : String.prefix s u = true → ∃ t, u = s +:+ t.
Proof.
  revert u. induction s as [| a s IH]; intros u H.
  - by exists u.
  - destruct u as [| b u]; simpl in H; [discriminate |].
    destruct (Ascii.ascii_dec a b) as [-> | ]; [| discriminate].
    destruct (IH u H) as [t ->]. by exists t.
Qed.

(** X25.  [is_in_directory] is a test on strings, not on path
    components: it holds exactly when the resolved path of the file is the
    resolved path of the directory followed by any characters at all.  So
    a directory is in itself, and a sibling whose name extends the
    directory's name ([/data/runs-old] against [/data/runs]) is reported
    as inside it. *)
Theorem is_in_directory_string_prefix (realpath : string → string)
    (filepath directory : string) :
  is_in_directory realpath filepath directory = true ↔
  ∃ rest, realpath filepath = realpath directory +:+ rest.
Proof.
  unfold is_in_directory. split.
  - apply prefix_inv.
  - intros [rest ->]. apply prefix_append.
Qed.

(** ** The identifiers in messages and tables *)

Lemma pinned_refl c : pinned c [] c.
Proof.
  split; [exists []; by rewrite app_nil_r |]. split; intros i Hi; by left.
Qed.

Lemma pinned_trans c1 l1 c2 l2 c3 :
  pinned c1 l1 c2 → pinned c2 l2 c3 → pinned c1 (l1 ++ l2) c3.
Proof.
  intros ((n1 & Hq1 & Hi1) & Hc1 & Hs1) ((n2 & Hq2 & Hi2) & Hc2 & Hs2).
  unfold pinned, assigned, message_ids in *. split; [| split].
  - exists (n1 ++ n2). split; [by rewrite Hq2, Hq1, app_assoc |].
    by rewrite fmap_app, omap_app, fmap_app, Hi1, Hi2.
  - intros i Hi. rewrite omap_app, elem_of_app.
    destruct (Hc2 i Hi) as [H | H]; [| tauto]. destruct (Hc1 i H); tauto.
  - intros i Hi. rewrite omap_app, elem_of_app.
    destruct (Hs2 i Hi) as [H | H]; [| tauto]. destruct (Hs1 i H); tauto.
Qed.

Lemma pinned_same c l c' :
  queue c' = queue c → callbacks c' = callbacks c → subscriber c' = subscriber c →
  assigned l = [] → pinned c l c'.
Proof.
  intros Hq Hc Hs Hl. split; [exists []; by rewrite Hq, Hl, app_nil_r |].
  rewrite Hc, Hs. split; intros i Hi; by left.
Qed.

Lemma pinned_message m lock no_response : respects pinned (_message m lock no_response).
Proof.
  intros c.
  assert (pinned c [LAssign (message_id c + 1)]
            (set_queue (queue c ++ [JObj (dict_set "id" (JInt (message_id c + 1)) m)])
               (set_message_id (message_id c + 1) c))) as Hnr.
  { split; [| split; intros i Hi; by left].
    eexists. split; [reflexivity |]. simpl. by rewrite dict_get_set_eq. }
  assert (pinned c [LAssign (message_id c + 1)]
            (set_queue (queue c ++ [JObj (dict_set "id" (JInt (message_id c + 1)) m)])
               (set_callbacks (<[message_id c + 1 := ()]> (callbacks c))
                  (set_message_id (message_id c + 1) c)))) as Hr.
  { split; [| split; [| intros i Hi; by left]].
    - eexists. split; [reflexivity |]. simpl. by rewrite dict_get_set_eq.
    - intros i Hi. simpl in *. apply lookup_insert_is_Some in Hi as [<- | [_ Hi]].
      + right. by left.
      + by left. }
  unfold _message. destruct lock, no_response; run_turn;
    try destruct (connecting c); simpl; try done; apply pinned_refl.
Qed.

Lemma pinned_subscribe m name controller : respects pinned (_subscribe m name controller).
Proof.
  intros c. unfold _subscribe. run_turn.
  destruct (connecting c); simpl; [| apply pinned_refl].
  split; [| split; [intros i Hi; by left |]].
  - eexists. split; [reflexivity |]. simpl. by rewrite dict_get_set_eq.
  - intros i Hi. simpl in *. apply lookup_insert_is_Some in Hi as [<- | [_ Hi]].
    + right. by left.
    + by left.
Qed.

Lemma pinned_handle_message res : respects pinned (handle_message res).
Proof.
  apply respects_handle_message.
  - apply pinned_refl.
  - apply pinned_trans.
  - intros m. apply pinned_message.
  - intros i c. unfold on_done. run_turn.
    destruct (subscriber c !! i) eqn:E; simpl; [| apply pinned_refl].
    split; [exists []; by rewrite app_nil_r |]. split; [intros j Hj; by left |].
    intros j Hj. simpl in Hj. left.
    apply lookup_delete_is_Some in Hj. tauto.
  - intros cs c. by apply pinned_same.
  - intros i r c. unfold resolve. run_turn.
    destruct (callbacks c !! i) eqn:E; simpl; [| apply pinned_refl].
    split; [exists []; by rewrite app_nil_r |]. split; [| intros j Hj; by left].
    intros j Hj. simpl in Hj. left.
    apply lookup_delete_is_Some in Hj. tauto.
Qed.

Lemma pinned_register_controller name controller :
  respects pinned (register_controller name controller).
Proof.
  apply respects_register_controller.
  - apply pinned_refl.
  - apply pinned_trans.
  - apply pinned_subscribe.
  - intros f c. by apply pinned_same.
Qed.

Lemma pinned_action controller action args lock allow_in_shutdown :
  respects pinned (_action controller action args lock allow_in_shutdown).
Proof.
  apply respects_action.
  - apply pinned_refl.
  - apply pinned_trans.
  - apply pinned_message.
Qed.

Lemma step_appends e s :
  appends e = true →
  pinned (client s) (step e s).2 (client (step e s).1) →
  set_aside (connect_task (step e s).1) ⊆ set_aside (connect_task s) →
  message_ids (queued_by e s) = (λ i, Some (JInt i)) <$> assigned (step e s).2 ∧
  (∀ m, m ∈ held (step e s).1 → m ∈ held s ∨ m ∈ queued_by e s) ∧
  (∀ i, is_Some (callbacks (client (step e s).1) !! i) →
        is_Some (callbacks (client s) !! i) ∨ i ∈ assigned (step e s).2) ∧
  (∀ i, is_Some (subscriber (client (step e s).1) !! i) →
        is_Some (subscriber (client s) !! i) ∨ i ∈ assigned (step e s).2).
Proof.
  intros He ((new & Hq & Hids) & Hc & Hs) Haside.
  assert (queued_by e s = new) as ->.
  { unfold queued_by. by rewrite He, Hq, drop_app_length. }
  split; [done |]. split; [| done].
  intros m. unfold held. rewrite Hq, !elem_of_app.
  intros [H | [H | H]]; [left; left; by apply Haside | by left; right | by right].
Qed.

Lemma step_moves e s :
  appends e = false →
  assigned (step e s).2 = [] →
  held (step e s).1 ⊆ held s →
  callbacks (client (step e s).1) = callbacks (client s) →
  subscriber (client (step e s).1) = subscriber (client s) →
  message_ids (queued_by e s) = (λ i, Some (JInt i)) <$> assigned (step e s).2 ∧
  (∀ m, m ∈ held (step e s).1 → m ∈ held s ∨ m ∈ queued_by e s) ∧
  (∀ i, is_Some (callbacks (client (step e s).1) !! i) →
        is_Some (callbacks (client s) !! i) ∨ i ∈ assigned (step e s).2) ∧
  (∀ i, is_Some (subscriber (client (step e s).1) !! i) →
        is_Some (subscriber (client s) !! i) ∨ i ∈ assigned (step e s).2).
Proof.
  intros He Hl Hheld Hc Hs. unfold queued_by. rewrite He, Hl, Hc, Hs.
  split; [done |]. split; [intros m Hm; left; by apply Hheld |].
  split; intros i Hi; by left.
Qed.

Lemma list_remove_subseteq m q q' : list_remove m q = Some q' → q' ⊆ q.
Proof.
  revert q'. induction q as [| y q IH]; intros q' Hr; simpl in Hr; [discriminate |].
  destruct (py_eq y m).
  - injection Hr as <-. intros x Hx. by right.
  - destruct (list_remove m q) as [q0 |]; [| discriminate].
    injection Hr as <-. intros x [-> | Hx]%elem_of_cons; [by left |].
    right. by apply (IH q0).
Qed.

Lemma send_messages_moves o t c :
  assigned (send_messages o t c).2 = [] ∧
  queue (send_messages o t c).1.2 ⊆ queue c ∧
  callbacks (send_messages o t c).1.2 = callbacks c ∧
  subscriber (send_messages o t c).1.2 = subscriber c.
Proof.
  assert (∀ (r : sender * Client * list label),
            assigned r.2 = [] → r.1.2 = c →
            assigned r.2 = [] ∧ queue r.1.2 ⊆ queue c ∧
            callbacks r.1.2 = callbacks c ∧ subscriber r.1.2 = subscriber c) as Hsame
    by (intros r Hl ->; done).
  unfold send_messages, drain, after_drain.
  destruct t as [| | m rest | snap | | | e0]; try by apply Hsame.
  - destruct (connection_closed c); [by apply Hsame |].
    destruct (queue c); [| by apply Hsame].
    by destruct (0 <? size _)%nat; apply Hsame.
  - destruct o as [| e0]; [| by apply Hsame].
    destruct (list_remove m (queue c)) as [q' |] eqn:Hr; [| by apply Hsame].
    apply list_remove_subseteq in Hr.
    destruct rest; [| done]. simpl. by destruct (0 <? size _)%nat.
  - destruct o as [| e0].
    + by destruct (remove_sent _ _) as [[e0 |] p'].
    + by destruct (exn_cls e0); apply Hsame.
  - destruct (connection_closed c); [by apply Hsame |].
    destruct (queue c); [| by apply Hsame].
    by destruct (0 <? size _)%nat; apply Hsame.
Qed.

Lemma connect_answer_pinned ok job_mode queue_copy user_token c :
  pinned c (_connect_answer ok job_mode queue_copy user_token c).2
           (_connect_answer ok job_mode queue_copy user_token c).1.2 ∧
  set_aside (_connect_answer ok job_mode queue_copy user_token c).1.1.1 ⊆ queue_copy.
Proof.
  unfold _connect_answer.
  destruct job_mode, ok; simpl.
  - split; [| done].
    exact (pinned_message
             [("name", JStr "authenticate");
              ("token", JObj [("id", JStr "job"); ("token", opt_str (token c));
                              ("job", opt_str (job_id c))])]
             false false (set_connection (Some false) c)).
  - split; [by apply pinned_same | done].
  - split; [| done].
    exact (pinned_message
             [("name", JStr "authenticate");
              ("token", JObj [("id", JStr "user"); ("token", JStr user_token)])]
             false false (set_connection (Some false) c)).
  - run_turn. destruct (connecting c); simpl;
      (split; [by apply pinned_same | by intros x ?%elem_of_nil]).
Qed.

Lemma connect_job_resume_moves res queue_copy c :
  assigned (labels (_connect_job_resume res queue_copy c)) = [] ∧
  callbacks (after (_connect_job_resume res queue_copy c)) = callbacks c ∧
  subscriber (after (_connect_job_resume res queue_copy c)) = subscriber c ∧
  match outcome (_connect_job_resume res queue_copy c) with
  | Raise _ => queue (after (_connect_job_resume res queue_copy c)) = queue c
  | _ => queue (after (_connect_job_resume res queue_copy c)) = queue_copy ++ queue c
  end.
Proof.
  unfold _connect_job_resume.
  destruct (subscript res "result") as [e | [| [] | | | |]]; run_turn; try done.
  by destruct (connecting c).
Qed.

Lemma step_pinned e s :
  message_ids (queued_by e s) = (λ i, Some (JInt i)) <$> assigned (step e s).2 ∧
  (∀ m, m ∈ held (step e s).1 → m ∈ held s ∨ m ∈ queued_by e s) ∧
  (∀ i, is_Some (callbacks (client (step e s).1) !! i) →
        is_Some (callbacks (client s) !! i) ∨ i ∈ assigned (step e s).2) ∧
  (∀ i, is_Some (subscriber (client (step e s).1) !! i) →
        is_Some (subscriber (client s) !! i) ∨ i ∈ assigned (step e s).2).
Proof.
  destruct e.
  - apply step_moves; try done; simpl; unfold patch;
      by destruct (offline (client s)), (stopping (client s)).
  - apply step_appends; [done | |].
    + pose proof (pinned_message message lock no_response (client s)) as H.
      unfold labels, after in H. simpl.
      by destruct (_message _ _ _ _) as [[r c'] l].
    + simpl. by destruct (_message _ _ _ _) as [[r c'] l].
  - apply step_appends; [done | |].
    + pose proof (pinned_register_controller name controller (client s)) as H.
      unfold labels, after in H. simpl.
      by destruct (register_controller _ _ _) as [[r c'] l].
    + simpl. by destruct (register_controller _ _ _) as [[r c'] l].
  - apply step_appends; [done | |].
    + pose proof (pinned_action controller action args lock allow_in_shutdown (client s))
        as H.
      unfold labels, after in H. simpl.
      by destruct (_action _ _ _ _ _ _) as [[r c'] l].
    + simpl. by destruct (_action _ _ _ _ _ _) as [[r c'] l].
  - destruct (send_messages_moves o (send_task s) (client s)) as (H1 & H2 & H3 & H4).
    apply step_moves; try done; simpl;
      destruct (send_messages _ _ _) as [[t c'] l]; simpl in *; try done.
    unfold held. simpl. intros m. rewrite !elem_of_app. intros [H | H]; [by left |].
    right. by apply H2.
  - apply step_appends; [done | |]; simpl.
    + destruct (recv_task s); try apply pinned_refl.
      pose proof (pinned_handle_message res (client s)) as H.
      unfold labels, after in H.
      destruct (handle_message _ _) as [[r c'] l]. simpl in H.
      unfold leave_receive_loop, connection_lost.
      by destruct r, (connection_closed c'), (stopping c').
    + destruct (recv_task s); try done.
      destruct (handle_message _ _) as [[r c'] l].
      unfold leave_receive_loop, connection_lost.
      destruct r, (connection_closed c'), (stopping c'); simpl; try done;
        by intros x ?%elem_of_nil.
  - apply step_moves; try done; simpl; unfold leave_receive_loop, connection_lost;
      destruct (recv_task s), ok, (stopping (client s)); simpl; try done;
      unfold held; simpl; intros m Hm; apply elem_of_app; by right.
  - apply step_moves; try done; simpl; by destruct (connection (client s)).
  - apply step_moves; try done; simpl; destruct (connect_task s) eqn:Hc; simpl; try done.
    unfold held. simpl. rewrite Hc. simpl. intros m. by rewrite app_nil_r.
  - apply step_appends; [done | |]; simpl.
    + destruct (connect_task s); try apply pinned_refl.
      destruct (connect_answer_pinned ok job_mode queue_copy user_token (client s))
        as [H _].
      by destruct (_connect_answer _ _ _ _ _) as [[[t []] c'] l].
    + destruct (connect_task s) eqn:Hc; simpl; rewrite ?Hc; try done.
      destruct (connect_answer_pinned ok job_mode queue_copy user_token (client s))
        as [_ H].
      by destruct (_connect_answer _ _ _ _ _) as [[[t []] c'] l].
  - apply step_moves; try done; simpl.
    + destruct (connect_task s) as [| | | | [] | ]; try done.
      destruct (futures s !! id); [| done].
      pose proof (connect_job_resume_moves j queue_copy (client s)) as (H & _).
      unfold labels in H.
      destruct (_connect_job_resume _ _ _) as [[r c'] l]. by destruct r.
    + unfold held.
      destruct (connect_task s) as [| | | qc | [] i qc | ] eqn:Hc; simpl; rewrite ?Hc; try done.
      destruct (futures s !! i); simpl; rewrite ?Hc; [| done].
      pose proof (connect_job_resume_moves j qc (client s)) as (_ & _ & _ & H).
      unfold outcome, after in H.
      destruct (_connect_job_resume _ _ _) as [[r c'] l]. simpl in H.
      destruct r; simpl; rewrite H; try done.
      intros m Hm. apply elem_of_app. by right.
    + destruct (connect_task s) as [| | | | [] | ]; try done.
      destruct (futures s !! id); [| done].
      pose proof (connect_job_resume_moves j queue_copy (client s)) as (_ & H & _).
      unfold after in H.
      destruct (_connect_job_resume _ _ _) as [[r c'] l]. by destruct r.
    + destruct (connect_task s) as [| | | | [] | ]; try done.
      destruct (futures s !! id); [| done].
      pose proof (connect_job_resume_moves j queue_copy (client s)) as (_ & _ & H & _).
      unfold after in H.
      destruct (_connect_job_resume _ _ _) as [[r c'] l]. by destruct r.
  - apply step_moves; try done; simpl; unfold shutdown;
      destruct (offline (client s)); simpl; try done;
      destruct (sync_task s); simpl; try done;
      unfold stop_and_sync_poll;
      destruct (_ || _); simpl; try done;
      by destruct (connection _).
  - apply step_moves; try done; simpl; unfold stop_and_sync_wake;
      destruct (sync_task s); simpl; try done;
      unfold stop_and_sync_poll;
      destruct (_ || _); simpl; try done;
      by destruct (connection _).
  - apply step_moves; try done; simpl; unfold stop_and_sync_closed, shutdown_finish;
      by destruct (sync_task s), closed.
Qed.

Lemma run_pinned es s :
  message_ids (queued_along es s) = (λ i, Some (JInt i)) <$> assigned (run es s).2 ∧
  (∀ m, m ∈ held (run es s).1 → m ∈ held s ∨ m ∈ queued_along es s) ∧
  (∀ i, is_Some (callbacks (client (run es s).1) !! i) →
        is_Some (callbacks (client s) !! i) ∨ i ∈ assigned (run es s).2) ∧
  (∀ i, is_Some (subscriber (client (run es s).1) !! i) →
        is_Some (subscriber (client s) !! i) ∨ i ∈ assigned (run es s).2).
Proof.
  revert s. induction es as [| e es IH]; intros s.
  - simpl. split; [done |]. split; [| split]; intros x Hx; by left.
  - cbn [run queued_along].
    destruct (step_pinned e s) as (H1 & H2 & H3 & H4).
    destruct (step e s) as [s1 l1]. simpl in *.
    destruct (IH s1) as (H5 & H6 & H7 & H8).
    destruct (run es s1) as [s2 l2]. simpl in *.
    unfold assigned, message_ids in *.
    split; [by rewrite fmap_app, omap_app, fmap_app, H1, H5 |].
    split; [| split].
    + intros m Hm. rewrite elem_of_app.
      destruct (H6 m Hm) as [H | H]; [| tauto]. destruct (H2 m H); tauto.
    + intros i Hi. rewrite omap_app, elem_of_app.
      destruct (H7 i Hi) as [H | H]; [| tauto]. destruct (H3 i H); tauto.
    + intros i Hi. rewrite omap_app, elem_of_app.
      destruct (H8 i Hi) as [H | H]; [| tauto]. destruct (H4 i H); tauto.
Qed.

(** C8.  Along every schedule, from every state whose counter is not
    negative (it is 0 in a new client), the identifiers that [_message] and
    [_subscribe] assign, in the order of assignment, are strictly
    increasing, hence never used twice, and none of them is zero: each one
    is above the value the counter had at the start, and the counter ends
    on the last of them.  These are the identifiers that the client uses:
    the messages queued along the schedule carry them under ['id'], one
    each and in the order of queueing; a message that the client holds at
    the end (in its queue or set aside by [_connect]) was held at the start
    or is one of those; and a key under which a pending call or a
    subscription is recorded at the end was there at the start or is one
    of them. *)
Theorem C8_ids_strictly_increasing (es : list event) (s : System) :
  0 ≤ message_id (client s) →
  StronglySorted Z.lt (assigned (run es s).2) ∧
  NoDup (assigned (run es s).2) ∧
  Forall (λ i, i ≠ 0 ∧ message_id (client s) < i) (assigned (run es s).2) ∧
  assigned (run es s).2
    = seqZ (message_id (client s) + 1)
           (message_id (client (run es s).1) - message_id (client s)) ∧
  message_ids (queued_along es s) = (λ i, Some (JInt i)) <$> assigned (run es s).2 ∧
  (∀ m, m ∈ held (run es s).1 → m ∈ held s ∨ m ∈ queued_along es s) ∧
  (∀ i, is_Some (callbacks (client (run es s).1) !! i) →
        is_Some (callbacks (client s) !! i) ∨ i ∈ assigned (run es s).2) ∧
  (∀ i, is_Some (subscriber (client (run es s).1) !! i) →
        is_Some (subscriber (client s) !! i) ∨ i ∈ assigned (run es s).2).
Proof.
  intros H0. destruct (run_counts es s) as (Hle & Hids & _).
  split; [rewrite Hids; apply seqZ_sorted |].
  split; [rewrite Hids; apply NoDup_seqZ |].
  split; [rewrite Hids; apply Forall_seqZ; intros i Hi; lia |].
  split; [done |].
  apply run_pinned.
Qed.

Lemma C8_ids_strictly_increasing_witness :
  StronglySorted Z.lt (assigned (run demo_calls demo_boot).2) ∧
  NoDup (assigned (run demo_calls demo_boot).2) ∧
  Forall (λ i, i ≠ 0 ∧ message_id (client demo_boot) < i)
         (assigned (run demo_calls demo_boot).2) ∧
  assigned (run demo_calls demo_boot).2
    = seqZ (message_id (client demo_boot) + 1)
           (message_id (client (run demo_calls demo_boot).1)
            - message_id (client demo_boot)) ∧
  message_ids (queued_along demo_calls demo_boot)
    = (λ i, Some (JInt i)) <$> assigned (run demo_calls demo_boot).2 ∧
  (∀ m, m ∈ held (run demo_calls demo_boot).1 →
        m ∈ held demo_boot ∨ m ∈ queued_along demo_calls demo_boot) ∧
  (∀ i, is_Some (callbacks (client (run demo_calls demo_boot).1) !! i) →
        is_Some (callbacks (client demo_boot) !! i) ∨
        i ∈ assigned (run demo_calls demo_boot).2) ∧
  (∀ i, is_Some (subscriber (client (run demo_calls demo_boot).1) !! i) →
        is_Some (subscriber (client demo_boot) !! i) ∨
        i ∈ assigned (run demo_calls demo_boot).2).
Proof. apply C8_ids_strictly_increasing. simpl. lia. Defined.

(** The four messages queued in [demo_calls] carry the ids 1 to 4. *)
Example demo_calls_message_ids :
  message_ids (queued_along demo_calls demo_boot)
    = [Some (JInt 1); Some (JInt 2); Some (JInt 3); Some (JInt 4)] ∧
  length (queued_along demo_calls demo_boot) = 4%nat.
Proof. vm_compute. done. Qed.
